(** * Daily Habit Hub (pbj): a shallow embedding of the bucket registry,
    the entry ledger, the one-time migration and the derived statistics.

    Sources embedded here, by file of the repository snapshot:
    - [api/buckets.js], lines 1-92: the per-user handler (GET, POST, PUT,
      DELETE);
    - [api/checkins.js], lines 1-82: GET by month and the POST upsert;
    - [unnamed/part_001] ([api/_lib/db.js] in its per-user form):
      [DEFAULT_BUCKETS], [MAX_BUCKETS_PER_USER], [seedBucketsForUser],
      [resetData];
    - [unnamed/part_000], lines 217-235 ([api/admin/reset.js]);
    - [scripts/migrate.js], lines 1-173: [migrate], [seedDefaultBuckets] and
      the script body; the schema it migrates from is the one
      [api/_lib/db.js] creates (global buckets, unique index on [name]);
    - the later text of that script, with [--dry-run] and the safety check
      (in the snapshot: [scripts/seed-test-data.js], lines 137-411);
    - [api/_lib/auth.js] ([createSession], [getUserFromRequest],
      [requireUser]), [api/auth/logout.js] and [api/notes.js];
    - [unnamed/part_004] ([src/App.tsx] in its per-user form): [userStreak]
      (397-429), [activeDaysInMonth] (478-487), [monthlyCompletionCounts]
      (490-502), [getTotalPossibleForUser] (505-508) and the [percent]
      expression of the stats grid (831-837).

    Modelling conventions.
    - A calendar date is the triple behind its ISO text "YYYY-MM-DD".  The
      JavaScript code compares such texts with [<], [>] and [===]; on
      well-formed texts with four-digit years this is the lexicographic order
      on (year, month, day), which is what [IsoDate.ltb] computes.
      [Checkins.handler] is given the date of a request as such a text, or
      none; [CheckinsWire.handler] is given the JSON value as it arrives,
      compares it as the code does and leaves its reading to Postgres.
    - [new Date()] is read in a runtime whose zone is UTC (the serverless
      runtime; the tests pin the clock to 12:00Z), so that
      [setDate(getDate() - 1)] followed by [toISOString().slice(0, 10)] is the
      previous calendar day.  The current date is an explicit argument of
      whatever reads the clock: nothing caches it.
    - The relational store is a record of tables (lists of rows, in heap
      order) together with the schema facts the statements depend on: whether
      [buckets.user_id] exists, and which unique indexes are in place.  Every
      statement autocommits; a failing statement raises and leaves the store
      as the previous statements left it.  Requests are served one at a time.
    - Identifiers sent by clients are numbers; the caller of a handler is the
      user [requireUser] found, or nobody.  [Endpoint] runs [requireUser]
      itself, on the session store, before the handler.
    - JavaScript numbers that count things are integers below 2^53 and are
      kept in [nat] or [Z]; the one place where a quotient is taken (the
      percentage) is computed on binary64 floats, as the code does. *)

From Stdlib Require Import ZArith List String Ascii Bool Lia.
From Stdlib Require Import Floats.PrimFloat Floats.SpecFloat Floats.FloatOps.
From Stdlib Require Import Numbers.Cyclic.Int63.Uint63.
From stdpp Require Import base option list gmap strings sorting.

Open Scope string_scope.
Open Scope Z_scope.

(* ================================================================== *)
(** * JSON values as the handlers see them *)

Module Js.

(** A parsed JSON value, or [undefined] for an absent field.  A number
    is the rational [num / den]. *)
Inductive JsVal : Type :=
| JUndefined
| JNull
| JBool (b : bool)
| JNum (num : Z) (den : positive)
| JStr (s : string)
| JOther.   (* arrays and objects: always truthy, never a string *)

(** [v !== false] *)
Definition strict_neq_false (v : JsVal) : bool :=
  match v with
  | JBool false => false
  | _ => true
  end.

(** [Number.isInteger(v)] *)
Definition Number_isInteger (v : JsVal) : bool :=
  match v with
  | JNum n d => (n mod Z.pos d =? 0)
  | _ => false
  end.

(** The integer denoted by a number for which [Number_isInteger] holds. *)
Definition int_value (v : JsVal) : Z :=
  match v with
  | JNum n d => n / Z.pos d
  | _ => 0
  end.

(** White space removed by [String.prototype.trim], restricted to the
    ASCII range: TAB, LF, VT, FF, CR and SPACE. *)
Definition is_space (c : ascii) : bool :=
  let n := nat_of_ascii c in
  ((9 <=? n)%nat && (n <=? 13)%nat) || (n =? 32)%nat.

Fixpoint trimStart (s : string) : string :=
  match s with
  | EmptyString => EmptyString
  | String c r => if is_space c then trimStart r else s
  end.

Fixpoint trimEnd (s : string) : string :=
  match s with
  | EmptyString => EmptyString
  | String c r =>
      match trimEnd r with
      | EmptyString => if is_space c then EmptyString else String c EmptyString
      | r' => String c r'
      end
  end.

Definition trim (s : string) : string := trimEnd (trimStart s).

(** Truthiness of a string: non-empty. *)
Definition truthy_string (s : string) : bool :=
  match s with
  | EmptyString => false
  | _ => true
  end.

End Js.

(* ================================================================== *)
(** * Calendar dates *)

Module IsoDate.

Record t : Type := mk { year : Z; month : Z; day : Z }.

Definition eqb (a b : t) : bool :=
  (year a =? year b) && (month a =? month b) && (day a =? day b).

(** [a < b] on the ISO texts. *)
Definition ltb (a b : t) : bool :=
  (year a <? year b)
  || ((year a =? year b)
      && ((month a <? month b)
          || ((month a =? month b) && (day a <? day b)))).

Definition leb (a b : t) : bool := negb (ltb b a).

Definition isLeap (y : Z) : bool :=
  (y mod 4 =? 0) && (negb (y mod 100 =? 0) || (y mod 400 =? 0)).

(** [new Date(year, monthPart, 0).getDate()] *)
Definition daysInMonth (y m : Z) : Z :=
  if m =? 2 then (if isLeap y then 29 else 28)
  else if (m =? 4) || (m =? 6) || (m =? 9) || (m =? 11) then 30
  else 31.

(** A date the calendar has; a JavaScript [Date] and a DATE column hold
    nothing else. *)
Definition validb (d : t) : bool :=
  (1 <=? month d) && (month d <=? 12)
  && (1 <=? day d) && (day d <=? daysInMonth (year d) (month d)).

(** [date.setDate(date.getDate() - 1)], read back as an ISO date. *)
Definition prevDay (d : t) : t :=
  if 1 <? day d then mk (year d) (month d) (day d - 1)
  else if 1 <? month d
       then mk (year d) (month d - 1) (daysInMonth (year d) (month d - 1))
       else mk (year d - 1) 12 31.

(** A strictly monotone rank, used to measure the backward walk. *)
Definition rank (d : t) : Z := (year d * 12 + month d) * 32 + day d.

End IsoDate.

(* ================================================================== *)
(** * The relational store *)

Module Store.

(** A row of [buckets]: [user_id] is NULL for a legacy (global) bucket. *)
Record BucketRow : Type :=
  mkBucket { b_id : Z; b_user : option Z; b_name : string; b_sort : Z }.

(** A row of [entries] (its own serial id plays no role and is left out). *)
Record EntryRow : Type :=
  mkEntry { e_user : Z; e_bucket : Z; e_date : IsoDate.t; e_checked : bool }.

Record DB : Type := mkDB {
  users : list Z;                 (* users.id *)
  buckets : list BucketRow;
  entries : list EntryRow;
  bucket_seq : Z;                 (* next value of buckets_id_seq *)
  col_user_id : bool;             (* buckets.user_id exists *)
  user_id_not_null : bool;        (* buckets.user_id SET NOT NULL *)
  idx_name_unique : bool;         (* buckets_name_unique ON buckets(name) *)
  idx_user_name_unique : bool     (* buckets_user_name_unique ON buckets(user_id, name) *)
}.

Definition with_buckets (bs : list BucketRow) (db : DB) : DB :=
  mkDB (users db) bs (entries db) (bucket_seq db) (col_user_id db)
       (user_id_not_null db) (idx_name_unique db) (idx_user_name_unique db).

Definition with_entries (es : list EntryRow) (db : DB) : DB :=
  mkDB (users db) (buckets db) es (bucket_seq db) (col_user_id db)
       (user_id_not_null db) (idx_name_unique db) (idx_user_name_unique db).

Definition with_seq (n : Z) (db : DB) : DB :=
  mkDB (users db) (buckets db) (entries db) n (col_user_id db)
       (user_id_not_null db) (idx_name_unique db) (idx_user_name_unique db).

Definition with_col_user_id (f : bool) (db : DB) : DB :=
  mkDB (users db) (buckets db) (entries db) (bucket_seq db) f
       (user_id_not_null db) (idx_name_unique db) (idx_user_name_unique db).

Definition with_not_null (f : bool) (db : DB) : DB :=
  mkDB (users db) (buckets db) (entries db) (bucket_seq db) (col_user_id db)
       f (idx_name_unique db) (idx_user_name_unique db).

Definition with_idx_name (f : bool) (db : DB) : DB :=
  mkDB (users db) (buckets db) (entries db) (bucket_seq db) (col_user_id db)
       (user_id_not_null db) f (idx_user_name_unique db).

Definition with_idx_user_name (f : bool) (db : DB) : DB :=
  mkDB (users db) (buckets db) (entries db) (bucket_seq db) (col_user_id db)
       (user_id_not_null db) (idx_name_unique db) f.

(** What a statement, or JavaScript itself, can raise. *)
Inductive Exn : Type :=
| UniqueViolation
| ForeignKeyViolation
| NotNullViolation
| NoConflictTarget        (* ON CONFLICT (cols) without a matching unique index *)
| UndefinedColumn
| InvalidDate
| NumericOutOfRange
| TypeError               (* calling [trim] on a value that has none *)
| JsError (message : string).   (* [throw new Error(message)] *)

(** A computation over the store: it ends with a value, or raises; either
    way the store is the one its statements left. *)
Inductive res (A : Type) : Type :=
| Done (a : A) (db : DB)
| Raised (e : Exn) (db : DB).
Arguments Done {A} a db.
Arguments Raised {A} e db.

Definition M (A : Type) : Type := DB -> res A.

Definition ret {A} (a : A) : M A := fun db => Done a db.

Definition bind {A B} (c : M A) (k : A -> M B) : M B :=
  fun db =>
    match c db with
    | Done a db' => k a db'
    | Raised e db' => Raised e db'
    end.

Definition raise {A} (e : Exn) : M A := fun db => Raised e db.

(** The store a computation leaves behind. *)
Definition final {A} (r : res A) : DB :=
  match r with
  | Done _ db => db
  | Raised _ db => db
  end.

(** [hoare P c Q E]: from a store satisfying [P], [c] ends with a value
    and a store related by [Q], or raises leaving a store satisfying [E]. *)
Definition hoare {A} (P : DB -> Prop) (c : M A) (Q : A -> DB -> Prop)
    (E : DB -> Prop) : Prop :=
  forall db, P db ->
    match c db with
    | Done a db' => Q a db'
    | Raised _ db' => E db'
    end.

(** [for (const x of xs) { await body(x) }] *)
Fixpoint for_each {X} (xs : list X) (body : X -> M unit) : M unit :=
  match xs with
  | [] => ret tt
  | x :: rest => bind (body x) (fun _ => for_each rest body)
  end.

End Store.

Declare Scope sql_scope.
Delimit Scope sql_scope with sql.
Notation "x <- c ;; k" := (Store.bind c (fun x => k))
  (at level 100, c at next level, right associativity) : sql_scope.
Notation "c ;;; k" := (Store.bind c (fun _ => k))
  (at level 100, right associativity) : sql_scope.

(* ================================================================== *)
(** * SQL statements *)

Module Sql.
Import Store.
Local Open Scope sql_scope.

Definition owned_by (u : Z) (b : BucketRow) : bool :=
  match b_user b with
  | Some v => v =? u
  | None => false
  end.

Definition is_global (b : BucketRow) : bool :=
  match b_user b with
  | Some _ => false
  | None => true
  end.

Definition int4 (z : Z) : bool := (- 2147483648 <=? z) && (z <=? 2147483647).

(** Key of [buckets_user_name_unique]; a NULL [user_id] never conflicts. *)
Definition user_name_key (b : BucketRow) : option (Z * string) :=
  match b_user b with
  | Some u => Some (u, b_name b)
  | None => None
  end.

Definition user_name_keys (bs : list BucketRow) : list (Z * string) :=
  omap user_name_key bs.

Definition entry_key (e : EntryRow) : Z * Z * (Z * Z * Z) :=
  (e_user e, e_bucket e,
   (IsoDate.year (e_date e), IsoDate.month (e_date e), IsoDate.day (e_date e))).

(** A statement that names [buckets.user_id] needs the column. *)
Definition need_user_id : M unit :=
  fun db => if col_user_id db then Done tt db else Raised UndefinedColumn db.

(** [SELECT COUNT( * )::int FROM buckets WHERE user_id = u] *)
Definition count_buckets (u : Z) : M Z :=
  need_user_id ;;;
  fun db => Done (Z.of_nat (length (List.filter (owned_by u) (buckets db)))) db.

(** [SELECT COALESCE(MAX(sort_order), 0) FROM buckets WHERE user_id = u] *)
Definition max_sort_order (u : Z) : M Z :=
  need_user_id ;;;
  fun db =>
    Done (match List.filter (owned_by u) (buckets db) with
          | [] => 0
          | b :: rest => fold_left (fun m r => Z.max m (b_sort r)) rest (b_sort b)
          end) db.

(** [SELECT id, name, sort_order FROM buckets WHERE user_id = u
     ORDER BY sort_order ASC, id ASC] *)
Definition bucket_le (a b : BucketRow) : Prop :=
  b_sort a < b_sort b \/ (b_sort a = b_sort b /\ b_id a <= b_id b).

#[global] Instance bucket_le_dec : RelDecision bucket_le.
Proof. intros a b. unfold bucket_le. apply _. Defined.

Definition list_buckets (u : Z) : M (list BucketRow) :=
  need_user_id ;;;
  fun db => Done (merge_sort bucket_le (List.filter (owned_by u) (buckets db))) db.

(** How an INSERT INTO buckets treats a row that collides. *)
Inductive OnConflict : Type :=
| Fail                (* no ON CONFLICT clause *)
| DoNothingAny        (* ON CONFLICT DO NOTHING *)
| DoNothingUserName.  (* ON CONFLICT (user_id, name) DO NOTHING *)

Definition pk_taken (id : Z) (db : DB) : bool :=
  existsb (fun b => b_id b =? id) (buckets db).

Definition name_taken (name : string) (db : DB) : bool :=
  idx_name_unique db && existsb (fun b => String.eqb (b_name b) name) (buckets db).

Definition user_name_taken (u : Z) (name : string) (db : DB) : bool :=
  idx_user_name_unique db
  && existsb (fun b => owned_by u b && String.eqb (b_name b) name) (buckets db).

(** [INSERT INTO buckets (user_id, name, sort_order) VALUES (u, name, sort)
     RETURNING ...].  The serial default is drawn before any constraint is
    looked at, so a refused row still consumes a sequence value. *)
Definition insert_bucket (mode : OnConflict) (u : Z) (name : string) (sort : Z)
  : M (option BucketRow) :=
  need_user_id ;;;
  fun db =>
    if negb (int4 sort) then Raised NumericOutOfRange db
    else
    match mode, idx_user_name_unique db with
    | DoNothingUserName, false => Raised NoConflictTarget db
    | _, _ =>
        let id := bucket_seq db in
        let db1 := with_seq (id + 1) db in
        let row := mkBucket id (Some u) name sort in
        let arbiter := user_name_taken u name db in
        let other := pk_taken id db || name_taken name db in
        let fk := negb (existsb (Z.eqb u) (users db)) in
        match mode with
        | Fail =>
            if arbiter || other then Raised UniqueViolation db1
            else if fk then Raised ForeignKeyViolation db1
            else Done (Some row) (with_buckets (buckets db ++ [row]) db1)
        | DoNothingAny =>
            if arbiter || other then Done None db1
            else if fk then Raised ForeignKeyViolation db1
            else Done (Some row) (with_buckets (buckets db ++ [row]) db1)
        | DoNothingUserName =>
            if arbiter then Done None db1
            else if other then Raised UniqueViolation db1
            else if fk then Raised ForeignKeyViolation db1
            else Done (Some row) (with_buckets (buckets db ++ [row]) db1)
        end
    end.

(** [SELECT id FROM buckets WHERE id = i AND user_id = u] has a row. *)
Definition owner_check (i u : Z) : M bool :=
  need_user_id ;;;
  fun db => Done (existsb (fun b => (b_id b =? i) && owned_by u b) (buckets db)) db.

(** [SET name = COALESCE(n, name), sort_order = COALESCE(s, sort_order)]
    on one row. *)
Definition update_row (n : option string) (s : option Z) (b : BucketRow) : BucketRow :=
  mkBucket (b_id b) (b_user b) (default (b_name b) n) (default (b_sort b) s).

(** [UPDATE buckets SET name = COALESCE(n, name),
     sort_order = COALESCE(s, sort_order) WHERE id = i AND user_id = u
     RETURNING ...].  The unique indexes in place are checked on the
    resulting table, which on a table that satisfied them is the check of
    the rewritten row against the others. *)
Definition update_bucket (i u : Z) (n : option string) (s : option Z)
  : M (option BucketRow) :=
  need_user_id ;;;
  fun db =>
    let hit b := (b_id b =? i) && owned_by u b in
    let after := map (fun b => if hit b then update_row n s b else b) (buckets db) in
    if negb (int4 (default 0 s)) then Raised NumericOutOfRange db
    else if (idx_name_unique db && negb (bool_decide (NoDup (map b_name after))))
            || (idx_user_name_unique db
                && negb (bool_decide (NoDup (user_name_keys after))))
    then Raised UniqueViolation db
    else Done (head (List.filter hit after)) (with_buckets after db).

(** Rows of [entries] removed by ON DELETE CASCADE when the buckets
    [gone] are deleted. *)
Definition cascade (gone : list BucketRow) (es : list EntryRow) : list EntryRow :=
  List.filter (fun e => negb (existsb (fun b => b_id b =? e_bucket e) gone)) es.

(** [DELETE FROM buckets WHERE id = i AND user_id = u] *)
Definition delete_bucket (i u : Z) : M unit :=
  need_user_id ;;;
  fun db =>
    let hit b := (b_id b =? i) && owned_by u b in
    let gone := List.filter hit (buckets db) in
    Done tt (with_entries (cascade gone (entries db))
               (with_buckets (List.filter (fun b => negb (hit b)) (buckets db)) db)).

(** [DELETE FROM entries] and [DELETE FROM buckets] *)
Definition delete_all_entries : M unit :=
  fun db => Done tt (with_entries [] db).

Definition delete_all_buckets : M unit :=
  fun db => Done tt (with_entries (cascade (buckets db) (entries db))
                       (with_buckets [] db)).

(** [SELECT id FROM users] *)
Definition select_users : M (list Z) := fun db => Done (users db) db.

(** [SELECT id FROM buckets WHERE user_id = u LIMIT 1] has a row. *)
Definition has_bucket (u : Z) : M bool :=
  need_user_id ;;;
  fun db => Done (existsb (owned_by u) (buckets db)) db.

Definition same_slot (u b : Z) (d : IsoDate.t) (e : EntryRow) : bool :=
  (e_user e =? u) && (e_bucket e =? b) && IsoDate.eqb (e_date e) d.

(** [INSERT INTO entries (user_id, bucket_id, date, checked) VALUES (...)
     ON CONFLICT (user_id, bucket_id, date)
     DO UPDATE SET checked = EXCLUDED.checked].  The updated row is
    rewritten where it stands in the list; the table itself keeps no
    order. *)
Definition upsert_entry (u b : Z) (d : IsoDate.t) (checked : bool) : M unit :=
  fun db =>
    if negb (IsoDate.validb d) then Raised InvalidDate db
    else if existsb (same_slot u b d) (entries db)
    then Done tt (with_entries
                    (map (fun e => if same_slot u b d e
                                   then mkEntry (e_user e) (e_bucket e) (e_date e) checked
                                   else e) (entries db)) db)
    else if negb (existsb (Z.eqb u) (users db))
            || negb (existsb (fun r => b_id r =? b) (buckets db))
    then Raised ForeignKeyViolation db
    else Done tt (with_entries (entries db ++ [mkEntry u b d checked]) db).

(** [SELECT ... FROM entries WHERE date BETWEEN start AND end] *)
Definition entries_between (first last : IsoDate.t) : M (list EntryRow) :=
  fun db =>
    Done (List.filter (fun e => IsoDate.leb first (e_date e)
                                && IsoDate.leb (e_date e) last) (entries db)) db.

End Sql.

(** Statements only the migration script issues. *)
Module MigrationSql.
Import Store Sql.
Local Open Scope sql_scope.

(** [SELECT column_name FROM information_schema.columns
     WHERE table_name = 'buckets' AND column_name = 'user_id'] has a row. *)
Definition column_user_id_exists : M bool :=
  fun db => Done (col_user_id db) db.

(** [ALTER TABLE buckets ADD COLUMN user_id INTEGER REFERENCES users(id)
     ON DELETE CASCADE]: every existing row gets NULL. *)
Definition add_user_id_column : M unit :=
  fun db =>
    Done tt (with_col_user_id true
               (with_buckets
                  (map (fun b => mkBucket (b_id b) None (b_name b) (b_sort b)) (buckets db))
                  db)).

(** [SELECT id, name, sort_order FROM buckets WHERE user_id IS NULL] *)
Definition select_global_buckets : M (list BucketRow) :=
  need_user_id ;;;
  fun db => Done (List.filter is_global (buckets db)) db.

(** [SELECT id FROM buckets WHERE user_id = u AND name = n LIMIT 1]:
    without ORDER BY, the first matching row in heap order. *)
Definition select_user_bucket (u : Z) (n : string) : M (option BucketRow) :=
  need_user_id ;;;
  fun db =>
    Done (List.find (fun b => owned_by u b && String.eqb (b_name b) n) (buckets db)) db.

(** [UPDATE entries SET bucket_id = new WHERE user_id = u AND bucket_id = old];
    UNIQUE(user_id, bucket_id, date) is checked on the result. *)
Definition relink_entries (u old new : Z) : M unit :=
  fun db =>
    let after :=
      map (fun e => if (e_user e =? u) && (e_bucket e =? old)
                    then mkEntry (e_user e) new (e_date e) (e_checked e)
                    else e) (entries db) in
    if negb (bool_decide (NoDup (map entry_key after)))
    then Raised UniqueViolation db
    else Done tt (with_entries after db).

(** [DELETE FROM buckets WHERE user_id IS NULL]; [entries.bucket_id] is
    declared ON DELETE CASCADE. *)
Definition delete_global_buckets : M unit :=
  need_user_id ;;;
  fun db =>
    let gone := List.filter is_global (buckets db) in
    Done tt (with_entries (cascade gone (entries db))
               (with_buckets (List.filter (fun b => negb (is_global b)) (buckets db)) db)).

(** [ALTER TABLE buckets ALTER COLUMN user_id SET NOT NULL] *)
Definition set_user_id_not_null : M unit :=
  need_user_id ;;;
  fun db =>
    if existsb is_global (buckets db) then Raised NotNullViolation db
    else Done tt (with_not_null true db).

(** [DROP INDEX IF EXISTS buckets_name_unique] *)
Definition drop_index_name_unique : M unit :=
  fun db => Done tt (with_idx_name false db).

(** [CREATE UNIQUE INDEX IF NOT EXISTS buckets_user_name_unique
     ON buckets(user_id, name)] *)
Definition create_index_user_name_unique : M unit :=
  need_user_id ;;;
  fun db =>
    if idx_user_name_unique db then Done tt db
    else if bool_decide (NoDup (user_name_keys (buckets db)))
    then Done tt (with_idx_user_name true db)
    else Raised UniqueViolation db.

(** [SELECT u.id FROM users u LEFT JOIN buckets b ON b.user_id = u.id
     GROUP BY u.id HAVING COUNT(b.id) = 0] *)
Definition users_without_buckets : M (list Z) :=
  need_user_id ;;;
  fun db =>
    Done (List.filter (fun u => negb (existsb (owned_by u) (buckets db))) (users db)) db.

End MigrationSql.

(* ================================================================== *)
(** * HTTP plumbing ([api/_lib/http.js], [api/_lib/auth.js]) *)

Module Http.
Import Store.

Inductive Method : Type := GET | POST | PUT | DELETE | OTHER.

Inductive Body : Type :=
| ErrorBody (error : string)                      (* { error } *)
| OkBody                                          (* { ok: true } *)
| BucketBody (bucket : option BucketRow)          (* { bucket: rows[0] } *)
| BucketsBody (rows : list BucketRow)             (* { buckets: rows } *)
| CheckinsBody (us : list Z) (es : list EntryRow). (* { users, entries } *)

Record Response : Type := mkResponse { status : Z; body : Body }.

Definition sendJson (st : Z) (payload : Body) : M Response :=
  ret (mkResponse st payload).

Definition methodNotAllowed : M Response :=
  ret (mkResponse 405 (ErrorBody "Method not allowed")).

(** What [requireUser] answers when there is no valid session. *)
Definition unauthorized : M Response :=
  ret (mkResponse 401 (ErrorBody "Unauthorized")).

End Http.

(* ================================================================== *)
(** * [api/_lib/db.js]: seeding and reset *)

Module DbLib.
Import Store Sql.
Local Open Scope sql_scope.

Definition DEFAULT_BUCKETS : list (string * Z) :=
  [("10 min calisthenics", 1); ("25 min cardio", 2); ("Stretching / mobility", 3)].

Definition MAX_BUCKETS_PER_USER : Z := 5.

Definition seedBucketsForUser (userId : Z) : M unit :=
  existing <- has_bucket userId ;;
  if existing then ret tt
  else for_each DEFAULT_BUCKETS
         (fun bucket => insert_bucket DoNothingUserName userId (fst bucket) (snd bucket) ;;; ret tt).

Definition resetData : M unit :=
  delete_all_entries ;;;
  delete_all_buckets ;;;
  (allUsers <- select_users ;;
   for_each allUsers seedBucketsForUser).

End DbLib.

(* ================================================================== *)
(** * [api/buckets.js] *)

Module Buckets.
Import Store Sql Http Js.
Local Open Scope sql_scope.

Record Payload : Type := mkPayload {
  id : option Z;          (* absent, or a number *)
  name : JsVal;
  sortOrder : JsVal
}.

(** [name?.trim()]: [undefined] on a missing name, a [TypeError] on a value
    that is not a string. *)
Definition optional_trim (v : JsVal) : M (option string) :=
  match v with
  | JUndefined | JNull => ret None
  | JStr s => ret (Some (trim s))
  | _ => raise TypeError
  end.

(** [x || null] on an optional string. *)
Definition or_null (t : option string) : option string :=
  match t with
  | Some s => if truthy_string s then Some s else None
  | None => None
  end.

(** [!id] *)
Definition falsy_id (i : option Z) : bool :=
  match i with
  | None => true
  | Some z => z =? 0
  end.

Definition handler (auth : option Z) (method : Method) (payload : option Payload)
  : M Response :=
  match method with
  | OTHER => methodNotAllowed
  | _ =>
  match auth with
  | None => unauthorized
  | Some userId =>
  match method with
  | GET =>
      rows <- list_buckets userId ;;
      sendJson 200 (BucketsBody rows)
  | _ =>
  match payload with
  | None => sendJson 400 (ErrorBody "Missing payload")
  | Some payload =>
  match method with
  | POST =>
      trimmed <- optional_trim (name payload) ;;
      match or_null trimmed with
      | None => sendJson 400 (ErrorBody "Bucket name required")
      | Some nm =>
          count <- count_buckets userId ;;
          if DbLib.MAX_BUCKETS_PER_USER <=? count
          then sendJson 400 (ErrorBody "Maximum 5 habits allowed")
          else
            mx <- max_sort_order userId ;;
            row <- insert_bucket Fail userId nm (mx + 1) ;;
            sendJson 200 (BucketBody row)
      end
  | PUT =>
      if falsy_id (id payload) then sendJson 400 (ErrorBody "Bucket id required")
      else
        let i := default 0 (id payload) in
        owner <- owner_check i userId ;;
        if negb owner then sendJson 404 (ErrorBody "Bucket not found")
        else
          trimmed <- optional_trim (name payload) ;;
          row <- update_bucket i userId (or_null trimmed)
                   (if Number_isInteger (sortOrder payload)
                    then Some (int_value (sortOrder payload)) else None) ;;
          sendJson 200 (BucketBody row)
  | DELETE =>
      if falsy_id (id payload) then sendJson 400 (ErrorBody "Bucket id required")
      else
        let i := default 0 (id payload) in
        owner <- owner_check i userId ;;
        if negb owner then sendJson 404 (ErrorBody "Bucket not found")
        else
          delete_bucket i userId ;;;
          sendJson 200 OkBody
  | _ => methodNotAllowed
  end end end end end.

End Buckets.

(* ================================================================== *)
(** * [api/checkins.js] *)

Module Checkins.
Import Store Sql Http Js.
Local Open Scope sql_scope.

Record Payload : Type := mkPayload {
  bucketId : option Z;            (* absent, or a number *)
  date : option IsoDate.t;        (* absent, or an ISO date text *)
  checked : JsVal
}.

(** [monthBounds(month)] for the month key "YYYY-MM". *)
Definition monthBounds (month : Z * Z) : IsoDate.t * IsoDate.t :=
  let '(y, m) := month in
  (IsoDate.mk y m 1, IsoDate.mk y m (IsoDate.daysInMonth y m)).

(** [!payload?.bucketId || !payload?.date] *)
Definition missing_fields (payload : option Payload) : bool :=
  match payload with
  | None => true
  | Some p =>
      match bucketId p, date p with
      | Some b, Some _ => b =? 0
      | _, _ => true
      end
  end.

(** The handler; [today] is what [new Date()] gives when the request is
    served. *)
Definition handler (today : IsoDate.t) (auth : option Z) (method : Method)
    (month : option (Z * Z)) (payload : option Payload) : M Response :=
  match method with
  | PUT | DELETE | OTHER => methodNotAllowed
  | _ =>
  match auth with
  | None => unauthorized
  | Some userId =>
  match method with
  | GET =>
      match month with
      | None => sendJson 400 (ErrorBody "month is required")
      | Some mk =>
          let '(first, last) := monthBounds mk in
          us <- select_users ;;
          es <- entries_between first last ;;
          sendJson 200 (CheckinsBody us es)
      end
  | _ =>
      if missing_fields payload
      then sendJson 400 (ErrorBody "bucketId and date required")
      else
        match payload with
        | Some (mkPayload (Some b) (Some d) c) =>
            let chk := strict_neq_false c in
            let todayDate := today in
            let earliestDate := IsoDate.prevDay (IsoDate.prevDay today) in
            if IsoDate.ltb d earliestDate || IsoDate.ltb todayDate d
            then sendJson 400
                   (ErrorBody "Can only edit entries for today and past 2 days")
            else
              upsert_entry userId b d chk ;;;
              sendJson 200 OkBody
        | _ => sendJson 400 (ErrorBody "bucketId and date required")
        end
  end end end.

End Checkins.

(* ================================================================== *)
(** * [api/admin/reset.js] *)

Module Admin.
Import Store Http.
Local Open Scope sql_scope.

Definition handler (auth : option (Z * bool)) (method : Method) : M Response :=
  match method with
  | POST =>
      match auth with
      | None => unauthorized
      | Some (_, isAdmin) =>
          if negb isAdmin then sendJson 403 (ErrorBody "Forbidden")
          else DbLib.resetData ;;; sendJson 200 OkBody
      end
  | _ => methodNotAllowed
  end.

End Admin.

(* ================================================================== *)
(** * [scripts/migrate.js]

    The text of the file of that name; [MigrateDryRun], further down, is
    the later text of the same script. *)

Module Migrate.
Import Store Sql MigrationSql.
Local Open Scope sql_scope.

Definition nonempty {A} (l : list A) : bool :=
  match l with
  | [] => false
  | _ => true
  end.

(** [migrate()].  The five CREATE TABLE IF NOT EXISTS statements find the
    tables of the store (an absent table is an empty one) and change nothing;
    a [buckets] table they create has no [user_id] column. *)
Definition migrate : M unit :=
  colCheck <- column_user_id_exists ;;
  if negb colCheck then
    add_user_id_column ;;;
    (globalBuckets <- select_global_buckets ;;
     allUsers <- select_users ;;
     (if nonempty globalBuckets && nonempty allUsers then
        for_each allUsers (fun user =>
          for_each globalBuckets (fun bucket =>
            insert_bucket DoNothingAny user (b_name bucket) (b_sort bucket) ;;; ret tt)) ;;;
        for_each allUsers (fun user =>
          for_each globalBuckets (fun globalBucket =>
            userBucket <- select_user_bucket user (b_name globalBucket) ;;
            match userBucket with
            | Some ub => relink_entries user (b_id globalBucket) (b_id ub)
            | None => ret tt
            end)) ;;;
        delete_global_buckets
      else ret tt) ;;;
     set_user_id_not_null ;;;
     drop_index_name_unique ;;;
     create_index_user_name_unique)
  else
    ret tt.

(** [seedDefaultBuckets()] *)
Definition seedDefaultBuckets : M unit :=
  usersWithoutBuckets <- users_without_buckets ;;
  for_each usersWithoutBuckets (fun user =>
    for_each DbLib.DEFAULT_BUCKETS (fun bucket =>
      insert_bucket DoNothingUserName user (fst bucket) (snd bucket) ;;; ret tt)).

(** The script body: [await migrate(); await seedDefaultBuckets()]. *)
Definition script : M unit :=
  migrate ;;; seedDefaultBuckets.

End Migrate.

(* ================================================================== *)
(** * [src/App.tsx]: derived statistics *)

Module App.
Import Store.

Record User : Type := mkUser { u_id : Z; u_name : string }.

(** A bucket as the client holds it: [{ id, userId, name, sortOrder }]. *)
Record Bucket : Type :=
  mkBucket { id : Z; userId : Z; name : string; sortOrder : Z }.

(** [buckets]: the current user's buckets. *)
Definition currentBuckets (user : option User) (allBuckets : list Bucket) : list Bucket :=
  match user with
  | None => []
  | Some u => List.filter (fun b => userId b =? u_id u) allBuckets
  end.

Definition getBucketsForUser (allBuckets : list Bucket) (uid : Z) : list Bucket :=
  List.filter (fun b => userId b =? uid) allBuckets.

(** [userEntries.filter(e => e.date === dateStr &&
      userBucketIds.has(e.bucketId)).length] *)
Definition dayChecks (userEntries : list EntryRow) (userBucketIds : gset Z)
    (dateStr : IsoDate.t) : nat :=
  length (List.filter
            (fun e => IsoDate.eqb (e_date e) dateStr
                      && bool_decide (e_bucket e ∈ userBucketIds))
            userEntries).

(** The [while (true)] loop of [userStreak]; [fuel] bounds the number of
    iterations the model runs, [None] meaning it was not enough. *)
Fixpoint streak_loop (fuel : nat) (userEntries : list EntryRow)
    (userBucketIds : gset Z) (bucketCount : nat) (date : IsoDate.t) (streak : nat)
  : option nat :=
  match fuel with
  | O => None
  | S fuel' =>
      if (bucketCount <=? dayChecks userEntries userBucketIds date)%nat
      then streak_loop fuel' userEntries userBucketIds bucketCount
             (IsoDate.prevDay date) (S streak)
      else Some streak
  end.

Definition userEntriesOf (u : User) (entries : list EntryRow) : list EntryRow :=
  List.filter (fun e => (e_user e =? u_id u) && e_checked e) entries.

Definition bucketIdSet (buckets : list Bucket) : gset Z :=
  list_to_set (map id buckets).

(** [userStreak]; [now] is the date [new Date().toISOString()] shows, the
    UTC date. *)
Definition userStreak (fuel : nat) (user : option User) (buckets : list Bucket)
    (entries : list EntryRow) (now : IsoDate.t) : option nat :=
  match user with
  | None => Some O
  | Some u =>
      if (length buckets =? 0)%nat then Some O
      else
        let userEntries := userEntriesOf u entries in
        let userBucketIds := bucketIdSet buckets in
        let todayStr := now in
        let todayChecks := dayChecks userEntries userBucketIds todayStr in
        let todayComplete := (length buckets <=? todayChecks)%nat in
        let date := if negb todayComplete then IsoDate.prevDay now else now in
        streak_loop fuel userEntries userBucketIds (length buckets) date O
  end.

(** [activeDaysInMonth]: the [for] loop over [day = 1 .. daysInMonth]. *)
Fixpoint activeDays_loop (steps : nat) (month : Z * Z) (epoch today : IsoDate.t)
    (day : Z) (count : nat) : nat :=
  match steps with
  | O => count
  | S steps' =>
      let date := IsoDate.mk (fst month) (snd month) day in
      activeDays_loop steps' month epoch today (day + 1)
        (if IsoDate.leb epoch date && IsoDate.leb date today then S count else count)
  end.

Definition activeDaysInMonth (month : Z * Z) (epoch today : IsoDate.t) : nat :=
  let daysInMonth := IsoDate.daysInMonth (fst month) (snd month) in
  activeDays_loop (Z.to_nat daysInMonth) month epoch today 1 O.

(** [monthlyCompletionCounts]: one pass over [entries], filling a [Map]. *)
Definition countEntry (epoch today : IsoDate.t) (allBuckets : list Bucket)
    (acc : gmap Z nat) (entry : EntryRow) : gmap Z nat :=
  if negb (e_checked entry) then acc
  else if IsoDate.ltb (e_date entry) epoch || IsoDate.ltb today (e_date entry) then acc
  else
    match List.find (fun b => id b =? e_bucket entry) allBuckets with
    | None => acc
    | Some bucket =>
        if negb (userId bucket =? e_user entry) then acc
        else <[e_user entry := S (default O (acc !! e_user entry))]> acc
    end.

Definition monthlyCompletionCounts (epoch today : IsoDate.t)
    (allBuckets : list Bucket) (entries : list EntryRow) : gmap Z nat :=
  fold_left (countEntry epoch today allBuckets) entries ∅.

Definition getTotalPossibleForUser (allBuckets : list Bucket) (activeDays : nat)
    (uid : Z) : nat :=
  (length (getBucketsForUser allBuckets uid) * activeDays)%nat.

(** A count as a JavaScript number. *)
Definition number (n : nat) : float :=
  PrimFloat.of_uint63 (Uint63.of_Z (Z.of_nat n)).

(** [Math.round]: the nearest integer, ties towards +infinity, taken on
    the exact value of the binary64 argument. *)
Definition Math_round (x : float) : float :=
  match Prim2SF x with
  | S754_finite s m e =>
      if 0 <=? e then x
      else
        let half_up := (2 * Z.pos m + 2 ^ (- e)) / 2 ^ (- e + 1) in
        let half_down := (2 * Z.pos m - 2 ^ (- e) + 2 ^ (- e + 1) - 1) / 2 ^ (- e + 1) in
        if s then PrimFloat.opp (PrimFloat.of_uint63 (Uint63.of_Z half_down))
        else PrimFloat.of_uint63 (Uint63.of_Z half_up)
  | _ => x
  end.

(** The [percent] shown on a friend's stat card. *)
Definition percent (epoch today : IsoDate.t) (month : Z * Z)
    (allBuckets : list Bucket) (entries : list EntryRow) (friend : Z) : float :=
  let completedCount :=
    default O (monthlyCompletionCounts epoch today allBuckets entries !! friend) in
  let totalPossible :=
    getTotalPossibleForUser allBuckets (activeDaysInMonth month epoch today) friend in
  if (totalPossible =? 0)%nat then 0%float
  else Math_round ((number completedCount / number totalPossible) * 100)%float.

End App.

(* ================================================================== *)
(** * The statistics as the specification words them

    These definitions follow the specification's sentences, not the code;
    the theorems below compare them with [App]. *)

Module Spec.
Import Store.

(** Checked-bucket count of user [u] on day [d], over the buckets the user
    currently owns. *)
Definition checkedCount (u : App.User) (buckets : list App.Bucket)
    (entries : list EntryRow) (d : IsoDate.t) : nat :=
  length (List.filter
            (fun e => (e_user e =? App.u_id u) && e_checked e
                      && IsoDate.eqb (e_date e) d
                      && existsb (fun b => App.id b =? e_bucket e) buckets)
            entries).

(** A day is complete when its checked count reaches the bucket count. *)
Definition complete (u : App.User) (buckets : list App.Bucket)
    (entries : list EntryRow) (d : IsoDate.t) : Prop :=
  (length buckets <= checkedCount u buckets entries d)%nat.

#[global] Instance complete_dec u buckets entries d :
  Decision (complete u buckets entries d).
Proof. unfold complete. apply _. Defined.

(** Where the backward walk starts: today if complete, else yesterday. *)
Definition walkStart (u : App.User) (buckets : list App.Bucket)
    (entries : list EntryRow) (today : IsoDate.t) : IsoDate.t :=
  if decide (complete u buckets entries today) then today
  else IsoDate.prevDay today.

(** [daysBack k d]: the day [k] days before [d]. *)
Definition daysBack (k : nat) (d : IsoDate.t) : IsoDate.t :=
  Nat.iter k IsoDate.prevDay d.

(** [n] is the result of the walk: the [n] days from the start backwards
    are complete and the next one is the first incomplete day. *)
Definition isStreak (u : App.User) (buckets : list App.Bucket)
    (entries : list EntryRow) (today : IsoDate.t) (n : nat) : Prop :=
  let start := walkStart u buckets entries today in
  (forall k, (k < n)%nat -> complete u buckets entries (daysBack k start))
  /\ ~ complete u buckets entries (daysBack n start).

(** [d] is a day of the month [month]. *)
Definition inMonth (month : Z * Z) (d : IsoDate.t) : bool :=
  (IsoDate.year d =? fst month) && (IsoDate.month d =? snd month)
  && (1 <=? IsoDate.day d)
  && (IsoDate.day d <=? IsoDate.daysInMonth (fst month) (snd month)).

(** [d] lies in [epoch, today]. *)
Definition active (epoch today d : IsoDate.t) : bool :=
  IsoDate.leb epoch d && IsoDate.leb d today.

(** Bucket [bid] is currently owned by user [uid]. *)
Definition ownedBy (allBuckets : list App.Bucket) (uid bid : Z) : bool :=
  existsb (fun b => (App.id b =? bid) && (App.userId b =? uid)) allBuckets.

(** Number of checked entries of the ledger in month [month], dated within
    [epoch, today], whose bucket [uid] currently owns. *)
Definition completedInMonth (ledger : list EntryRow) (allBuckets : list App.Bucket)
    (uid : Z) (month : Z * Z) (epoch today : IsoDate.t) : nat :=
  length (List.filter
            (fun e => e_checked e && inMonth month (e_date e)
                      && active epoch today (e_date e)
                      && (e_user e =? uid)
                      && ownedBy allBuckets uid (e_bucket e))
            ledger).

(** The days of a month, as day numbers. *)
Definition daysOf (month : Z * Z) : list Z :=
  map Z.of_nat (seq 1 (Z.to_nat (IsoDate.daysInMonth (fst month) (snd month)))).

(** Number of active days in [month]. *)
Definition activeDays (month : Z * Z) (epoch today : IsoDate.t) : nat :=
  length (List.filter
            (fun d => active epoch today (IsoDate.mk (fst month) (snd month) d))
            (daysOf month)).

Definition bucketCount (allBuckets : list App.Bucket) (uid : Z) : nat :=
  length (List.filter (fun b => App.userId b =? uid) allBuckets).

(** Exact rounding of the rational [n / d] to the nearest integer, ties
    upwards. *)
Definition roundHalfUp (n d : Z) : Z := (2 * n + d) / (2 * d).

(** The per-user view of the registry: what [list(U)] answers. *)
Definition listOf (db : DB) (u : Z) : list BucketRow :=
  merge_sort Sql.bucket_le (List.filter (Sql.owned_by u) (buckets db)).

End Spec.

(* ================================================================== *)
(** * The registry under the API's operations *)

Module Registry.
Import Store.

(** The requests that change the store once the schema is per-user. *)
Inductive Op : Type :=
| Create (u : Z) (p : Buckets.Payload)        (* POST /api/buckets *)
| Update (u : Z) (p : Buckets.Payload)        (* PUT /api/buckets: rename, reorder *)
| Remove (u : Z) (p : Buckets.Payload)        (* DELETE /api/buckets *)
| Seed (u : Z)                                (* seedBucketsForUser at signup *)
| AdminReset (caller : Z) (isAdmin : bool)    (* POST /api/admin/reset *)
| CheckIn (today : IsoDate.t) (u : Z) (p : Checkins.Payload). (* POST /api/checkins *)

(** The store after a request, whether it was answered or raised. *)
Definition exec (op : Op) (db : DB) : DB :=
  match op with
  | Create u p => final (Buckets.handler (Some u) Http.POST (Some p) db)
  | Update u p => final (Buckets.handler (Some u) Http.PUT (Some p) db)
  | Remove u p => final (Buckets.handler (Some u) Http.DELETE (Some p) db)
  | Seed u => final (DbLib.seedBucketsForUser u db)
  | AdminReset caller isAdmin => final (Admin.handler (Some (caller, isAdmin)) Http.POST db)
  | CheckIn today u p => final (Checkins.handler today (Some u) Http.POST None (Some p) db)
  end.

Definition run (ops : list Op) (db : DB) : DB :=
  fold_left (fun d op => exec op d) ops db.

(** Number of buckets user [u] owns. *)
Definition count (u : Z) (bs : list BucketRow) : nat :=
  length (List.filter (Sql.owned_by u) bs).

(** Two stores with the same schema facts. *)
Definition same_schema (db db' : DB) : Prop :=
  col_user_id db' = col_user_id db
  /\ user_id_not_null db' = user_id_not_null db
  /\ idx_name_unique db' = idx_name_unique db
  /\ idx_user_name_unique db' = idx_user_name_unique db
  /\ users db' = users db.

(** The per-user schema with its unique index, names unique per user, and
    at most five buckets each. *)
Definition Inv (db : DB) : Prop :=
  col_user_id db = true
  /\ idx_user_name_unique db = true
  /\ NoDup (Sql.user_name_keys (buckets db))
  /\ forall u, (count u (buckets db) <= 5)%nat.

(** While user [u] is being seeded: as [Inv], except that [u]'s own
    buckets are only known to bear default names. *)
Definition Seeding (u : Z) (db : DB) : Prop :=
  col_user_id db = true
  /\ idx_user_name_unique db = true
  /\ NoDup (Sql.user_name_keys (buckets db))
  /\ (forall u', u' <> u -> (count u' (buckets db) <= 5)%nat)
  /\ (forall b, In b (buckets db) -> b_user b = Some u ->
                In (b_name b) (map fst DbLib.DEFAULT_BUCKETS)).

End Registry.

(* ================================================================== *)
(** * Integrity of the store *)

Module Integrity.
Import Store.

(** The foreign keys of the tables: [entries.bucket_id] REFERENCES
    [buckets(id)], [entries.user_id] and a non-null [buckets.user_id]
    REFERENCES [users(id)]. *)
Definition Refs (db : DB) : Prop :=
  (forall e, In e (entries db) -> exists b, In b (buckets db) /\ b_id b = e_bucket e)
  /\ (forall e, In e (entries db) -> In (e_user e) (users db))
  /\ (forall b u, In b (buckets db) -> b_user b = Some u -> In u (users db)).

(** What the declared constraints say of a store: [buckets.id] is a
    primary key, [entries] is UNIQUE(user_id, bucket_id, date), the
    foreign keys hold, and [entries.date] is a DATE. *)
Definition Wf (db : DB) : Prop :=
  NoDup (map b_id (buckets db))
  /\ NoDup (map Sql.entry_key (entries db))
  /\ Refs db
  /\ (forall e, In e (entries db) -> IsoDate.validb (e_date e) = true).

End Integrity.

(* ================================================================== *)
(** * The dashboard's check-in state (src/App.tsx, continued) *)

Module Dashboard.
Import Store App.

(** [editableDates]: the dates of today, yesterday and the day before;
    [now] is the date of [new Date()], and [d.setDate(d.getDate() - i)]
    steps back [i] days. *)
Definition editableDates (now : IsoDate.t) : list IsoDate.t :=
  map (fun i => Nat.iter i IsoDate.prevDay now) (seq 0 3).

(** [e.userId === user.id && e.bucketId === bucketId &&
     e.date === selectedDate] *)
Definition sameEntry (u : User) (bucketId : Z) (selectedDate : IsoDate.t)
    (e : EntryRow) : bool :=
  (e_user e =? u_id u) && (e_bucket e =? bucketId) && IsoDate.eqb (e_date e) selectedDate.

(** The optimistic update of [handleToggle]: what [setEntries] makes of
    the previous entries. *)
Definition handleToggle (user : option User) (bucketId : Z) (checked : bool)
    (selectedDate : IsoDate.t) (prev : list EntryRow) : list EntryRow :=
  match user with
  | None => prev
  | Some u =>
      match List.find (sameEntry u bucketId selectedDate) prev with
      | Some existing =>
          map (fun e => if sameEntry u bucketId selectedDate e
                        then mkEntry (e_user e) (e_bucket e) (e_date e) checked
                        else e) prev
      | None => prev ++ [mkEntry (u_id u) bucketId selectedDate checked]
      end
  end.

(** [userCheckedBuckets]: the bucket ids the user has checked on the
    selected date, as a [Set]. *)
Definition userCheckedBuckets (user : option User) (entries : list EntryRow)
    (selectedDate : IsoDate.t) : gset Z :=
  match user with
  | None => ∅
  | Some u =>
      let dayEntries :=
        List.filter (fun e => (e_user e =? u_id u)
                              && IsoDate.eqb (e_date e) selectedDate
                              && e_checked e) entries in
      list_to_set (map e_bucket dayEntries)
  end.

(** [allDone], over [buckets], the current user's buckets. *)
Definition allDone (user : option User) (buckets : list Bucket)
    (entries : list EntryRow) (selectedDate : IsoDate.t) : bool :=
  let completedToday := size (userCheckedBuckets user entries selectedDate) in
  let totalBuckets := length buckets in
  (totalBuckets <=? completedToday)%nat && (0 <? totalBuckets)%nat.

(** One element of [friendsToday]. *)
Record FriendStatus : Type :=
  mkStatus { checked : nat; total : nat; complete : bool }.

Definition friendToday (allBuckets : list Bucket) (entries : list EntryRow)
    (today : IsoDate.t) (friend : Z) : FriendStatus :=
  let friendBuckets := getBucketsForUser allBuckets friend in
  let friendEntries :=
    List.filter (fun e => (e_user e =? friend) && IsoDate.eqb (e_date e) today
                          && e_checked e) entries in
  let friendBucketIds := bucketIdSet friendBuckets in
  let checkedCount :=
    length (List.filter (fun e => bool_decide (e_bucket e ∈ friendBucketIds))
              friendEntries) in
  mkStatus checkedCount (length friendBuckets)
           ((0 <? length friendBuckets)%nat
            && (length friendBuckets <=? checkedCount)%nat).

Definition friendsToday (users : list Z) (allBuckets : list Bucket)
    (entries : list EntryRow) (today : IsoDate.t) : list FriendStatus :=
  map (friendToday allBuckets entries today) users.

(** The key [`${entry.userId}-${entry.date}`] of [userDayCompletion]: a
    user id and an ISO date. *)
Definition dayKey (uid : Z) (d : IsoDate.t) : Z * (Z * Z * Z) :=
  (uid, (IsoDate.year d, IsoDate.month d, IsoDate.day d)).

(** [userDayCompletion]: one pass over [entries], filling a [Map]. *)
Definition countDay (allBuckets : list Bucket) (acc : gmap (Z * (Z * Z * Z)) nat)
    (entry : EntryRow) : gmap (Z * (Z * Z * Z)) nat :=
  if negb (e_checked entry) then acc
  else
    match List.find (fun b => id b =? e_bucket entry) allBuckets with
    | None => acc
    | Some bucket =>
        if negb (userId bucket =? e_user entry) then acc
        else
          let key := dayKey (e_user entry) (e_date entry) in
          <[key := S (default O (acc !! key))]> acc
    end.

Definition userDayCompletion (allBuckets : list Bucket) (entries : list EntryRow)
  : gmap (Z * (Z * Z * Z)) nat :=
  fold_left (countDay allBuckets) entries ∅.

(** [count] of a heat cell: [userDayCompletion.get(`${friend.id}-${date}`) || 0]. *)
Definition cellCount (allBuckets : list Bucket) (entries : list EntryRow)
    (friend : Z) (date : IsoDate.t) : nat :=
  default O (userDayCompletion allBuckets entries !! dayKey friend date).

End Dashboard.

(* ================================================================== *)
(** * What the migration is to make of the entries *)

Module Relink.
Import Store.

(** The bucket of user [u] named [n] among [bs], as the migration looks
    it up: the first one in heap order. *)
Definition userBucket (bs : list BucketRow) (u : Z) (n : string)
  : option BucketRow :=
  List.find (fun b => Sql.owned_by u b && String.eqb (b_name b) n) bs.

(** An entry moved from the legacy bucket it refers to, among [legacy],
    to its user's bucket of the same name among [bs]; an entry for which
    either is missing stays as it is. *)
Definition moved (legacy bs : list BucketRow) (e : EntryRow) : EntryRow :=
  match List.find (fun g => b_id g =? e_bucket e) legacy with
  | Some g =>
      match userBucket bs (e_user e) (b_name g) with
      | Some ub => mkEntry (e_user e) (b_id ub) (e_date e) (e_checked e)
      | None => e
      end
  | None => e
  end.

End Relink.

(* ================================================================== *)
(** * [api/notes.js]: the note of a day *)

Module Notes.
Import Http Js.

(** A row of [user_notes] (its serial id plays no role and is left out);
    [notes] is a nullable TEXT, the two times are what NOW() gave. *)
Record NoteRow : Type := mkNote {
  n_user : Z;
  n_date : IsoDate.t;
  n_notes : option string;
  n_created : Z;
  n_updated : Z
}.

(** The tables the handler touches: [users.id] and [user_notes]. *)
Record DB : Type := mkDB { users : list Z; user_notes : list NoteRow }.

Inductive res (A : Type) : Type :=
| Done (a : A) (db : DB)
| Raised (e : Store.Exn) (db : DB).
Arguments Done {A} a db.
Arguments Raised {A} e db.

Definition final {A} (r : res A) : DB :=
  match r with
  | Done _ db => db
  | Raised _ db => db
  end.

Record Payload : Type := mkPayload {
  date : option IsoDate.t;        (* absent, or an ISO date text *)
  notes : JsVal
}.

(** [user_id = u AND date = d]: the key of UNIQUE(user_id, date). *)
Definition same_day (u : Z) (d : IsoDate.t) (n : NoteRow) : bool :=
  (n_user n =? u) && IsoDate.eqb (n_date n) d.

(** [DELETE FROM user_notes WHERE user_id = u AND date = d] *)
Definition delete_note (u : Z) (d : IsoDate.t) (db : DB) : res unit :=
  if negb (IsoDate.validb d) then Raised Store.InvalidDate db
  else Done tt (mkDB (users db)
                  (List.filter (fun n => negb (same_day u d n)) (user_notes db))).

(** [INSERT INTO user_notes (user_id, date, notes, updated_at)
     VALUES (u, d, text, NOW())
     ON CONFLICT (user_id, date)
     DO UPDATE SET notes = EXCLUDED.notes, updated_at = NOW()];
    [created_at] defaults to NOW() on insertion. *)
Definition upsert_note (now u : Z) (d : IsoDate.t) (text : string) (db : DB)
  : res unit :=
  if negb (IsoDate.validb d) then Raised Store.InvalidDate db
  else if existsb (same_day u d) (user_notes db)
  then Done tt (mkDB (users db)
                  (map (fun n => if same_day u d n
                                 then mkNote (n_user n) (n_date n) (Some text)
                                             (n_created n) now
                                 else n) (user_notes db)))
  else if negb (existsb (Z.eqb u) (users db))
  then Raised Store.ForeignKeyViolation db
  else Done tt (mkDB (users db) (user_notes db ++ [mkNote u d (Some text) now now])).

(** The response once the statement has run: [{ ok: true }]. *)
Definition saved (r : res unit) : res Response :=
  match r with
  | Done _ db => Done (mkResponse 200 OkBody) db
  | Raised e db => Raised e db
  end.

(** The handler; [now] is what NOW() gives when the request is served,
    [auth] the id of the signed-in user. *)
Definition handler (now : Z) (auth : option Z) (method : Method)
    (payload : option Payload) (db : DB) : res Response :=
  match method with
  | POST =>
      match auth with
      | None => Done (mkResponse 401 (ErrorBody "Unauthorized")) db
      | Some userId =>
          match payload with
          | Some (mkPayload (Some d) notes) =>
              match notes with
              | JUndefined | JNull => saved (delete_note userId d db)
              | JStr s =>
                  if negb (truthy_string (trim s))
                  then saved (delete_note userId d db)
                  else saved (upsert_note now userId d (trim s) db)
              | _ => Raised Store.TypeError db
              end
          | _ => Done (mkResponse 400 (ErrorBody "date required")) db
          end
      end
  | _ => Done (mkResponse 405 (ErrorBody "Method not allowed")) db
  end.

(** [currentNote] of the dashboard, over the notes it holds. *)
Definition currentNote (user : option App.User) (userNotes : list NoteRow)
    (selectedDate : IsoDate.t) : string :=
  match user with
  | None => ""
  | Some u =>
      match List.find (fun n => (n_user n =? App.u_id u)
                                && IsoDate.eqb (n_date n) selectedDate) userNotes with
      | Some note => default "" (n_notes note)
      | None => ""
      end
  end.

(** UNIQUE(user_id, date), [user_id] REFERENCES [users(id)], and [date] is
    a DATE. *)
Definition Wf (db : DB) : Prop :=
  NoDup (map (fun n => (n_user n, (IsoDate.year (n_date n), IsoDate.month (n_date n),
                                   IsoDate.day (n_date n)))) (user_notes db))
  /\ (forall n, In n (user_notes db) -> In (n_user n) (users db))
  /\ (forall n, In n (user_notes db) -> IsoDate.validb (n_date n) = true).

End Notes.

(* ================================================================== *)
(** * [api/_lib/auth.js] and [api/auth/logout.js]: sessions *)

Module Auth.
Import Http.

(** Rows of [users] and [sessions] ([created_at] plays no role and is
    left out); times are milliseconds since the epoch. *)
Record UserRow : Type := mkUser {
  usr_id : Z;
  usr_email : string;
  usr_name : option string;
  usr_image : option string
}.

Record SessionRow : Type := mkSession {
  s_id : Z;
  s_user : Z;
  s_token_hash : string;
  s_expires : Z
}.

Record DB : Type := mkDB {
  users : list UserRow;
  sessions : list SessionRow;
  session_seq : Z                 (* next value of sessions_id_seq *)
}.

Inductive res (A : Type) : Type :=
| Done (a : A) (db : DB)
| Raised (e : Store.Exn) (db : DB).
Arguments Done {A} a db.
Arguments Raised {A} e db.

Definition SESSION_DAYS : Z := 45.

Definition ADMIN_EMAILS : list string := ["ashwinb@gmail.com"].

Definition isAdminEmail (email : string) : bool :=
  existsb (String.eqb email) ADMIN_EMAILS.

(** What [getUserFromRequest] returns: [{ user, isAdmin, sessionId }]. *)
Record Info : Type := mkInfo {
  user : option UserRow;
  isAdmin : bool;
  sessionId : option Z
}.

Definition anonymous : Info := mkInfo None false None.

(** [DELETE FROM sessions WHERE id = i] *)
Definition delete_session (i : Z) (db : DB) : DB :=
  mkDB (users db) (List.filter (fun s => negb (s_id s =? i)) (sessions db)) (session_seq db).

Section WithHash.

(** [hashToken]: the SHA-256 digest of the token, in hex. *)
Variable hashToken : string -> string.

(** [createSession(userId)]; [token] is what [randomBytes(32)] gave, in
    hex, and [now] is [Date.now()].  The INSERT draws the serial id, then
    meets the primary key, UNIQUE(token_hash) and the foreign key. *)
Definition createSession (token : string) (now : Z) (userId : Z) (db : DB)
  : res (string * Z) :=
  let expiresAt := now + SESSION_DAYS * 24 * 60 * 60 * 1000 in
  let tokenHash := hashToken token in
  let id := session_seq db in
  let db1 := mkDB (users db) (sessions db) (id + 1) in
  if existsb (fun s => (s_id s =? id) || String.eqb (s_token_hash s) tokenHash)
       (sessions db)
  then Raised Store.UniqueViolation db1
  else if negb (existsb (fun u => usr_id u =? userId) (users db))
  then Raised Store.ForeignKeyViolation db1
  else Done (token, expiresAt)
            (mkDB (users db) (sessions db ++ [mkSession id userId tokenHash expiresAt])
                  (id + 1)).

(** [SELECT ... FROM sessions JOIN users ON users.id = sessions.user_id
     WHERE sessions.token_hash = h] *)
Definition session_rows (h : string) (db : DB) : list (SessionRow * UserRow) :=
  flat_map (fun s =>
              if String.eqb (s_token_hash s) h
              then map (fun u => (s, u))
                     (List.filter (fun u => usr_id u =? s_user s) (users db))
              else [])
           (sessions db).

(** [getUserFromRequest(req)]; [cookie] is the value of the session
    cookie, if the request carries one, and [now] is [new Date()]. *)
Definition getUserFromRequest (cookie : option string) (now : Z) (db : DB)
  : Info * DB :=
  match cookie with
  | None => (anonymous, db)
  | Some token =>
      if negb (Js.truthy_string token) then (anonymous, db)
      else
        let tokenHash := hashToken token in
        match session_rows tokenHash db with
        | [] => (anonymous, db)
        | (session, u) :: _ =>
            if s_expires session <? now
            then (anonymous, delete_session (s_id session) db)
            else (mkInfo (Some u) (isAdminEmail (usr_email u)) (Some (s_id session)), db)
        end
  end.

(** [requireUser(req, res)]: the caller, or nothing after a 401. *)
Definition requireUser (cookie : option string) (now : Z) (db : DB)
  : option (UserRow * bool * option Z) * DB :=
  let '(info, db') := getUserFromRequest cookie now db in
  match user info with
  | None => (None, db')
  | Some u => (Some (u, isAdmin info, sessionId info), db')
  end.

(** The handler of [api/auth/logout.js]. *)
Definition logout (method : Method) (cookie : option string) (now : Z) (db : DB)
  : Response * DB :=
  match method with
  | POST =>
      let '(info, db1) := getUserFromRequest cookie now db in
      let db2 :=
        match sessionId info with
        | Some i => if i =? 0 then db1 else delete_session i db1
        | None => db1
        end in
      (mkResponse 200 OkBody, db2)
  | _ => (mkResponse 405 (ErrorBody "Method not allowed"), db)
  end.

(** What the handlers behind [requireUser] are given: the caller's id and
    whether the caller is an admin. *)
Definition caller (cookie : option string) (now : Z) (db : DB)
  : option (Z * bool) :=
  match fst (requireUser cookie now db) with
  | Some (u, admin, _) => Some (usr_id u, admin)
  | None => None
  end.

End WithHash.

(** [sessions.id] is a primary key and [token_hash] is UNIQUE. *)
Definition Wf (db : DB) : Prop :=
  NoDup (map s_id (sessions db)) /\ NoDup (map s_token_hash (sessions db)).

End Auth.

(* ================================================================== *)
(** * [scripts/migrate.js], the text with [--dry-run]

    The repository holds a second, later text of the migration script
    (in the snapshot: [scripts/seed-test-data.js], lines 137-411).  It
    differs from the one embedded in [Migrate] in four places: every write
    is skipped under [--dry-run]; [buckets_name_unique] is dropped before
    the per-user copies are inserted, and the copies are plain INSERTs; the
    global buckets are deleted only after a scan has found no entry that
    still references one, and the script throws otherwise; and without
    users the global buckets are deleted too.  The unique index on
    (user_id, name) is created once more after the migration branch. *)

Module MigrateDryRun.
Import Store Sql MigrationSql.
Local Open Scope sql_scope.

(** [SELECT id, date FROM entries WHERE user_id = u AND bucket_id = b
     ORDER BY date]; the rows are only printed. *)
Definition select_entries_of (u b : Z) : M (list EntryRow) :=
  fun db =>
    Done (merge_sort (fun e e' => IsoDate.leb (e_date e) (e_date e'))
            (List.filter (fun e => (e_user e =? u) && (e_bucket e =? b)) (entries db)))
         db.

(** An entry whose bucket is a row of [buckets] with a NULL [user_id]. *)
Definition references_global (bs : list BucketRow) (e : EntryRow) : bool :=
  existsb (fun b => (b_id b =? e_bucket e) && is_global b) bs.

(** [SELECT e.id, e.user_id, e.bucket_id, b.name AS bucket_name
     FROM entries e JOIN buckets b ON b.id = e.bucket_id
     WHERE b.user_id IS NULL]; only whether it has rows is used. *)
Definition select_orphaned_entries : M (list EntryRow) :=
  need_user_id ;;;
  fun db => Done (List.filter (references_global (buckets db)) (entries db)) db.

Definition ABORT_MESSAGE : string :=
  "Cannot delete global buckets - entries would be lost. Fix manually.".

(** The block under [// SAFETY CHECK: Verify no entries still reference
    global buckets], as it runs without [--dry-run]: the scan, then the
    throw or the DELETE. *)
Definition safety_check : M unit :=
  orphanedEntries <- select_orphaned_entries ;;
  if Migrate.nonempty orphanedEntries
  then raise (JsError ABORT_MESSAGE)
  else delete_global_buckets.

(** [if (!DRY_RUN) { ... }] *)
Definition unless (DRY_RUN : bool) (c : M unit) : M unit :=
  if DRY_RUN then ret tt else c.

(** [migrate()].  As in [Migrate.migrate], the CREATE TABLE IF NOT EXISTS
    statements find the tables of the store and change nothing. *)
Definition migrate (DRY_RUN : bool) : M unit :=
  colCheck <- column_user_id_exists ;;
  (if negb colCheck then
     unless DRY_RUN (add_user_id_column ;;; drop_index_name_unique) ;;;
     (globalBuckets <- select_global_buckets ;;
      allUsers <- select_users ;;
      (if Migrate.nonempty globalBuckets && Migrate.nonempty allUsers then
         for_each allUsers (fun user =>
           for_each globalBuckets (fun bucket =>
             unless DRY_RUN
               (insert_bucket Fail user (b_name bucket) (b_sort bucket) ;;; ret tt))) ;;;
         for_each allUsers (fun user =>
           for_each globalBuckets (fun globalBucket =>
             select_entries_of user (b_id globalBucket) ;;; ret tt)) ;;;
         unless DRY_RUN
           (for_each allUsers (fun user =>
              for_each globalBuckets (fun globalBucket =>
                userBucket <- select_user_bucket user (b_name globalBucket) ;;
                match userBucket with
                | Some ub => relink_entries user (b_id globalBucket) (b_id ub)
                | None => ret tt
                end))) ;;;
         unless DRY_RUN safety_check
       else if Migrate.nonempty globalBuckets then
         unless DRY_RUN delete_global_buckets
       else ret tt) ;;;
      unless DRY_RUN (set_user_id_not_null ;;; create_index_user_name_unique))
   else ret tt) ;;;
  unless DRY_RUN create_index_user_name_unique.

(** [seedDefaultBuckets()] *)
Definition seedDefaultBuckets (DRY_RUN : bool) : M unit :=
  usersWithoutBuckets <- users_without_buckets ;;
  for_each usersWithoutBuckets (fun user =>
    unless DRY_RUN
      (for_each DbLib.DEFAULT_BUCKETS (fun bucket =>
         insert_bucket DoNothingUserName user (fst bucket) (snd bucket) ;;; ret tt))).

(** The script body: [await migrate(); await seedDefaultBuckets()]. *)
Definition script (DRY_RUN : bool) : M unit :=
  migrate DRY_RUN ;;; seedDefaultBuckets DRY_RUN.

(** Two rows of [entries] that are the same check-in, whatever bucket
    they are linked to. *)
Definition same_checkin (e e' : EntryRow) : Prop :=
  e_user e' = e_user e /\ e_date e' = e_date e /\ e_checked e' = e_checked e.

(** A bucket row is still in the table, whatever [user_id] it holds. *)
Definition bucket_kept (bs : list BucketRow) (b : BucketRow) : Prop :=
  exists b', In b' bs /\ b_id b' = b_id b /\ b_name b' = b_name b /\ b_sort b' = b_sort b.

(** A statement that leaves the rows of the three tables as they are,
    however it ends. *)
Definition reads_only {A} (c : M A) : Prop :=
  forall db,
    users (final (c db)) = users db
    /\ buckets (final (c db)) = buckets db
    /\ entries (final (c db)) = entries db.

(** An assertion that looks at the rows of the three tables only. *)
Definition on_rows (P : DB -> Prop) : Prop :=
  forall s s',
    users s' = users s -> buckets s' = buckets s -> entries s' = entries s ->
    P s -> P s'.

(** Every check-in of [db0] is still there, and so is every user. *)
Definition entries_kept (db0 s : DB) : Prop :=
  Forall2 same_checkin (entries db0) (entries s) /\ users s = users db0.

(** No bucket row of [db0] has been deleted. *)
Definition buckets_kept (db0 s : DB) : Prop :=
  forall b, In b (buckets db0) -> bucket_kept (buckets s) b.

(** No global bucket is left. *)
Definition no_global (s : DB) : Prop :=
  forall b, In b (buckets s) -> is_global b = false.

End MigrateDryRun.

(* ================================================================== *)
(** * [api/checkins.js], with the [date] of the body as it arrives

    [Checkins.handler] is given the [date] member as a calendar date.  The
    code never parses it: it tests the JSON value for truthiness, compares
    it with the two bounds by [<] and [>] -- as strings when it is a string
    --, and binds it to the DATE parameter of the INSERT, where Postgres
    reads it.  [CheckinsWire] follows the code on the raw value. *)

Module CheckinsWire.
Import Store Sql Http Js.
Local Open Scope sql_scope.

(** The [date] member as [JSON.parse] gives it.  An array or object is
    carried with the string JavaScript converts it to when it is compared:
    its elements joined by commas, or "[object Object]". *)
Inductive Json : Type :=
| Absent                              (* no such member: [undefined] *)
| Null
| Bool (b : bool)
| Number (num : Z) (den : positive)   (* the number [num / den] *)
| Text (s : string)
| Composite (text : string).

Record Payload : Type := mkPayload {
  bucketId : option Z;            (* absent, or a number *)
  date : Json;
  checked : JsVal
}.

(** [!v] *)
Definition falsy (v : Json) : bool :=
  match v with
  | Absent | Null => true
  | Bool b => negb b
  | Number num _ => num =? 0
  | Text s => negb (truthy_string s)
  | Composite _ => false
  end.

(** [v < bound] and [v > bound] for a string [bound] that is not a numeric
    literal, as the text of a date is.  Two strings are compared code unit
    by code unit; against anything else the bound is converted to a number,
    which gives NaN, and the comparison is false.  ([String.ltb] compares
    the bytes of the two texts, which orders them as their code units do
    whenever one of them is ASCII.) *)
Definition lt (v : Json) (bound : string) : bool :=
  match v with
  | Text s | Composite s => String.ltb s bound
  | _ => false
  end.

Definition gt (v : Json) (bound : string) : bool :=
  match v with
  | Text s | Composite s => String.ltb bound s
  | _ => false
  end.

(** The decimal digit of [n]'s units. *)
Definition digit (n : Z) : ascii := ascii_of_N (Z.to_N (48 + n mod 10)).

(** [String(n).padStart(2, '0')] for [0 <= n < 100] *)
Definition pad2 (n : Z) : string :=
  String (digit (n / 10)) (String (digit n) EmptyString).

(** [d.toISOString().slice(0, 10)] for a year from 0 to 9999. *)
Definition toISODate (d : IsoDate.t) : string :=
  String (digit (IsoDate.year d / 1000)) (String (digit (IsoDate.year d / 100))
    (pad2 (IsoDate.year d)))
  ++ "-" ++ pad2 (IsoDate.month d) ++ "-" ++ pad2 (IsoDate.day d).

(** [!payload?.bucketId || !payload?.date] *)
Definition missing_fields (payload : option Payload) : bool :=
  match payload with
  | None => true
  | Some p => Buckets.falsy_id (bucketId p) || falsy (date p)
  end.

Section WithPostgres.

(** What Postgres makes of the value bound to the DATE parameter: the
    calendar date it reads, or nothing when it rejects the value. *)
Variable pg_date : Json -> option IsoDate.t.

(** The INSERT ... ON CONFLICT of the handler, with [date] bound as it
    came. *)
Definition upsert_entry (u b : Z) (date : Json) (checked : bool) : M unit :=
  match pg_date date with
  | Some d => Sql.upsert_entry u b d checked
  | None => raise InvalidDate
  end.

(** The handler; [today] is what [new Date()] gives when the request is
    served.  Only the POST branch reads the body; the rest is
    [Checkins.handler]. *)
Definition handler (today : IsoDate.t) (auth : option Z) (method : Method)
    (month : option (Z * Z)) (payload : option Payload) : M Response :=
  match method, auth with
  | POST, Some userId =>
      if missing_fields payload
      then sendJson 400 (ErrorBody "bucketId and date required")
      else
        match payload with
        | Some p =>
            let chk := strict_neq_false (checked p) in
            let date := date p in
            let todayDate := toISODate today in
            let earliestDate := toISODate (IsoDate.prevDay (IsoDate.prevDay today)) in
            if lt date earliestDate || gt date todayDate
            then sendJson 400
                   (ErrorBody "Can only edit entries for today and past 2 days")
            else
              upsert_entry userId (default 0 (bucketId p)) date chk ;;;
              sendJson 200 OkBody
        | None => sendJson 400 (ErrorBody "bucketId and date required")
        end
  | _, _ => Checkins.handler today auth method month None
  end.

End WithPostgres.

(** The body [Checkins.handler] stands for: the date, when there is one,
    sent as its ISO text. *)
Definition on_the_wire (p : Checkins.Payload) : Payload :=
  mkPayload (Checkins.bucketId p)
            (match Checkins.date p with
             | Some d => Text (toISODate d)
             | None => Absent
             end)
            (Checkins.checked p).

(** A date the calendar has, in a year [toISOString] writes with four
    digits. *)
Definition four_digit_year (d : IsoDate.t) : bool :=
  (0 <=? IsoDate.year d) && (IsoDate.year d <=? 9999) && IsoDate.validb d.

End CheckinsWire.

(* ================================================================== *)
(** * The endpoints, from the cookie on

    [Buckets.handler], [CheckinsWire.handler] and [Admin.handler] are given
    the caller [requireUser] found.  Here they are put together with it as
    the files have them: the method is looked at first; then [requireUser]
    reads the session cookie -- deleting the session row when it has
    expired -- and answers 401 itself when it finds nobody; then the handler
    goes on with the user it was given.  A request runs on the session store
    and the relational store, and leaves both. *)

Module Endpoint.
Import Http.

Section WithHashAndPostgres.

Variable hashToken : string -> string.
Variable pg_date : CheckinsWire.Json -> option IsoDate.t.

(** [auth.user.id] *)
Definition user_id (auth : option (Auth.UserRow * bool * option Z)) : option Z :=
  match auth with
  | Some (u, _, _) => Some (Auth.usr_id u)
  | None => None
  end.

(** [auth.user.id] and [auth.isAdmin] *)
Definition user_and_admin (auth : option (Auth.UserRow * bool * option Z))
  : option (Z * bool) :=
  match auth with
  | Some (u, isAdmin, _) => Some (Auth.usr_id u, isAdmin)
  | None => None
  end.

(** [api/buckets.js] *)
Definition buckets (cookie : option string) (now : Z) (method : Method)
    (payload : option Buckets.Payload) (sessions : Auth.DB) (db : Store.DB)
  : Auth.DB * Store.res Response :=
  match method with
  | OTHER => (sessions, methodNotAllowed db)
  | _ =>
      let '(auth, sessions') := Auth.requireUser hashToken cookie now sessions in
      (sessions', Buckets.handler (user_id auth) method payload db)
  end.

(** [api/checkins.js]; [now] is the time [requireUser] reads and [today]
    the date the window check reads a moment later. *)
Definition checkins (cookie : option string) (now : Z) (today : IsoDate.t)
    (method : Method) (month : option (Z * Z)) (payload : option CheckinsWire.Payload)
    (sessions : Auth.DB) (db : Store.DB)
  : Auth.DB * Store.res Response :=
  match method with
  | GET | POST =>
      let '(auth, sessions') := Auth.requireUser hashToken cookie now sessions in
      (sessions', CheckinsWire.handler pg_date today (user_id auth) method month payload db)
  | _ => (sessions, methodNotAllowed db)
  end.

(** [api/admin/reset.js] *)
Definition reset (cookie : option string) (now : Z) (method : Method)
    (sessions : Auth.DB) (db : Store.DB)
  : Auth.DB * Store.res Response :=
  match method with
  | POST =>
      let '(auth, sessions') := Auth.requireUser hashToken cookie now sessions in
      (sessions', Admin.handler (user_and_admin auth) method db)
  | _ => (sessions, methodNotAllowed db)
  end.

(** What [requireUser] did to the session store before it answered 401:
    it deleted the session the cookie names, which had expired. *)
Definition expired_session_deleted (cookie : option string) (now : Z)
    (sessions sessions' : Auth.DB) : Prop :=
  exists token s u rest,
    cookie = Some token
    /\ Auth.session_rows (hashToken token) sessions = (s, u) :: rest
    /\ Auth.s_expires s < now
    /\ sessions' = Auth.delete_session (Auth.s_id s) sessions.

End WithHashAndPostgres.

End Endpoint.

(* ================================================================== *)
(** * Facts about dates *)

Section DateFacts.
Import IsoDate.

Lemma date_eqb_eq (a b : IsoDate.t) : IsoDate.eqb a b = true <-> a = b.
Proof.
  destruct a as [ya ma da], b as [yb mb db]. unfold IsoDate.eqb. simpl.
  rewrite !andb_true_iff, !Z.eqb_eq. split.
  - intros [[-> ->] ->]. reflexivity.
  - intros H. injection H as -> -> ->. auto.
Qed.

Lemma date_eqb_refl (a : IsoDate.t) : IsoDate.eqb a a = true.
Proof. apply date_eqb_eq. reflexivity. Qed.

Lemma date_ltb_rank (a b : IsoDate.t) :
  1 <= month a <= 12 -> 1 <= day a <= 31 ->
  1 <= month b <= 12 -> 1 <= day b <= 31 ->
  IsoDate.ltb a b = true <-> rank a < rank b.
Proof.
  destruct a as [ya ma da], b as [yb mb db]. unfold IsoDate.ltb, rank. simpl.
  intros Hma Hda Hmb Hdb.
  rewrite !orb_true_iff, !andb_true_iff, !orb_true_iff, !andb_true_iff.
  rewrite !Z.ltb_lt, !Z.eqb_eq. split.
  - intros [H | [-> [H | [-> H]]]]; nia.
  - intros H.
    destruct (Z.lt_trichotomy ya yb) as [Hy | [-> | Hy]]; [auto | | nia].
    right. split; [reflexivity |].
    destruct (Z.lt_trichotomy ma mb) as [Hm | [-> | Hm]]; [auto | | nia].
    right. split; [reflexivity | lia].
Qed.

Lemma daysInMonth_bounds (y m : Z) : 28 <= daysInMonth y m <= 31.
Proof.
  unfold daysInMonth.
  repeat match goal with |- context [if ?c then _ else _] => destruct c end; lia.
Qed.

Lemma validb_spec (d : IsoDate.t) :
  validb d = true <->
  1 <= month d <= 12 /\ 1 <= day d <= daysInMonth (year d) (month d).
Proof.
  unfold validb. rewrite !andb_true_iff, !Z.leb_le. tauto.
Qed.

Lemma prevDay_valid (d : IsoDate.t) : validb d = true -> validb (prevDay d) = true.
Proof.
  rewrite !validb_spec. intros [Hm Hd]. unfold prevDay.
  destruct (Z.ltb_spec 1 (day d)); simpl.
  - lia.
  - destruct (Z.ltb_spec 1 (month d)); simpl.
    + pose proof (daysInMonth_bounds (year d) (month d - 1)). lia.
    + unfold daysInMonth. simpl. lia.
Qed.

Lemma prevDay_rank (d : IsoDate.t) :
  validb d = true -> rank (prevDay d) < rank d.
Proof.
  rewrite validb_spec. intros [Hm Hd]. unfold prevDay, rank.
  destruct (Z.ltb_spec 1 (day d)); simpl.
  - lia.
  - destruct (Z.ltb_spec 1 (month d)); simpl.
    + pose proof (daysInMonth_bounds (year d) (month d - 1)). lia.
    + lia.
Qed.

End DateFacts.

(* ================================================================== *)
(** * The entry ledger: [POST /api/checkins] *)

Section CheckinsFacts.
Import Store Sql Http Js.

(** The POST branch on a payload that carries both fields. *)
Lemma checkins_post_unfold today u month b d c db :
  b <> 0 ->
  Checkins.handler today (Some u) POST month
    (Some (Checkins.mkPayload (Some b) (Some d) c)) db
  = if IsoDate.ltb d (IsoDate.prevDay (IsoDate.prevDay today)) || IsoDate.ltb today d
    then Done (mkResponse 400 (ErrorBody "Can only edit entries for today and past 2 days")) db
    else match upsert_entry u b d (strict_neq_false c) db with
         | Done _ db' => Done (mkResponse 200 OkBody) db'
         | Raised e db' => Raised e db'
         end.
Proof.
  intros Hb. unfold Checkins.handler, Checkins.missing_fields. cbn [Checkins.bucketId Checkins.date].
  apply Z.eqb_neq in Hb. rewrite Hb.
  destruct (IsoDate.ltb d _ || IsoDate.ltb today d); [reflexivity |].
  unfold bind, sendJson, ret. destruct (upsert_entry u b d _ db); reflexivity.
Qed.

(** What a successful upsert leaves in [entries]. *)
Lemma upsert_entry_done u b d chk db db' :
  upsert_entry u b d chk db = Done tt db' ->
  buckets db' = buckets db
  /\ (exists e, In e (entries db') /\ same_slot u b d e = true)
  /\ (forall e, In e (entries db') -> same_slot u b d e = true -> e_checked e = chk)
  /\ (forall e, In e (entries db') -> same_slot u b d e = false -> In e (entries db)).
Proof.
  unfold upsert_entry. destruct (negb (IsoDate.validb d)); [discriminate |].
  destruct (existsb (same_slot u b d) (entries db)) eqn:Hex.
  - intros [= <-]. cbn. split; [reflexivity |].
    apply existsb_exists in Hex as (e0 & Hin & Hs). repeat split.
    + exists (mkEntry (e_user e0) (e_bucket e0) (e_date e0) chk). split.
      * apply in_map_iff. exists e0. rewrite Hs. auto.
      * exact Hs.
    + intros e He Hse. apply in_map_iff in He as (e1 & <- & _).
      destruct (same_slot u b d e1) eqn:H1; [reflexivity | congruence].
    + intros e He Hse. apply in_map_iff in He as (e1 & <- & Hin1).
      destruct (same_slot u b d e1) eqn:H1; [| exact Hin1].
      unfold same_slot in Hse, H1. cbn in Hse. congruence.
  - destruct (negb (existsb (Z.eqb u) (users db)) || _); [discriminate |].
    intros [= <-]. cbn. split; [reflexivity |]. repeat split.
    + exists (mkEntry u b d chk). split; [apply in_or_app; right; left; reflexivity |].
      unfold same_slot. cbn. rewrite !Z.eqb_refl, date_eqb_refl. reflexivity.
    + intros e He Hse. apply in_app_or in He as [He | [<- | []]]; [| reflexivity].
      assert (existsb (same_slot u b d) (entries db) = true)
        by (apply existsb_exists; eauto).
      congruence.
    + intros e He Hse. apply in_app_or in He as [He | [<- | []]]; [exact He |].
      unfold same_slot in Hse. cbn in Hse.
      rewrite !Z.eqb_refl, date_eqb_refl in Hse. discriminate.
Qed.

(** C10.  For every accepted entry-ledger upsert, the row stored for
    (user, bucket, date) has [checked = true] unless the payload's
    [checked] field is exactly the boolean [false]: an absent, null,
    numeric or string value (the string "false" included) stores [true],
    and only the literal [false] stores [false]. *)
Theorem checked_flag_coercion today u month p db db' :
  Checkins.handler today (Some u) POST month (Some p) db
    = Done (mkResponse 200 OkBody) db' ->
  exists b d,
    Checkins.bucketId p = Some b /\ Checkins.date p = Some d
    /\ (exists e, In e (entries db') /\ same_slot u b d e = true)
    /\ (forall e, In e (entries db') -> same_slot u b d e = true ->
          (e_checked e = false <-> Checkins.checked p = JBool false)
          /\ (Checkins.checked p = JUndefined \/ Checkins.checked p = JNull
              \/ (exists n k, Checkins.checked p = JNum n k)
              \/ (exists s, Checkins.checked p = JStr s)
              \/ Checkins.checked p = JBool true ->
              e_checked e = true)).
Proof.
  destruct p as [[b|] [d|] c]; try (cbn; discriminate).
  destruct (Z.eq_dec b 0) as [-> | Hb]; [cbn; discriminate |].
  rewrite checkins_post_unfold by exact Hb.
  destruct (IsoDate.ltb d _ || IsoDate.ltb today d); [discriminate |].
  destruct (upsert_entry u b d (strict_neq_false c) db) as [[] db1 | e db1] eqn:Hup;
    [| discriminate].
  intros [= <-]. apply upsert_entry_done in Hup as (_ & Hex & Hall & _).
  exists b, d. cbn [Checkins.bucketId Checkins.date Checkins.checked].
  repeat split; auto.
  - intros He. rewrite (Hall e) in He by assumption.
    destruct c as [| | [|] | | |]; cbn in He; congruence.
  - intros ->. rewrite (Hall e) by assumption. reflexivity.
  - intros Hc. rewrite (Hall e) by assumption.
    destruct Hc as [-> | [-> | [(n & k & ->) | [(s & ->) | ->]]]]; reflexivity.
Qed.

(** Inside the window, for a known user and an existing bucket -- whoever
    owns it -- the upsert is accepted and its row is there afterwards. *)
Lemma upsert_in_window_accepted today u month b d c db :
  b <> 0 ->
  IsoDate.ltb d (IsoDate.prevDay (IsoDate.prevDay today)) = false ->
  IsoDate.ltb today d = false ->
  IsoDate.validb d = true ->
  In u (users db) -> (exists r, In r (buckets db) /\ b_id r = b) ->
  exists db',
    Checkins.handler today (Some u) POST month
      (Some (Checkins.mkPayload (Some b) (Some d) c)) db
    = Done (mkResponse 200 OkBody) db'
    /\ exists e, In e (entries db') /\ same_slot u b d e = true
                 /\ e_checked e = strict_neq_false c.
Proof.
  intros Hb H1 H2 Hv Hu (r & Hr & Hrb).
  rewrite checkins_post_unfold by exact Hb. rewrite H1, H2. cbn [orb].
  destruct (upsert_entry u b d (strict_neq_false c) db) as [[] db1 | e db1] eqn:Hup.
  - exists db1. split; [reflexivity |].
    apply upsert_entry_done in Hup as (_ & (e & He & Hs) & Hall & _).
    exists e. auto.
  - exfalso. revert Hup. unfold upsert_entry. rewrite Hv. cbn [negb].
    destruct (existsb (same_slot u b d) (entries db)); [discriminate |].
    assert (Hu' : existsb (Z.eqb u) (users db) = true).
    { apply existsb_exists. exists u. split; [exact Hu | apply Z.eqb_refl]. }
    assert (Hb' : existsb (fun r => b_id r =? b) (buckets db) = true).
    { apply existsb_exists. exists r. split; [exact Hr | apply Z.eqb_eq, Hrb]. }
    rewrite Hu', Hb'. discriminate.
Qed.

(** On a request whose [date] is the ISO text of a calendar date, the
    window holds: an upsert whose date is earlier than two days before the
    server's current date, or later than it, is answered 400 with the
    out-of-range message and leaves the store as it was; a date inside the
    window, for an existing user and bucket, is accepted and its row
    written.  The window is computed from the [today] of the call.  With
    today = 2024-04-15 the window starts on 2024-04-13: 2024-04-12 is
    refused and 2024-04-13 accepted.  (What the code does with a [date]
    that is not such a text is the matter of [CheckinsWire].) *)
Theorem upsert_date_window today u month b d c db :
  b <> 0 ->
  let request t dt :=
    Checkins.handler t (Some u) POST month
      (Some (Checkins.mkPayload (Some b) (Some dt) c)) in
  let rejected := mkResponse 400
      (ErrorBody "Can only edit entries for today and past 2 days") in
  (IsoDate.ltb d (IsoDate.prevDay (IsoDate.prevDay today)) = true
   \/ IsoDate.ltb today d = true ->
   request today d db = Done rejected db)
  /\ (IsoDate.ltb d (IsoDate.prevDay (IsoDate.prevDay today)) = false ->
      IsoDate.ltb today d = false ->
      IsoDate.validb d = true ->
      In u (users db) -> (exists r, In r (buckets db) /\ b_id r = b) ->
      exists db', request today d db = Done (mkResponse 200 OkBody) db'
                  /\ exists e, In e (entries db') /\ same_slot u b d e = true)
  /\ IsoDate.prevDay (IsoDate.prevDay (IsoDate.mk 2024 4 15)) = IsoDate.mk 2024 4 13
  /\ request (IsoDate.mk 2024 4 15) (IsoDate.mk 2024 4 12) db = Done rejected db
  /\ (In u (users db) -> (exists r, In r (buckets db) /\ b_id r = b) ->
      exists db', request (IsoDate.mk 2024 4 15) (IsoDate.mk 2024 4 13) db
                    = Done (mkResponse 200 OkBody) db'
                  /\ exists e, In e (entries db')
                               /\ same_slot u b (IsoDate.mk 2024 4 13) e = true).
Proof.
  intros Hb request rejected.
  assert (Hout : forall t dt,
             IsoDate.ltb dt (IsoDate.prevDay (IsoDate.prevDay t)) = true
             \/ IsoDate.ltb t dt = true ->
             request t dt db = Done rejected db).
  { intros t dt Hw. unfold request. rewrite checkins_post_unfold by exact Hb.
    replace (IsoDate.ltb dt _ || IsoDate.ltb t dt) with true; [reflexivity |].
    symmetry. apply orb_true_iff. exact Hw. }
  assert (Hin : forall t dt,
             IsoDate.ltb dt (IsoDate.prevDay (IsoDate.prevDay t)) = false ->
             IsoDate.ltb t dt = false ->
             IsoDate.validb dt = true ->
             In u (users db) -> (exists r, In r (buckets db) /\ b_id r = b) ->
             exists db', request t dt db = Done (mkResponse 200 OkBody) db'
                  /\ exists e, In e (entries db') /\ same_slot u b dt e = true).
  { intros t dt H1 H2 Hv Hu Hr. unfold request.
    destruct (upsert_in_window_accepted t u month b dt c db Hb H1 H2 Hv Hu Hr)
      as (db' & Hrun & e & He & Hs & _).
    eauto. }
  split; [apply Hout |]. split; [apply Hin |]. split; [reflexivity |].
  split; [apply Hout; left; reflexivity |].
  apply Hin; reflexivity.
Qed.

Lemma upsert_date_window_witness :
  let db := mkDB [1] [mkBucket 3 (Some 1) "Run" 1] [] 4 true true false true in
  Checkins.handler (IsoDate.mk 2024 4 15) (Some 1) POST None
    (Some (Checkins.mkPayload (Some 3) (Some (IsoDate.mk 2024 4 12)) JUndefined)) db
  = Done (mkResponse 400
            (ErrorBody "Can only edit entries for today and past 2 days")) db.
Proof.
  intros db.
  assert (Hb : 3 <> 0) by lia.
  destruct (upsert_date_window (IsoDate.mk 2024 4 15) 1 None 3 (IsoDate.mk 2024 4 12)
              JUndefined db Hb) as [Hout _].
  apply Hout. left. reflexivity.
Defined.

Lemma checked_flag_coercion_witness :
  let db := mkDB [1] [mkBucket 3 (Some 1) "Run" 1] [] 4 true true false true in
  let d := IsoDate.mk 2024 4 14 in
  exists b' d',
    Some 3 = Some b' /\ Some d = Some d'
    /\ (exists e, In e [mkEntry 1 3 d true] /\ same_slot 1 b' d' e = true)
    /\ (forall e, In e [mkEntry 1 3 d true] -> same_slot 1 b' d' e = true ->
          (e_checked e = false <-> JStr "false" = JBool false)
          /\ (JStr "false" = JUndefined \/ JStr "false" = JNull
              \/ (exists n k, JStr "false" = JNum n k)
              \/ (exists s, JStr "false" = JStr s)
              \/ JStr "false" = JBool true ->
              e_checked e = true)).
Proof.
  intros db d.
  apply (checked_flag_coercion (IsoDate.mk 2024 4 15) 1 None
           (Checkins.mkPayload (Some 3) (Some d) (JStr "false")) db
           (with_entries [mkEntry 1 3 d true] db)).
  reflexivity.
Defined.

(** C1 (the code departs from the claim).  A signed-in user who posts a
    check-in for a bucket owned by someone else is answered 200 and the
    row is written, under the caller's id: the handler never compares the
    bucket's owner with the caller.  This holds for every store, caller,
    existing bucket and date in the window; for instance for user 1 and
    bucket 7 of user 2. *)
Example upsert_accepts_foreign_bucket :
  (forall today u owner month b d c db,
      b <> 0 -> owner <> u ->
      (exists r, In r (buckets db) /\ b_id r = b /\ b_user r = Some owner) ->
      In u (users db) ->
      IsoDate.validb d = true ->
      IsoDate.ltb d (IsoDate.prevDay (IsoDate.prevDay today)) = false ->
      IsoDate.ltb today d = false ->
      exists db',
        Checkins.handler today (Some u) POST month
          (Some (Checkins.mkPayload (Some b) (Some d) c)) db
        = Done (mkResponse 200 OkBody) db'
        /\ exists e, In e (entries db') /\ e_user e = u /\ e_bucket e = b
                     /\ e_date e = d)
  /\ (let db := mkDB [1; 2] [mkBucket 7 (Some 2) "Run" 1] [] 8 true true false true in
      let today := IsoDate.mk 2024 4 15 in
      existsb (fun r => (b_id r =? 7) && owned_by 1 r) (buckets db) = false
      /\ Checkins.handler today (Some 1) POST None
           (Some (Checkins.mkPayload (Some 7) (Some today) (JBool true))) db
         = Done (mkResponse 200 OkBody) (with_entries [mkEntry 1 7 today true] db)).
Proof.
  split.
  - intros today u owner month b d c db Hb _ (r & Hr & Hrb & _) Hu Hv H1 H2.
    destruct (upsert_in_window_accepted today u month b d c db Hb H1 H2 Hv Hu)
      as (db' & Hrun & e & He & Hs & _); [eauto |].
    exists db'. split; [exact Hrun |]. exists e. split; [exact He |].
    unfold same_slot in Hs. apply andb_true_iff in Hs as [Hs Hd].
    apply andb_true_iff in Hs as [Hue Hbe].
    apply Z.eqb_eq in Hue, Hbe. apply date_eqb_eq in Hd. auto.
  - split; reflexivity.
Qed.

End CheckinsFacts.

(* ================================================================== *)
(** * Reasoning about computations over the store *)

(** Projections of a store built with the [with_] setters. *)
Ltac proj_db :=
  cbn [Store.users Store.buckets Store.entries Store.bucket_seq Store.col_user_id
       Store.user_id_not_null Store.idx_name_unique Store.idx_user_name_unique
       Store.with_buckets Store.with_entries Store.with_seq Store.with_col_user_id
       Store.with_not_null Store.with_idx_name Store.with_idx_user_name Store.final] in *.

Section StoreFacts.
Import Store.

Lemma hoare_ret {A} (P : DB -> Prop) (a : A) (Q : A -> DB -> Prop) E :
  (forall db, P db -> Q a db) -> hoare P (ret a) Q E.
Proof. intros H db HP. cbn. auto. Qed.

Lemma hoare_bind {A B} (P : DB -> Prop) (c : M A) (Q : A -> DB -> Prop)
      (k : A -> M B) (R : B -> DB -> Prop) E :
  hoare P c Q E -> (forall a, hoare (Q a) (k a) R E) -> hoare P (bind c k) R E.
Proof.
  intros Hc Hk db HP. unfold bind. specialize (Hc db HP).
  destruct (c db) as [a db' | e db']; [apply (Hk a db' Hc) | exact Hc].
Qed.

Lemma hoare_weaken {A} (P P' : DB -> Prop) (c : M A) (Q Q' : A -> DB -> Prop)
      (E E' : DB -> Prop) :
  hoare P' c Q' E' ->
  (forall db, P db -> P' db) -> (forall a db, Q' a db -> Q a db) ->
  (forall db, E' db -> E db) ->
  hoare P c Q E.
Proof.
  intros H HP HQ HE db Hdb. specialize (H db (HP db Hdb)).
  destruct (c db); auto.
Qed.

Lemma hoare_if {A} (b : bool) (P : DB -> Prop) (c1 c2 : M A) Q E :
  (b = true -> hoare P c1 Q E) -> (b = false -> hoare P c2 Q E) ->
  hoare P (if b then c1 else c2) Q E.
Proof. intros H1 H2. destruct b; [apply H1 | apply H2]; reflexivity. Qed.

Lemma hoare_for_each {X} (P E : DB -> Prop) (xs : list X) (body : X -> M unit) :
  (forall x, In x xs -> hoare P (body x) (fun _ => P) E) ->
  hoare P (for_each xs body) (fun _ => P) E.
Proof.
  induction xs as [| x xs IH]; intros Hbody.
  - apply hoare_ret. auto.
  - cbn [for_each]. eapply hoare_bind.
    + apply Hbody. left. reflexivity.
    + intros ?. apply IH. intros y Hy. apply Hbody. right. exact Hy.
Qed.

(** A triple with one assertion for both exits speaks about [final]. *)
Lemma hoare_final {A} (P R : DB -> Prop) (c : M A) :
  hoare P c (fun _ => R) R -> forall db, P db -> R (final (c db)).
Proof. intros H db HP. specialize (H db HP). destruct (c db); exact H. Qed.

Lemma final_hoare {A} (P R : DB -> Prop) (c : M A) :
  (forall db, P db -> R (final (c db))) -> hoare P c (fun _ => R) R.
Proof. intros H db HP. specialize (H db HP). destruct (c db); exact H. Qed.

End StoreFacts.

(* ================================================================== *)
(** * The bucket registry: [/api/buckets] *)

Section BucketsFacts.
Import Store Sql Http Js.

Ltac settle_response :=
  cbn; repeat split; auto; intros;
  repeat match goal with
         | H : Done _ _ = Done _ _ |- _ => injection H as <- <-
         | H : Raised _ _ = Done _ _ |- _ => discriminate H
         end;
  unfold sendJson, methodNotAllowed, unauthorized, ret, raise in *;
  repeat match goal with
         | H : Done _ _ = Done _ _ |- _ => injection H as <- <-
         | H : Raised _ _ = Done _ _ |- _ => discriminate H
         end;
  cbn in *; try discriminate; try lia.

Lemma need_user_id_cases db :
  (col_user_id db = true /\ need_user_id db = Done tt db)
  \/ (col_user_id db = false /\ need_user_id db = Raised UndefinedColumn db).
Proof. unfold need_user_id. destruct (col_user_id db); auto. Qed.

(** The rows an UPDATE of name and sort position rewrites keep their id and
    owner, and their position too when no position is given. *)
Lemma update_bucket_frame i u n db :
  let r := update_bucket i u n None db in
  Forall2 (fun b b' => b_id b' = b_id b /\ b_user b' = b_user b /\ b_sort b' = b_sort b)
          (buckets db) (buckets (final r))
  /\ entries (final r) = entries db.
Proof.
  assert (Hrefl : forall l : list BucketRow,
             Forall2 (fun b b' => b_id b' = b_id b /\ b_user b' = b_user b
                                  /\ b_sort b' = b_sort b) l l).
  { induction l; constructor; auto. }
  unfold update_bucket, bind.
  destruct (need_user_id_cases db) as [[_ ->] | [_ ->]]; cbn; [| auto].
  match goal with |- context [if ?c then _ else _] => destruct c end; cbn; [auto |].
  split; [| reflexivity].
  induction (buckets db) as [| b l IH]; cbn; constructor; [| exact IH].
  destruct ((b_id b =? i) && owned_by u b); cbn; auto.
Qed.

(** Rows an accepted UPDATE hits carry the new name. *)
Lemma update_bucket_renames i u s so row db db' :
  update_bucket i u (Some s) so db = Done row db' ->
  forall b', In b' (buckets db') -> b_id b' = i -> b_user b' = Some u -> b_name b' = s.
Proof.
  unfold update_bucket, bind.
  destruct (need_user_id_cases db) as [[_ ->] | [_ ->]]; cbn; [| discriminate].
  destruct (negb (int4 (default 0 so))); [discriminate |].
  match goal with |- context [if ?c then _ else _] => destruct c end; [discriminate |].
  intros [= _ <-] b' Hin Hid Hu. cbn in Hin.
  apply in_map_iff in Hin as (b & Hb & _).
  destruct ((b_id b =? i) && owned_by u b) eqn:Hhit.
  - subst b'. reflexivity.
  - subst b'. exfalso. apply andb_false_iff in Hhit as [H | H].
    + apply Z.eqb_neq in H. auto.
    + unfold owned_by in H. rewrite Hu, Z.eqb_refl in H. discriminate.
Qed.

(** C9.  A PUT that supplies no sort position leaves every bucket's sort
    position (and id and owner) as it was, whatever the outcome, and
    touches no entry; when it is answered 200 and carries a non-blank name,
    the caller's bucket with that id bears the trimmed name: only the name
    changes. *)
Theorem rename_keeps_sort_position u p i db :
  Buckets.id p = Some i ->
  (exists b, In b (buckets db) /\ b_id b = i /\ b_user b = Some u) ->
  Buckets.sortOrder p = JUndefined ->
  let r := Buckets.handler (Some u) PUT (Some p) db in
  Forall2 (fun b b' => b_id b' = b_id b /\ b_user b' = b_user b /\ b_sort b' = b_sort b)
          (buckets db) (buckets (final r))
  /\ entries (final r) = entries db
  /\ (forall s resp db',
        Buckets.name p = JStr s -> trim s <> "" ->
        r = Done resp db' -> status resp = 200 ->
        forall b', In b' (buckets db') -> b_id b' = i -> b_user b' = Some u ->
                   b_name b' = trim s).
Proof.
  intros Hid _ Hso r.
  assert (Hrefl : Forall2 (fun b b' => b_id b' = b_id b /\ b_user b' = b_user b
                                       /\ b_sort b' = b_sort b) (buckets db) (buckets db)).
  { induction (buckets db); constructor; auto. }
  subst r. unfold Buckets.handler. rewrite Hid, Hso.
  cbn [Buckets.falsy_id Number_isInteger]. change (default 0 (Some i)) with i.
  destruct (i =? 0); [settle_response |].
  unfold owner_check, bind; cbn beta.
  destruct (need_user_id_cases db) as [[_ ->] | [_ ->]]; cbn beta iota;
    [| settle_response].
  destruct (existsb _ (buckets db)); cbn [negb]; [| settle_response].
  destruct (Buckets.name p) as [| | b0 | n0 d0 | s0 |] eqn:Hname;
    cbn [Buckets.optional_trim]; unfold ret, raise; cbn beta iota;
    try solve [settle_response].
  - (* name undefined *)
    cbn [Buckets.or_null].
    pose proof (update_bucket_frame i u None db) as [HF HE].
    destruct (update_bucket i u None None db); settle_response.
  - (* name null *)
    cbn [Buckets.or_null].
    pose proof (update_bucket_frame i u None db) as [HF HE].
    destruct (update_bucket i u None None db); settle_response.
  - (* a string *)
    pose proof (update_bucket_frame i u (Buckets.or_null (Some (trim s0))) db) as [HF HE].
    destruct (update_bucket i u (Buckets.or_null (Some (trim s0))) None db)
      as [row db1 | e db1] eqn:Hup; cbn [final] in *;
      (split; [exact HF | split; [exact HE |]]); [| intros; discriminate].
    intros s resp db' [= <-] Hne [= <- <-] _ b' Hin Hb' Hu.
    unfold Buckets.or_null in Hup.
    destruct (truthy_string (trim s0)) eqn:Ht.
    + eapply update_bucket_renames; eauto.
    + destruct (trim s0); [congruence | discriminate].
Qed.

Lemma rename_keeps_sort_position_witness :
  let db := mkDB [1] [mkBucket 3 (Some 1) "Run" 4; mkBucket 5 (Some 1) "Swim" 2] []
                 6 true true false true in
  let p := Buckets.mkPayload (Some 3) (JStr " Row ") JUndefined in
  Forall2 (fun b b' => b_id b' = b_id b /\ b_user b' = b_user b /\ b_sort b' = b_sort b)
          (buckets db) (buckets (final (Buckets.handler (Some 1) PUT (Some p) db))).
Proof.
  intros db p.
  assert (Hown : exists b, In b (buckets db) /\ b_id b = 3 /\ b_user b = Some 1).
  { exists (mkBucket 3 (Some 1) "Run" 4). simpl. auto. }
  exact (proj1 (rename_keeps_sort_position 1 p 3 db eq_refl Hown eq_refl)).
Defined.


(** ** Inserting a bucket *)

Lemma insert_bucket_cases mode u nm sort db :
  let r := insert_bucket mode u nm sort db in
  let row := mkBucket (bucket_seq db) (Some u) nm sort in
  Registry.same_schema db (final r)
  /\ entries (final r) = entries db
  /\ ((buckets (final r) = buckets db
       /\ (forall row' db', r = Done (Some row') db' -> False))
      \/ (buckets (final r) = (buckets db ++ [row])%list
          /\ user_name_taken u nm db = false
          /\ r = Done (Some row)
                   (with_buckets (buckets db ++ [row]) (with_seq (bucket_seq db + 1) db)))).
Proof.
  unfold insert_bucket, bind, Registry.same_schema.
  destruct (need_user_id_cases db) as [[_ ->] | [_ ->]]; cbn beta iota;
    [| cbn; intuition discriminate].
  destruct (negb (int4 sort)); [cbn; intuition discriminate |].
  destruct mode, (idx_user_name_unique db) eqn:Hidx;
    try solve [cbn; rewrite ?Hidx; intuition discriminate];
    destruct (user_name_taken u nm db) eqn:Htaken; cbn [orb];
    try solve [cbn; rewrite ?Hidx; intuition discriminate];
    destruct (pk_taken (bucket_seq db) db || name_taken nm db); cbn [orb];
    try solve [cbn; rewrite ?Hidx; intuition discriminate];
    destruct (negb (existsb (Z.eqb u) (users db)));
    try solve [cbn; rewrite ?Hidx; intuition discriminate];
    cbn; rewrite ?Hidx; right; auto.
Qed.

Lemma owned_by_eq u b : owned_by u b = true <-> b_user b = Some u.
Proof.
  unfold owned_by. destruct (b_user b) as [v |]; [| split; discriminate].
  rewrite Z.eqb_eq. split; congruence.
Qed.

Lemma count_app u bs bs' :
  Registry.count u (bs ++ bs')%list = (Registry.count u bs + Registry.count u bs')%nat.
Proof. unfold Registry.count. rewrite List.filter_app, length_app. reflexivity. Qed.

Lemma user_name_keys_app bs bs' :
  user_name_keys (bs ++ bs')%list = (user_name_keys bs ++ user_name_keys bs')%list.
Proof. unfold user_name_keys. apply omap_app. Qed.

Lemma user_name_key_in u nm bs :
  In (u, nm) (user_name_keys bs) <->
  exists b, In b bs /\ b_user b = Some u /\ b_name b = nm.
Proof.
  unfold user_name_keys. rewrite <- list_elem_of_In, list_elem_of_omap. split.
  - intros (b & Hb & Hk). exists b. rewrite <- list_elem_of_In. split; [exact Hb |].
    unfold user_name_key in Hk. destruct (b_user b); inversion Hk; auto.
  - intros (b & Hb & Hu & Hn). exists b. rewrite list_elem_of_In. split; [exact Hb |].
    unfold user_name_key. rewrite Hu, Hn. reflexivity.
Qed.

Lemma user_name_free u nm db :
  idx_user_name_unique db = true ->
  user_name_taken u nm db = false ->
  ~ In (u, nm) (user_name_keys (buckets db)).
Proof.
  unfold user_name_taken. intros -> Hfree. cbn [andb] in Hfree.
  rewrite user_name_key_in. intros (b & Hb & Hu & Hn).
  assert (existsb (fun b => owned_by u b && String.eqb (b_name b) nm) (buckets db) = true);
    [| congruence].
  apply existsb_exists. exists b. split; [exact Hb |].
  apply andb_true_iff. split; [apply owned_by_eq, Hu | apply String.eqb_eq, Hn].
Qed.

Lemma keys_nodup_snoc u nm sort i bs :
  NoDup (user_name_keys bs) -> ~ In (u, nm) (user_name_keys bs) ->
  NoDup (user_name_keys (bs ++ [mkBucket i (Some u) nm sort])).
Proof.
  intros Hnd Hfree. rewrite user_name_keys_app. cbn.
  apply NoDup_app. repeat split; [exact Hnd | | apply NoDup_singleton].
  intros k Hk Hk'. apply list_elem_of_In in Hk, Hk'. destruct Hk' as [<- | []]. auto.
Qed.

Lemma count_snoc u' u nm sort i bs :
  Registry.count u' (bs ++ [mkBucket i (Some u) nm sort])
  = (Registry.count u' bs + (if (u =? u')%Z then 1 else 0))%nat.
Proof.
  rewrite count_app. f_equal. unfold Registry.count, owned_by. cbn.
  destruct (u =? u'); reflexivity.
Qed.

(** ** Each statement and the registry invariant *)

Lemma need_user_id_hoare (P E : DB -> Prop) :
  (forall db, P db -> E db) ->
  hoare P need_user_id (fun _ db => P db /\ col_user_id db = true) E.
Proof.
  intros HE db HP. destruct (need_user_id_cases db) as [[Hc ->] | [_ ->]]; auto.
Qed.

Lemma count_buckets_hoare u (P E : DB -> Prop) :
  (forall db, P db -> E db) ->
  hoare P (count_buckets u)
        (fun n db => P db /\ n = Z.of_nat (Registry.count u (buckets db))) E.
Proof.
  intros HE. unfold count_buckets. eapply hoare_bind; [apply need_user_id_hoare, HE |].
  intros ? db [HP ?]. cbn. auto.
Qed.

Lemma max_sort_order_hoare u (P E : DB -> Prop) :
  (forall db, P db -> E db) ->
  hoare P (max_sort_order u) (fun _ db => P db) E.
Proof.
  intros HE. unfold max_sort_order. eapply hoare_bind; [apply need_user_id_hoare, HE |].
  intros ? db [HP ?]. cbn. auto.
Qed.

Lemma owner_check_hoare i u (P E : DB -> Prop) :
  (forall db, P db -> E db) ->
  hoare P (owner_check i u) (fun _ db => P db) E.
Proof.
  intros HE. unfold owner_check. eapply hoare_bind; [apply need_user_id_hoare, HE |].
  intros ? db [HP ?]. cbn. auto.
Qed.

Lemma has_bucket_hoare u (P E : DB -> Prop) :
  (forall db, P db -> E db) ->
  hoare P (has_bucket u)
        (fun b db => P db /\ b = existsb (owned_by u) (buckets db)) E.
Proof.
  intros HE. unfold has_bucket. eapply hoare_bind; [apply need_user_id_hoare, HE |].
  intros ? db [HP ?]. cbn. auto.
Qed.

Lemma optional_trim_hoare v (P E : DB -> Prop) :
  (forall db, P db -> E db) ->
  hoare P (Buckets.optional_trim v) (fun _ db => P db) E.
Proof. intros HE. destruct v; intros db HP; cbn; auto. Qed.

Lemma sendJson_hoare st b (P : DB -> Prop) (Q : Response -> DB -> Prop) E :
  (forall db, P db -> Q (mkResponse st b) db) -> hoare P (sendJson st b) Q E.
Proof. intros H db HP. cbn. auto. Qed.

(** An insert for [u] keeps names unique per user and adds at most one
    bucket, to [u] only. *)
Lemma insert_bucket_keeps mode u nm sort db :
  idx_user_name_unique db = true ->
  NoDup (user_name_keys (buckets db)) ->
  let db' := final (insert_bucket mode u nm sort db) in
  Registry.same_schema db db'
  /\ NoDup (user_name_keys (buckets db'))
  /\ (forall u', (Registry.count u' (buckets db')
                  <= Registry.count u' (buckets db) + (if (u =? u')%Z then 1 else 0))%nat)
  /\ (forall b, In b (buckets db') ->
                In b (buckets db) \/ (b_user b = Some u /\ b_name b = nm)).
Proof.
  intros Hidx Hnd db'.
  pose proof (insert_bucket_cases mode u nm sort db) as H. cbv zeta in H.
  destruct H as (Hs & _ & [[Hb _] | (Hb & Hfree & _)]);
    fold db' in Hs, Hb; rewrite Hb.
  - split; [exact Hs |]. split; [exact Hnd |]. split; [intros u'; lia | auto].
  - split; [exact Hs |]. split; [| split].
    + apply keys_nodup_snoc; [exact Hnd | apply user_name_free; assumption].
    + intros u'. rewrite count_snoc. lia.
    + intros b Hin. apply in_app_or in Hin as [Hin | [<- | []]]; auto.
Qed.

Lemma inv_of_schema db db' :
  Registry.same_schema db db' -> Registry.Inv db ->
  NoDup (user_name_keys (buckets db')) ->
  (forall u, (Registry.count u (buckets db') <= 5)%nat) ->
  Registry.Inv db'.
Proof.
  intros (Hc & _ & _ & Hi & _) (Hcol & Hidx & _ & _) Hnd Hcnt.
  unfold Registry.Inv. rewrite Hc, Hi. auto.
Qed.

(** POST /api/buckets keeps the invariant. *)
Lemma create_inv u p db : Registry.Inv db -> Registry.Inv (Registry.exec (Registry.Create u p) db).
Proof.
  cbn [Registry.exec]. revert db. apply hoare_final. unfold Buckets.handler.
  eapply hoare_bind; [apply optional_trim_hoare; auto |]. intros t.
  destruct (Buckets.or_null t) as [nm |]; [| apply sendJson_hoare; auto].
  eapply hoare_bind; [apply count_buckets_hoare; auto |]. intros n.
  apply hoare_if; intros Hn.
  - apply sendJson_hoare. intuition.
  - eapply hoare_bind; [apply max_sort_order_hoare; intuition |].
    intros mx. eapply hoare_bind; [| intros row; apply sendJson_hoare; intros db H; exact H].
    apply final_hoare. intros db [HI ->].
    unfold DbLib.MAX_BUCKETS_PER_USER in Hn. apply Z.leb_gt in Hn.
    pose proof HI as (Hcol & Hidx & Hnd & Hcnt).
    destruct (insert_bucket_keeps Fail u nm (mx + 1) db Hidx Hnd) as (Hs & Hnd' & Hc' & _).
    eapply inv_of_schema; eauto.
    intros u'. specialize (Hc' u'). specialize (Hcnt u').
    destruct (Z.eqb_spec u u') as [<- |]; lia.
Qed.

Lemma count_map_same u (g : BucketRow -> BucketRow) bs :
  (forall b, b_user (g b) = b_user b) ->
  Registry.count u (map g bs) = Registry.count u bs.
Proof.
  intros Hg. unfold Registry.count. induction bs as [| b bs IH]; [reflexivity |].
  cbn. assert (Ho : owned_by u (g b) = owned_by u b) by (unfold owned_by; rewrite Hg; reflexivity).
  rewrite Ho. destruct (owned_by u b); cbn; auto.
Qed.

Lemma count_filter_le u (f : BucketRow -> bool) bs :
  (Registry.count u (List.filter f bs) <= Registry.count u bs)%nat.
Proof.
  unfold Registry.count. induction bs as [| b bs IH]; [reflexivity |].
  simpl. destruct (f b); simpl; destruct (owned_by u b); simpl; lia.
Qed.

Lemma keys_in_filter k (f : BucketRow -> bool) bs :
  In k (user_name_keys (List.filter f bs)) -> In k (user_name_keys bs).
Proof.
  destruct k as [u nm]. rewrite !user_name_key_in.
  intros (b & Hb & H). apply filter_In in Hb as [Hb _]. eauto.
Qed.

Lemma keys_nodup_filter (f : BucketRow -> bool) bs :
  NoDup (user_name_keys bs) -> NoDup (user_name_keys (List.filter f bs)).
Proof.
  unfold user_name_keys at 1. induction bs as [| b bs IH]; cbn; [auto |].
  destruct (user_name_key b) as [k |] eqn:Hk; cbn; intros Hnd.
  - apply NoDup_cons in Hnd as [Hnotin Hnd].
    destruct (f b); [| apply IH, Hnd].
    unfold user_name_keys. cbn. rewrite Hk. cbn. apply NoDup_cons. split.
    + intros Hin. apply Hnotin. apply list_elem_of_In in Hin.
      apply list_elem_of_In. exact (keys_in_filter k f bs Hin).
    + apply IH, Hnd.
  - destruct (f b); [| apply IH, Hnd].
    unfold user_name_keys. cbn. rewrite Hk. cbn. apply IH, Hnd.
Qed.

Lemma update_bucket_inv i u n s db :
  Registry.Inv db -> Registry.Inv (final (update_bucket i u n s db)).
Proof.
  intros HI. pose proof HI as (Hcol & Hidx & Hnd & Hcnt).
  unfold update_bucket, bind.
  destruct (need_user_id_cases db) as [[_ ->] | [_ ->]]; cbn beta iota; [| exact HI].
  destruct (negb (int4 (default 0 s))); [exact HI |].
  match goal with |- context [if ?c then _ else _] => destruct c eqn:Hchk end;
    [exact HI |].
  cbn [final]. rewrite Hidx in Hchk. apply orb_false_iff in Hchk as [_ Hchk].
  cbn [andb] in Hchk. apply negb_false_iff, bool_decide_eq_true in Hchk.
  unfold Registry.Inv. proj_db. repeat split; auto.
  intros u'. rewrite count_map_same; [apply Hcnt |].
  intros b. destruct ((b_id b =? i) && owned_by u b); reflexivity.
Qed.

Lemma delete_bucket_inv i u db :
  Registry.Inv db -> Registry.Inv (final (delete_bucket i u db)).
Proof.
  intros HI. pose proof HI as (Hcol & Hidx & Hnd & Hcnt).
  unfold delete_bucket, bind.
  destruct (need_user_id_cases db) as [[_ ->] | [_ ->]]; cbn beta iota; [| exact HI].
  unfold Registry.Inv. proj_db. repeat split; auto.
  - apply keys_nodup_filter, Hnd.
  - intros u'. etransitivity; [apply count_filter_le | apply Hcnt].
Qed.

Lemma update_inv u p db : Registry.Inv db -> Registry.Inv (Registry.exec (Registry.Update u p) db).
Proof.
  cbn [Registry.exec]. revert db. apply hoare_final. unfold Buckets.handler.
  apply hoare_if; intros _; [apply sendJson_hoare; auto |].
  eapply hoare_bind; [apply owner_check_hoare; auto |]. intros owner.
  apply hoare_if; intros _; [apply sendJson_hoare; auto |].
  eapply hoare_bind; [apply optional_trim_hoare; auto |]. intros t.
  eapply hoare_bind; [| intros row; apply sendJson_hoare; intros db H; exact H].
  apply final_hoare. intros db. apply update_bucket_inv.
Qed.

Lemma remove_inv u p db : Registry.Inv db -> Registry.Inv (Registry.exec (Registry.Remove u p) db).
Proof.
  cbn [Registry.exec]. revert db. apply hoare_final. unfold Buckets.handler.
  apply hoare_if; intros _; [apply sendJson_hoare; auto |].
  eapply hoare_bind; [apply owner_check_hoare; auto |]. intros owner.
  apply hoare_if; intros _; [apply sendJson_hoare; auto |].
  eapply hoare_bind; [| intros row; apply sendJson_hoare; intros db H; exact H].
  apply final_hoare. intros db. apply delete_bucket_inv.
Qed.

(** ** Seeding *)

Lemma names_nodup u bs :
  NoDup (user_name_keys bs) -> NoDup (map b_name (List.filter (owned_by u) bs)).
Proof.
  induction bs as [| b bs IH]; cbn; [constructor |].
  unfold user_name_keys. cbn. fold (user_name_keys bs).
  destruct (owned_by u b) eqn:Hown.
  - apply owned_by_eq in Hown. unfold user_name_key. rewrite Hown. cbn.
    intros Hnd. apply NoDup_cons in Hnd as [Hnotin Hnd]. apply NoDup_cons. split.
    + intros Hin. apply Hnotin. apply list_elem_of_In. apply list_elem_of_In in Hin.
      apply user_name_key_in. apply in_map_iff in Hin as (b' & Hn & Hb').
      apply filter_In in Hb' as [Hb' Ho]. apply owned_by_eq in Ho. eauto.
    + apply IH, Hnd.
  - destruct (user_name_key b); cbn; intros Hnd; [| apply IH, Hnd].
    apply NoDup_cons in Hnd as [_ Hnd]. apply IH, Hnd.
Qed.

Lemma seeding_inv u db : Registry.Seeding u db -> Registry.Inv db.
Proof.
  intros (Hcol & Hidx & Hnd & Hothers & Hnames). unfold Registry.Inv.
  repeat split; auto. intros u'.
  destruct (Z.eq_dec u' u) as [-> | Hne]; [| apply Hothers, Hne].
  unfold Registry.count. rewrite <- (length_map b_name).
  transitivity (length (map fst DbLib.DEFAULT_BUCKETS)); [| cbn; lia].
  apply submseteq_length, NoDup_submseteq; [apply names_nodup, Hnd |].
  intros nm Hin. apply list_elem_of_In. apply list_elem_of_In in Hin.
  apply in_map_iff in Hin as (b & <- & Hb).
  apply filter_In in Hb as [Hb Ho]. apply owned_by_eq in Ho. auto.
Qed.

Lemma seeding_start u db :
  Registry.Inv db -> existsb (owned_by u) (buckets db) = false -> Registry.Seeding u db.
Proof.
  intros (Hcol & Hidx & Hnd & Hcnt) Hnone. unfold Registry.Seeding.
  repeat split; auto. intros b Hb Hu. exfalso.
  assert (existsb (owned_by u) (buckets db) = true); [| congruence].
  apply existsb_exists. exists b. split; [exact Hb | apply owned_by_eq, Hu].
Qed.

Lemma seeding_insert mode u nm sort db :
  In nm (map fst DbLib.DEFAULT_BUCKETS) ->
  Registry.Seeding u db -> Registry.Seeding u (final (insert_bucket mode u nm sort db)).
Proof.
  intros Hnm (Hcol & Hidx & Hnd & Hothers & Hnames).
  destruct (insert_bucket_keeps mode u nm sort db Hidx Hnd) as (Hs & Hnd' & Hc' & Hb').
  destruct Hs as (Hc & _ & _ & Hi & _). unfold Registry.Seeding.
  rewrite Hc, Hi. repeat split; auto.
  - intros u' Hne. specialize (Hc' u'). specialize (Hothers u' Hne).
    destruct (Z.eqb_spec u u'); [congruence | lia].
  - intros b Hb Hu. destruct (Hb' b Hb) as [Hold | [_ ->]]; auto.
Qed.

Lemma seed_inv u db : Registry.Inv db -> Registry.Inv (Registry.exec (Registry.Seed u) db).
Proof.
  cbn [Registry.exec]. revert db. apply hoare_final. unfold DbLib.seedBucketsForUser.
  eapply hoare_bind; [apply has_bucket_hoare; auto |]. intros existing.
  apply hoare_if; intros He; [apply hoare_ret; intuition |].
  eapply hoare_weaken with (P' := Registry.Seeding u) (Q' := fun _ => Registry.Seeding u)
                           (E' := Registry.Seeding u).
  - apply hoare_for_each. intros [nm sort] Hin. cbn [fst snd].
    eapply hoare_bind; [| intros ?; apply hoare_ret; intros db H; exact H].
    apply final_hoare. intros db. apply seeding_insert.
    apply in_map_iff. exists (nm, sort). auto.
  - intros db [HI ->]. apply seeding_start; auto.
  - intros _ db. apply seeding_inv.
  - intros db. apply seeding_inv.
Qed.

Lemma reset_inv db : Registry.Inv db -> Registry.Inv (final (DbLib.resetData db)).
Proof.
  revert db. apply hoare_final. unfold DbLib.resetData.
  eapply hoare_bind with (Q := fun _ => Registry.Inv).
  { intros db HI. cbn. exact HI. }
  intros ?. eapply hoare_bind with (Q := fun _ => Registry.Inv).
  { intros db (Hcol & Hidx & _ & _). cbn. unfold Registry.Inv. cbn.
    repeat split; auto; [constructor | intros; lia]. }
  intros ?. eapply hoare_bind with (Q := fun _ => Registry.Inv).
  { intros db HI. cbn. exact HI. }
  intros allUsers. apply hoare_for_each. intros u _.
  apply final_hoare. intros db. apply (seed_inv u db).
Qed.

Lemma admin_reset_inv caller isAdmin db :
  Registry.Inv db -> Registry.Inv (Registry.exec (Registry.AdminReset caller isAdmin) db).
Proof.
  cbn [Registry.exec]. revert db. apply hoare_final. unfold Admin.handler.
  apply hoare_if; intros _; [apply sendJson_hoare; auto |].
  eapply hoare_bind; [| intros ?; apply sendJson_hoare; intros db H; exact H].
  apply final_hoare. intros db. apply reset_inv.
Qed.

Lemma checkin_inv today u p db :
  Registry.Inv db -> Registry.Inv (Registry.exec (Registry.CheckIn today u p) db).
Proof.
  intros HI. cbn [Registry.exec].
  assert (Hup : forall b d c, Registry.Inv (final (upsert_entry u b d c db))).
  { intros b d c. unfold upsert_entry.
    repeat match goal with |- context [if ?c then _ else _] => destruct c end;
      cbn; exact HI. }
  unfold Checkins.handler.
  destruct (Checkins.missing_fields (Some p)); [exact HI |].
  destruct p as [[b |] [d |] c]; try exact HI.
  match goal with |- context [if ?c then _ else _] => destruct c end; [exact HI |].
  unfold bind. specialize (Hup b d (strict_neq_false c)).
  destruct (upsert_entry u b d (strict_neq_false c) db); exact Hup.
Qed.

Lemma exec_inv op db : Registry.Inv db -> Registry.Inv (Registry.exec op db).
Proof.
  destruct op; [apply create_inv | apply update_inv | apply remove_inv | apply seed_inv
               | apply admin_reset_inv | apply checkin_inv].
Qed.

Lemma run_inv ops db : Registry.Inv db -> Registry.Inv (Registry.run ops db).
Proof.
  unfold Registry.run. revert db. induction ops as [| op ops IH]; intros db HI; [exact HI |].
  cbn. apply IH, exec_inv, HI.
Qed.

(** ** What [list(U)] answers *)

Lemma listOf_perm db u :
  Spec.listOf db u ≡ₚ List.filter (owned_by u) (buckets db).
Proof. unfold Spec.listOf. apply merge_sort_Permutation. Qed.

Lemma listOf_length db u : length (Spec.listOf db u) = Registry.count u (buckets db).
Proof. unfold Registry.count. apply Permutation_length, listOf_perm. Qed.

Lemma listOf_names_nodup db u :
  NoDup (user_name_keys (buckets db)) -> NoDup (map b_name (Spec.listOf db u)).
Proof.
  intros Hnd.
  assert (Hp : map b_name (Spec.listOf db u)
               ≡ₚ map b_name (List.filter (owned_by u) (buckets db)))
    by apply Permutation_map, listOf_perm.
  rewrite Hp. apply names_nodup, Hnd.
Qed.

Lemma get_answers_listOf u payload db :
  col_user_id db = true ->
  Buckets.handler (Some u) GET payload db
  = Done (mkResponse 200 (BucketsBody (Spec.listOf db u))) db.
Proof.
  intros Hcol. unfold Buckets.handler, list_buckets, bind, need_user_id.
  rewrite Hcol. reflexivity.
Qed.

(** A create request with a usable name, for a user at the cap. *)
Lemma create_at_limit u p s db :
  col_user_id db = true ->
  Buckets.name p = JStr s -> trim s <> "" ->
  (5 <= Registry.count u (buckets db))%nat ->
  Buckets.handler (Some u) POST (Some p) db
  = Done (mkResponse 400 (ErrorBody "Maximum 5 habits allowed")) db.
Proof.
  intros Hcol Hname Hs Hcnt. unfold Buckets.handler. rewrite Hname.
  cbn [Buckets.optional_trim]. unfold bind at 1. unfold ret at 1.
  assert (Hnull : Buckets.or_null (Some (trim s)) = Some (trim s)).
  { unfold Buckets.or_null. destruct (trim s); [congruence | reflexivity]. }
  rewrite Hnull. unfold bind at 1. unfold count_buckets, bind, need_user_id.
  rewrite Hcol. unfold DbLib.MAX_BUCKETS_PER_USER.
  fold (Registry.count u (buckets db)).
  destruct (Z.leb_spec 5 (Z.of_nat (Registry.count u (buckets db)))); [reflexivity | lia].
Qed.

(** C8, as the code has it.  Starting from a per-user store that satisfies
    the invariant, after any sequence of API operations (create, rename or
    reorder, delete, seeding at signup, admin reset, check-in) [list(U)]
    has at most 5 buckets with pairwise distinct names, it is what GET
    answers, and a create request with a usable name for a user who
    already has 5 buckets is answered 400 "Maximum 5 habits allowed"
    without touching the store. *)
Theorem registry_cap_and_unique_names db ops U :
  Registry.Inv db ->
  let db' := Registry.run ops db in
  (length (Spec.listOf db' U) <= 5)%nat
  /\ NoDup (map b_name (Spec.listOf db' U))
  /\ (forall payload,
        Buckets.handler (Some U) GET payload db'
        = Done (mkResponse 200 (BucketsBody (Spec.listOf db' U))) db')
  /\ (forall p s,
        Buckets.name p = JStr s -> trim s <> "" ->
        (5 <= length (Spec.listOf db' U))%nat ->
        Buckets.handler (Some U) POST (Some p) db'
        = Done (mkResponse 400 (ErrorBody "Maximum 5 habits allowed")) db').
Proof.
  intros HI db'. pose proof (run_inv ops db HI) as (Hcol & Hidx & Hnd & Hcnt).
  fold db' in Hcol, Hidx, Hnd, Hcnt. split; [| split; [| split]].
  - rewrite listOf_length. apply Hcnt.
  - apply listOf_names_nodup, Hnd.
  - intros payload. apply get_answers_listOf, Hcol.
  - intros p s Hname Hs Hlen. rewrite listOf_length in Hlen.
    eapply create_at_limit; eauto.
Qed.

Lemma registry_cap_and_unique_names_witness :
  let db := mkDB [1] [] [] 1 true true false true in
  let named s := Buckets.mkPayload None (JStr s) JUndefined in
  let ops := [Registry.Seed 1; Registry.Create 1 (named "Run"); Registry.Create 1 (named "Swim");
              Registry.Create 1 (named "Row"); Registry.Create 1 (named "Run")] in
  (length (Spec.listOf (Registry.run ops db) 1) <= 5)%nat.
Proof.
  intros db named ops.
  assert (HI : Registry.Inv db).
  { unfold Registry.Inv. cbn. repeat split; try reflexivity; [constructor | intros; lia]. }
  exact (proj1 (registry_cap_and_unique_names db ops 1 HI)).
Defined.

(** C8 as stated fails once the migration is among the operations: it
    clones every legacy bucket for every user, whatever their number.  Six
    legacy buckets and one user give that user six buckets. *)
Example migration_exceeds_cap :
  let legacy :=
    mkDB [1]
         [mkBucket 1 None "a" 1; mkBucket 2 None "b" 2; mkBucket 3 None "c" 3;
          mkBucket 4 None "d" 4; mkBucket 5 None "e" 5; mkBucket 6 None "f" 6]
         [] 7 false false false false in
  exists db', Migrate.script legacy = Done tt db'
              /\ length (Spec.listOf db' 1) = 6%nat
              /\ ~ (length (Spec.listOf db' 1) <= 5)%nat.
Proof.
  intros legacy. eexists. split; [vm_compute; reflexivity |].
  split; [vm_compute; reflexivity | vm_compute; lia].
Qed.

(** ** Creating a bucket whose name is taken *)

Lemma user_name_taken_true u nm db :
  idx_user_name_unique db = true ->
  (exists b, In b (buckets db) /\ b_user b = Some u /\ b_name b = nm) ->
  user_name_taken u nm db = true.
Proof.
  intros Hidx (b & Hb & Hu & Hn). unfold user_name_taken. rewrite Hidx. cbn [andb].
  apply existsb_exists. exists b. split; [exact Hb |].
  apply andb_true_iff. split; [apply owned_by_eq, Hu | apply String.eqb_eq, Hn].
Qed.

Lemma count_buckets_eq u db :
  col_user_id db = true ->
  count_buckets u db = Done (Z.of_nat (Registry.count u (buckets db))) db.
Proof. intros Hcol. unfold count_buckets, bind, need_user_id. rewrite Hcol. reflexivity. Qed.

Lemma max_sort_order_eq u db :
  col_user_id db = true -> exists m, max_sort_order u db = Done m db.
Proof.
  intros Hcol. unfold max_sort_order, bind, need_user_id. rewrite Hcol. eauto.
Qed.

Lemma insert_taken_raises u nm sort db :
  col_user_id db = true -> user_name_taken u nm db = true ->
  insert_bucket Fail u nm sort db
  = if negb (int4 sort) then Raised NumericOutOfRange db
    else Raised UniqueViolation (with_seq (bucket_seq db + 1) db).
Proof.
  intros Hcol Htaken. unfold insert_bucket, bind, need_user_id. rewrite Hcol.
  destruct (negb (int4 sort)); [reflexivity |].
  destruct (idx_user_name_unique db); rewrite Htaken; reflexivity.
Qed.

(** C6, as the code has it.  On the per-user schema, a create request whose
    trimmed name the caller already uses is never accepted and writes no
    bucket or entry row: it is answered 400 "Maximum 5 habits allowed" when
    the caller is at the cap, and otherwise the INSERT raises (a unique
    violation from the (user_id, name) index, or an out-of-range sort
    position) and the handler sends no response of its own. *)
Theorem duplicate_name_rejected u p s db :
  col_user_id db = true ->
  idx_user_name_unique db = true ->
  Buckets.name p = JStr s -> trim s <> "" ->
  (exists b, In b (buckets db) /\ b_user b = Some u /\ b_name b = trim s) ->
  let r := Buckets.handler (Some u) POST (Some p) db in
  buckets (final r) = buckets db
  /\ entries (final r) = entries db
  /\ (((5 <= Registry.count u (buckets db))%nat
       /\ r = Done (mkResponse 400 (ErrorBody "Maximum 5 habits allowed")) db)
      \/ ((Registry.count u (buckets db) < 5)%nat
          /\ r = Raised UniqueViolation (with_seq (bucket_seq db + 1) db))
      \/ ((Registry.count u (buckets db) < 5)%nat
          /\ r = Raised NumericOutOfRange db)).
Proof.
  intros Hcol Hidx Hname Hs Hdup r.
  destruct (Nat.le_gt_cases 5 (Registry.count u (buckets db))) as [Hcap | Hroom].
  - subst r. rewrite (create_at_limit u p s db Hcol Hname Hs Hcap). cbn. auto.
  - assert (Htaken := user_name_taken_true u (trim s) db Hidx Hdup).
    assert (Hr : r = if negb (int4 (match max_sort_order u db with
                                    | Done m _ => m + 1
                                    | Raised _ _ => 0
                                    end))
                     then Raised NumericOutOfRange db
                     else Raised UniqueViolation (with_seq (bucket_seq db + 1) db)).
    { subst r. unfold Buckets.handler. rewrite Hname.
      cbn [Buckets.optional_trim]. unfold bind at 1. unfold ret at 1.
      assert (Hnull : Buckets.or_null (Some (trim s)) = Some (trim s)).
      { unfold Buckets.or_null. destruct (trim s); [congruence | reflexivity]. }
      rewrite Hnull. unfold bind at 1. rewrite (count_buckets_eq u db Hcol).
      unfold DbLib.MAX_BUCKETS_PER_USER.
      destruct (Z.leb_spec 5 (Z.of_nat (Registry.count u (buckets db)))); [lia |].
      unfold bind at 1. destruct (max_sort_order_eq u db Hcol) as (m & ->).
      unfold bind at 1. rewrite (insert_taken_raises u (trim s) (m + 1) db Hcol Htaken).
      destruct (negb (int4 (m + 1))); reflexivity. }
    rewrite Hr. destruct (negb (int4 _)); cbn; auto 10.
Qed.

Lemma duplicate_name_rejected_witness :
  let db := mkDB [1] [mkBucket 1 (Some 1) "Run" 1] [] 2 true true false true in
  let p := Buckets.mkPayload None (JStr " Run ") JUndefined in
  buckets (final (Buckets.handler (Some 1) POST (Some p) db)) = buckets db.
Proof.
  intros db p.
  assert (Hne : trim " Run " <> "") by (vm_compute; discriminate).
  assert (Hdup : exists b, In b (buckets db) /\ b_user b = Some 1
                           /\ b_name b = trim " Run ").
  { exists (mkBucket 1 (Some 1) "Run" 1). simpl. auto. }
  exact (proj1 (duplicate_name_rejected 1 p " Run " db eq_refl eq_refl eq_refl Hne Hdup)).
Defined.

(** C6 as stated fails: below the cap the duplicate is refused by the
    index, the INSERT raises, and no structured response leaves the
    handler. *)
Example duplicate_name_raises :
  let db := mkDB [1] [mkBucket 1 (Some 1) "Run" 1] [] 2 true true false true in
  let p := Buckets.mkPayload None (JStr " Run ") JUndefined in
  (exists b, In b (buckets db) /\ b_user b = Some 1 /\ b_name b = trim " Run ")
  /\ Buckets.handler (Some 1) POST (Some p) db = Raised UniqueViolation (with_seq 3 db)
  /\ ~ (exists resp db', Buckets.handler (Some 1) POST (Some p) db = Done resp db').
Proof.
  intros db p. split; [| split].
  - exists (mkBucket 1 (Some 1) "Run" 1). simpl. auto.
  - vm_compute. reflexivity.
  - intros (resp & db' & H). vm_compute in H. discriminate H.
Qed.

End BucketsFacts.

(* ================================================================== *)
(** * The migration script *)

Section MigrateFacts.
Import Store Sql MigrationSql.

(** An insert never removes a bucket, and never touches [users] or the
    schema. *)
Lemma insert_bucket_grows mode u nm sort db :
  let db' := final (insert_bucket mode u nm sort db) in
  col_user_id db' = col_user_id db
  /\ users db' = users db
  /\ (forall v, existsb (owned_by v) (buckets db) = true ->
                existsb (owned_by v) (buckets db') = true).
Proof.
  intros db'. pose proof (insert_bucket_cases mode u nm sort db) as H. cbv zeta in H.
  destruct H as ((Hc & _ & _ & _ & Hu) & _ & [[Hb _] | (Hb & _ & _)]);
    fold db' in Hc, Hu, Hb; rewrite Hb; repeat split; auto.
  intros v Hv. rewrite existsb_app, Hv. reflexivity.
Qed.

(** An ON CONFLICT (user_id, name) DO NOTHING insert that ends normally
    leaves the user with a bucket. *)
Lemma insert_do_nothing_done u nm sort row db db' :
  insert_bucket DoNothingUserName u nm sort db = Done row db' ->
  existsb (owned_by u) (buckets db') = true.
Proof.
  unfold insert_bucket, bind.
  destruct (need_user_id_cases db) as [[_ ->] | [_ ->]]; cbn beta iota; [| discriminate].
  destruct (negb (int4 sort)); [discriminate |].
  destruct (idx_user_name_unique db) eqn:Hidx; [| discriminate].
  destruct (user_name_taken u nm db) eqn:Htaken.
  - intros [= _ <-]. proj_db. unfold user_name_taken in Htaken. rewrite Hidx in Htaken.
    cbn [andb] in Htaken. apply existsb_exists in Htaken as (b & Hb & Hob).
    apply andb_true_iff in Hob as [Hob _]. apply existsb_exists. eauto.
  - destruct (pk_taken (bucket_seq db) db || name_taken nm db); [discriminate |].
    destruct (negb (existsb (Z.eqb u) (users db))); [discriminate |].
    intros [= _ <-]. proj_db. rewrite existsb_app. cbn.
    apply orb_true_iff. right. unfold owned_by. cbn. rewrite Z.eqb_refl. reflexivity.
Qed.

(** While the defaults are being seeded: the column exists, [users] is
    [us], and every user of [seeded] has a bucket. *)
Lemma seed_defaults_step us (seeded : list Z) u (d : string * Z) (rest : list (string * Z)) :
  let J s db := col_user_id db = true /\ users db = us
                /\ forall v, In v s -> existsb (owned_by v) (buckets db) = true in
  hoare (J seeded)
        (for_each (d :: rest) (fun bucket =>
           bind (insert_bucket DoNothingUserName u (fst bucket) (snd bucket))
                (fun _ => ret tt)))
        (fun _ => J (u :: seeded)) (fun _ => True).
Proof.
  intros J.
  assert (Hkeep : forall s mode nm sort db, J s db ->
                    J s (final (insert_bucket mode u nm sort db))).
  { intros s mode nm sort db (Hc & Hu & Hs).
    destruct (insert_bucket_grows mode u nm sort db) as (Hc' & Hu' & Hg).
    unfold J. rewrite Hc', Hu'. auto. }
  cbn [for_each].
  eapply hoare_bind with (Q := fun _ => J (u :: seeded)).
  - eapply hoare_bind with (Q := fun _ => J (u :: seeded));
      [| intros ?; apply hoare_ret; auto].
    intros db HJ. pose proof (Hkeep seeded DoNothingUserName (fst d) (snd d) db HJ) as HJ'.
    destruct (insert_bucket DoNothingUserName u (fst d) (snd d) db)
      as [row db' | e db'] eqn:Hins; [| exact I].
    apply insert_do_nothing_done in Hins. cbn [final] in HJ'.
    destruct HJ' as (Hc & Hu & Hs). unfold J. repeat split; auto.
    intros v [<- | Hv]; auto.
  - intros ?.
    apply (hoare_weaken _ (J (u :: seeded)) _ _ (fun _ => J (u :: seeded)) _ (J (u :: seeded)));
      [| auto | auto | auto].
    apply (hoare_for_each (J (u :: seeded)) (J (u :: seeded))). intros [nm sort] _.
    eapply hoare_bind with (Q := fun _ => J (u :: seeded));
      [| intros ?; apply hoare_ret; auto].
    apply final_hoare. intros db. apply Hkeep.
Qed.

Lemma seed_defaults_loop us (todo seeded : list Z) :
  let J s db := col_user_id db = true /\ users db = us
                /\ forall v, In v s -> existsb (owned_by v) (buckets db) = true in
  hoare (J seeded)
        (for_each todo (fun user =>
           for_each DbLib.DEFAULT_BUCKETS (fun bucket =>
             bind (insert_bucket DoNothingUserName user (fst bucket) (snd bucket))
                  (fun _ => ret tt))))
        (fun _ => J (todo ++ seeded)%list) (fun _ => True).
Proof.
  intros J. revert seeded. induction todo as [| u todo IH]; intros seeded.
  - apply hoare_ret. auto.
  - cbn [for_each]. eapply hoare_bind.
    { unfold DbLib.DEFAULT_BUCKETS. exact (seed_defaults_step us seeded u _ _). }
    intros ?. eapply hoare_weaken; [apply (IH (u :: seeded)) | auto | | auto].
    intros ? db HJ. unfold J in HJ. cbv beta in HJ. destruct HJ as (Hc & Hu & Hs).
    unfold J. repeat split; auto.
    intros v Hv. apply Hs. apply in_app_or in Hv as [[<- | Hv] | Hv];
      apply in_or_app; cbn; auto.
Qed.

(** After [seedDefaultBuckets] has run to its end, the column exists and
    every user has a bucket. *)
Lemma seedDefaultBuckets_done db db' :
  Migrate.seedDefaultBuckets db = Done tt db' ->
  col_user_id db' = true
  /\ forall v, In v (users db') -> existsb (owned_by v) (buckets db') = true.
Proof.
  unfold Migrate.seedDefaultBuckets, users_without_buckets. unfold bind at 1 2.
  destruct (need_user_id_cases db) as [[Hcol ->] | [_ ->]]; cbn beta iota; [| discriminate].
  set (todo := List.filter _ (users db)).
  set (have := List.filter (fun u => existsb (owned_by u) (buckets db)) (users db)).
  pose proof (seed_defaults_loop (users db) todo have) as Hloop. cbv zeta in Hloop.
  specialize (Hloop db). intros Hrun. rewrite Hrun in Hloop.
  destruct Hloop as (Hc & Hu & Hs).
  - repeat split; auto. intros v Hv. apply filter_In in Hv. apply Hv.
  - split; [exact Hc |]. rewrite Hu. intros v Hv. apply Hs. apply in_or_app.
    destruct (existsb (owned_by v) (buckets db)) eqn:Hv'.
    + right. apply filter_In. auto.
    + left. apply filter_In. rewrite Hv'. auto.
Qed.

Lemma migrate_skips db : col_user_id db = true -> Migrate.migrate db = Done tt db.
Proof.
  intros Hcol. unfold Migrate.migrate, bind, column_user_id_exists. rewrite Hcol. reflexivity.
Qed.

Lemma seedDefaultBuckets_skips db :
  col_user_id db = true ->
  (forall v, In v (users db) -> existsb (owned_by v) (buckets db) = true) ->
  Migrate.seedDefaultBuckets db = Done tt db.
Proof.
  intros Hcol Hall. unfold Migrate.seedDefaultBuckets, users_without_buckets, bind, need_user_id.
  rewrite Hcol.
  replace (List.filter _ (users db)) with (@nil Z); [reflexivity |].
  symmetry. induction (users db) as [| v us IH]; [reflexivity |].
  cbn. rewrite (Hall v) by (left; reflexivity). cbn. apply IH.
  intros w Hw. apply Hall. right. exact Hw.
Qed.

Lemma bind_done {A B} (c : M A) (k : A -> M B) db b db1 :
  bind c k db = Done b db1 -> exists a db', c db = Done a db' /\ k a db' = Done b db1.
Proof.
  unfold bind. destruct (c db) as [a db' | e db']; [eauto | discriminate].
Qed.

(** A run of [migrate] that ends normally leaves the column in place. *)
Lemma migrate_done_column db db1 :
  Migrate.migrate db = Done tt db1 -> col_user_id db1 = true.
Proof.
  unfold Migrate.migrate. intros H.
  apply bind_done in H as (colCheck & db0 & Hcol & H).
  unfold column_user_id_exists in Hcol. injection Hcol as <- <-.
  destruct (col_user_id db) eqn:Hc; cbn [negb] in H.
  - injection H as <-. exact Hc.
  - do 5 (apply bind_done in H as (? & ? & _ & H)).
    apply bind_done in H as (? & dbj & _ & H).
    unfold create_index_user_name_unique in H.
    apply bind_done in H as ([] & dbk & Hneed & H).
    destruct (need_user_id_cases dbj) as [[Hk Hn] | [_ Hn]];
      rewrite Hn in Hneed; [| discriminate].
    injection Hneed as <-.
    destruct (idx_user_name_unique dbj); [injection H as <-; exact Hk |].
    destruct (bool_decide _); [injection H as <-; exact Hk | discriminate].
Qed.

(** C7.  A second run is a no-op.  Whenever [buckets.user_id] is present,
    [migrate()] takes the already-migrated branch and returns the store as
    it found it; a run of [migrate] that ended normally is followed by
    runs that change nothing; and once the script ([migrate] then
    [seedDefaultBuckets]) has run to its end, running [migrate] or the whole
    script again ends normally with the very same store, so no bucket is
    added twice. *)
Theorem migration_second_run_noop db db1 :
  Migrate.script db = Done tt db1 ->
  col_user_id db1 = true
  /\ Migrate.migrate db1 = Done tt db1
  /\ Migrate.script db1 = Done tt db1
  /\ (forall db2, col_user_id db2 = true -> Migrate.migrate db2 = Done tt db2)
  /\ (forall db2 db3, Migrate.migrate db2 = Done tt db3 -> Migrate.migrate db3 = Done tt db3).
Proof.
  unfold Migrate.script at 1. unfold bind.
  destruct (Migrate.migrate db) as [[] dbm | e dbm]; [| discriminate].
  intros Hseed. apply seedDefaultBuckets_done in Hseed as [Hcol Hall].
  split; [exact Hcol |]. split; [apply migrate_skips, Hcol |].
  split; [| split; [intros db2; apply migrate_skips |]].
  - unfold Migrate.script, bind. rewrite (migrate_skips db1 Hcol).
    apply seedDefaultBuckets_skips; assumption.
  - intros db2 db3 Hrun. apply migrate_skips, (migrate_done_column db2 db3 Hrun).
Qed.

Lemma migration_second_run_noop_witness :
  let legacy :=
    mkDB [1; 2] [mkBucket 1 None "Run" 1; mkBucket 2 None "Swim" 2]
         [mkEntry 1 1 (IsoDate.mk 2024 4 12) true] 3 false false false false in
  let migrated :=
    mkDB [1; 2]
         [mkBucket 3 (Some 1) "Run" 1; mkBucket 4 (Some 1) "Swim" 2;
          mkBucket 5 (Some 2) "Run" 1; mkBucket 6 (Some 2) "Swim" 2]
         [mkEntry 1 3 (IsoDate.mk 2024 4 12) true] 7 true true false true in
  Migrate.script migrated = Done tt migrated.
Proof.
  intros legacy migrated.
  assert (Hrun : Migrate.script legacy = Done tt migrated) by (vm_compute; reflexivity).
  exact (proj1 (proj2 (proj2 (migration_second_run_noop legacy migrated Hrun)))).
Defined.

(** ** The backfill on the store the previous schema leaves behind *)

(** Under the unique index on [name], a copy of an existing bucket is
    skipped: only the sequence moves. *)
Lemma clone_is_skipped u g db :
  col_user_id db = true -> idx_name_unique db = true ->
  In g (buckets db) -> int4 (b_sort g) = true ->
  insert_bucket DoNothingAny u (b_name g) (b_sort g) db
  = Done None (with_seq (bucket_seq db + 1) db).
Proof.
  intros Hcol Hidx Hg Hsort. unfold insert_bucket, bind, need_user_id.
  rewrite Hcol, Hsort. cbn [negb].
  assert (Hname : name_taken (b_name g) db = true).
  { unfold name_taken. rewrite Hidx. cbn [andb]. apply existsb_exists.
    exists g. split; [exact Hg | apply String.eqb_refl]. }
  rewrite Hname, !orb_true_r.
  destruct (idx_user_name_unique db); reflexivity.
Qed.

(** The two loops of the backfill, on a store whose buckets are all global
    and whose names are under the unique index: nothing is copied and
    nothing is re-linked. *)
Lemma clone_loop_skips (dbA : DB) (allUsers : list Z) (globalBuckets : list BucketRow) :
  col_user_id dbA = true -> idx_name_unique dbA = true ->
  (forall g, In g globalBuckets -> In g (buckets dbA) /\ int4 (b_sort g) = true) ->
  hoare (fun db => exists n, db = with_seq n dbA)
        (for_each allUsers (fun user =>
           for_each globalBuckets (fun bucket =>
             bind (insert_bucket DoNothingAny user (b_name bucket) (b_sort bucket))
                  (fun _ => ret tt))))
        (fun _ db => exists n, db = with_seq n dbA)
        (fun _ => False).
Proof.
  intros Hcol Hidx Hin. apply hoare_for_each. intros u _.
  apply hoare_for_each. intros g Hg db (n & ->). destruct (Hin g Hg) as [Hgin Hsort].
  unfold bind. rewrite clone_is_skipped; auto. cbn. exists (n + 1). reflexivity.
Qed.

Lemma relink_loop_skips (dbA : DB) (allUsers : list Z) (globalBuckets : list BucketRow) :
  col_user_id dbA = true ->
  (forall g, In g (buckets dbA) -> is_global g = true) ->
  hoare (fun db => exists n, db = with_seq n dbA)
        (for_each allUsers (fun user =>
           for_each globalBuckets (fun globalBucket =>
             bind (select_user_bucket user (b_name globalBucket))
                  (fun userBucket =>
                     match userBucket with
                     | Some ub => relink_entries user (b_id globalBucket) (b_id ub)
                     | None => ret tt
                     end))))
        (fun _ db => exists n, db = with_seq n dbA)
        (fun _ => False).
Proof.
  intros Hcol Hglobal. apply hoare_for_each. intros u _.
  apply hoare_for_each. intros g Hg db (n & ->).
  assert (Hfind : List.find (fun b => owned_by u b && String.eqb (b_name b) (b_name g))
                            (buckets dbA) = None).
  { destruct (List.find _ (buckets dbA)) as [b |] eqn:Hf; [| reflexivity].
    apply find_some in Hf as [Hb Hown]. apply andb_true_iff in Hown as [Hown _].
    specialize (Hglobal b Hb). unfold is_global in Hglobal. unfold owned_by in Hown.
    destruct (b_user b); discriminate. }
  unfold bind, select_user_bucket, bind, need_user_id.
  proj_db. rewrite Hcol. cbn beta iota. proj_db. rewrite Hfind. cbn. exists n. reflexivity.
Qed.

Lemma cascade_ids (gone gone' : list BucketRow) es :
  map b_id gone = map b_id gone' -> cascade gone es = cascade gone' es.
Proof.
  intros Hids. unfold cascade. apply List.filter_ext. intros e. f_equal.
  assert (Hmap : forall l, existsb (fun b => b_id b =? e_bucket e) l
                           = existsb (fun i => i =? e_bucket e) (map b_id l)).
  { induction l as [| b l IH]; [reflexivity |]. cbn. rewrite IH. reflexivity. }
  rewrite !Hmap, Hids. reflexivity.
Qed.

Lemma filter_all {A} (f : A -> bool) (l : list A) :
  (forall x, In x l -> f x = true) -> List.filter f l = l.
Proof.
  induction l as [| x l IH]; intros H; [reflexivity |].
  cbn. rewrite (H x) by (left; reflexivity). f_equal. apply IH.
  intros y Hy. apply H. right. exact Hy.
Qed.

Lemma filter_none {A} (f : A -> bool) (l : list A) :
  (forall x, In x l -> f x = false) -> List.filter f l = [].
Proof.
  induction l as [| x l IH]; intros H; [reflexivity |].
  cbn. rewrite (H x) by (left; reflexivity). apply IH.
  intros y Hy. apply H. right. exact Hy.
Qed.

(** On a store without [buckets.user_id] whose bucket names are under the
    unique index, with at least one bucket and one user, [migrate] ends
    normally having deleted every bucket and, by cascade, every entry that
    referenced one. *)
Lemma migrate_wipes_legacy db :
  col_user_id db = false -> idx_name_unique db = true ->
  buckets db <> [] -> users db <> [] ->
  (forall g, In g (buckets db) -> int4 (b_sort g) = true) ->
  exists db', Migrate.migrate db = Done tt db'
              /\ buckets db' = []
              /\ entries db' = cascade (buckets db) (entries db).
Proof.
  intros Hcol Hidx Hbs Hus Hsorts.
  set (nullify := fun b => mkBucket (b_id b) None (b_name b) (b_sort b)).
  set (dbA := with_col_user_id true (with_buckets (map nullify (buckets db)) db)).
  assert (Hadd : add_user_id_column db = Done tt dbA) by reflexivity.
  assert (HbA : buckets dbA = map nullify (buckets db)) by reflexivity.
  assert (HcA : col_user_id dbA = true) by reflexivity.
  assert (HiA : idx_name_unique dbA = true) by exact Hidx.
  assert (HuA : users dbA = users db) by reflexivity.
  assert (HeA : entries dbA = entries db) by reflexivity.
  assert (HsA : dbA = with_seq (bucket_seq dbA) dbA) by reflexivity.
  clearbody dbA.
  assert (HglobalA : forall g, In g (buckets dbA) -> is_global g = true).
  { intros g Hg. rewrite HbA in Hg. apply in_map_iff in Hg as (b & <- & _). reflexivity. }
  assert (Hsel : List.filter is_global (buckets dbA) = buckets dbA)
    by (apply filter_all, HglobalA).
  assert (Hafter :
            hoare (fun d => exists n, d = with_seq n dbA)
                  (bind
                     (for_each (users db) (fun user =>
                        for_each (buckets dbA) (fun bucket =>
                          bind (insert_bucket DoNothingAny user (b_name bucket) (b_sort bucket))
                               (fun _ => ret tt))))
                     (fun _ =>
                        bind
                          (for_each (users db) (fun user =>
                             for_each (buckets dbA) (fun globalBucket =>
                               bind (select_user_bucket user (b_name globalBucket))
                                    (fun userBucket =>
                                       match userBucket with
                                       | Some ub =>
                                           relink_entries user (b_id globalBucket) (b_id ub)
                                       | None => ret tt
                                       end))))
                          (fun _ => delete_global_buckets)))
                  (fun _ d => buckets d = [] /\ entries d = cascade (buckets db) (entries db)
                              /\ col_user_id d = true)
                  (fun _ => False)).
  { eapply hoare_bind.
    { apply clone_loop_skips; [exact HcA | exact HiA |].
      intros g Hg. split; [exact Hg |]. rewrite HbA in Hg.
      apply in_map_iff in Hg as (b & <- & Hb). cbn. apply Hsorts, Hb. }
    intros ?. eapply hoare_bind; [apply relink_loop_skips; [exact HcA | exact HglobalA] |].
    intros ? d (n & ->). unfold delete_global_buckets, bind, need_user_id. proj_db.
    rewrite HcA. cbn beta iota. proj_db. rewrite Hsel, HcA.
    rewrite (filter_none (fun b => negb (is_global b)) (buckets dbA))
      by (intros b Hb; rewrite (HglobalA b Hb); reflexivity).
    split; [reflexivity |]. split; [| reflexivity].
    rewrite HeA. apply cascade_ids. rewrite HbA, map_map. reflexivity. }
  specialize (Hafter dbA (ex_intro _ (bucket_seq dbA) HsA)).
  unfold Migrate.migrate, column_user_id_exists. unfold bind at 1. rewrite Hcol.
  cbn [negb]. unfold bind at 1. rewrite Hadd.
  unfold bind at 1. unfold select_global_buckets, bind at 1, need_user_id.
  rewrite HcA. cbn beta iota. rewrite Hsel.
  unfold bind at 1. unfold select_users at 1. rewrite HuA.
  assert (Hne : Migrate.nonempty (buckets dbA) && Migrate.nonempty (users db) = true).
  { rewrite HbA. destruct (buckets db); [contradiction |]. destruct (users db); [contradiction |].
    reflexivity. }
  rewrite Hne. unfold bind at 1.
  match type of Hafter with
  | match ?run with _ => _ end => destruct run as [[] dbD | e dbD]; [| contradiction]
  end.
  destruct Hafter as (HbD & HeD & HcD).
  unfold set_user_id_not_null, drop_index_name_unique, create_index_user_name_unique,
    bind, need_user_id.
  rewrite HcD, HbD. cbn [existsb]. proj_db. rewrite HcD.
  destruct (idx_user_name_unique dbD) eqn:Hi; proj_db; rewrite ?Hi.
  - eexists. split; [reflexivity |]. proj_db. auto.
  - rewrite HbD. cbn. eexists. split; [reflexivity |]. proj_db. auto.
Qed.

(** The earlier text of the script ([Migrate.migrate]) has no scan.  On
    the store the previous schema code leaves behind -- global buckets
    under the unique index on [name] -- every per-user copy collides with
    its original and is skipped, no entry is re-linked, and the
    unconditional DELETE of the global buckets cascades to every entry that
    referenced one: the run ends normally and the entries are gone.  This
    holds for every such store with a bucket and a user; for instance for
    the three default buckets and two entries of user 1.  The later text
    ([MigrateDryRun.migrate]) drops the index first and scans before it
    deletes. *)
Example migration_loses_entries :
  (forall db,
      col_user_id db = false -> idx_name_unique db = true ->
      buckets db <> [] -> users db <> [] ->
      (forall g, In g (buckets db) -> int4 (b_sort g) = true) ->
      exists db', Migrate.migrate db = Done tt db'
                  /\ buckets db' = []
                  /\ forall e, In e (entries db) ->
                               (exists b, In b (buckets db) /\ b_id b = e_bucket e) ->
                               ~ In e (entries db'))
  /\ (let legacy :=
        mkDB [1]
             [mkBucket 1 None "10 min calisthenics" 1; mkBucket 2 None "25 min cardio" 2;
              mkBucket 3 None "Stretching / mobility" 3]
             [mkEntry 1 1 (IsoDate.mk 2024 4 12) true;
              mkEntry 1 2 (IsoDate.mk 2024 4 12) true]
             4 false false true false in
      exists db', Migrate.migrate legacy = Done tt db'
                  /\ entries legacy <> []
                  /\ entries db' = []
                  /\ buckets db' = []).
Proof.
  split.
  - intros db Hcol Hidx Hbs Hus Hsorts.
    destruct (migrate_wipes_legacy db Hcol Hidx Hbs Hus Hsorts) as (db' & Hrun & Hb & He).
    exists db'. split; [exact Hrun |]. split; [exact Hb |].
    intros e _ (b & Hbin & Hid) Hin. rewrite He in Hin. unfold cascade in Hin.
    apply filter_In in Hin as [_ Hgone]. apply negb_true_iff in Hgone.
    assert (existsb (fun b => b_id b =? e_bucket e) (buckets db) = true); [| congruence].
    apply existsb_exists. exists b. split; [exact Hbin | apply Z.eqb_eq, Hid].
  - intros legacy. eexists. split; [vm_compute; reflexivity |].
    split; [discriminate |]. split; reflexivity.
Qed.

End MigrateFacts.

(* ================================================================== *)
(** * The streak *)

Section StreakFacts.
Import Store.

Lemma filter_filter_length {A} (f g : A -> bool) (l : list A) :
  length (List.filter g (List.filter f l)) = length (List.filter (fun x => f x && g x) l).
Proof.
  induction l as [| x l IH]; [reflexivity |].
  simpl. destruct (f x); simpl; [destruct (g x); simpl; congruence | exact IH].
Qed.

Lemma bucketIdSet_has (buckets : list App.Bucket) (x : Z) :
  bool_decide (x ∈ App.bucketIdSet buckets) = existsb (fun b => App.id b =? x) buckets.
Proof.
  unfold App.bucketIdSet. apply eq_true_iff_eq.
  rewrite bool_decide_eq_true, elem_of_list_to_set, list_elem_of_In, in_map_iff.
  rewrite existsb_exists. split.
  - intros (b & <- & Hb). exists b. split; [exact Hb | apply Z.eqb_refl].
  - intros (b & Hb & Heq). exists b. apply Z.eqb_eq in Heq. auto.
Qed.

(** The count the loop takes is the specification's checked count. *)
Lemma dayChecks_spec u buckets entries d :
  App.dayChecks (App.userEntriesOf u entries) (App.bucketIdSet buckets) d
  = Spec.checkedCount u buckets entries d.
Proof.
  unfold App.dayChecks, App.userEntriesOf, Spec.checkedCount.
  rewrite filter_filter_length. f_equal. apply List.filter_ext. intros e.
  rewrite bucketIdSet_has. rewrite !andb_assoc. reflexivity.
Qed.

Lemma daysBack_succ k d : Spec.daysBack (S k) d = Spec.daysBack k (IsoDate.prevDay d).
Proof. unfold Spec.daysBack. apply Nat.iter_succ_r. Qed.

Lemma daysBack_valid k d : IsoDate.validb d = true -> IsoDate.validb (Spec.daysBack k d) = true.
Proof.
  intros Hv. induction k as [| k IH]; [exact Hv |].
  unfold Spec.daysBack in *. cbn. apply prevDay_valid, IH.
Qed.

(** What the loop returns, when it returns. *)
Lemma streak_loop_spec E ids c fuel : forall date s n,
  App.streak_loop fuel E ids c date s = Some n ->
  exists k, n = (s + k)%nat
    /\ (forall j, (j < k)%nat -> (c <= App.dayChecks E ids (Spec.daysBack j date))%nat)
    /\ ~ (c <= App.dayChecks E ids (Spec.daysBack k date))%nat.
Proof.
  induction fuel as [| fuel IH]; intros date s n; [discriminate |].
  cbn [App.streak_loop].
  destruct (Nat.leb_spec c (App.dayChecks E ids date)) as [Hle | Hgt].
  - intros Hrec. apply IH in Hrec as (k & -> & Hall & Hstop).
    exists (S k). split; [lia |]. split.
    + intros [| j] Hj; [exact Hle |]. rewrite daysBack_succ. apply Hall. lia.
    + rewrite daysBack_succ. exact Hstop.
  - intros [= <-]. exists O. split; [lia |]. split; [intros j Hj; lia |].
    cbn. lia.
Qed.

Lemma rank_lower_bound (E : list EntryRow) :
  exists L, forall e, In e E -> L <= IsoDate.rank (e_date e).
Proof.
  induction E as [| e E [L HL]].
  - exists 0. intros e [].
  - exists (Z.min L (IsoDate.rank (e_date e))). intros e' [<- | He']; [lia |].
    specialize (HL e' He'). lia.
Qed.

(** The loop ends: a complete day has an entry, and the walk goes below
    every entry's date. *)
Lemma streak_loop_total E ids c L :
  (0 < c)%nat ->
  (forall e, In e E -> L <= IsoDate.rank (e_date e)) ->
  forall fuel date s,
    IsoDate.validb date = true ->
    Z.max 0 (IsoDate.rank date - L + 1) < Z.of_nat fuel ->
    exists n, App.streak_loop fuel E ids c date s = Some n.
Proof.
  intros Hc HL. induction fuel as [| fuel IH]; intros date s Hv Hfuel; [lia |].
  cbn [App.streak_loop].
  destruct (Nat.leb_spec c (App.dayChecks E ids date)) as [Hle | Hgt]; [| eauto].
  assert (Hrank : L <= IsoDate.rank date).
  { unfold App.dayChecks in Hle.
    destruct (List.filter _ E) as [| e rest] eqn:Hf; [cbn in Hle; lia |].
    assert (He : In e (List.filter
                         (fun e => IsoDate.eqb (e_date e) date
                                   && bool_decide (e_bucket e ∈ ids)) E))
      by (rewrite Hf; left; reflexivity).
    apply filter_In in He as [He Hd]. apply andb_true_iff in Hd as [Hd _].
    apply date_eqb_eq in Hd. rewrite <- Hd. apply HL, He. }
  apply IH; [apply prevDay_valid, Hv |].
  pose proof (prevDay_rank date Hv). lia.
Qed.

Lemma isStreak_unique u buckets entries today n m :
  Spec.isStreak u buckets entries today n ->
  Spec.isStreak u buckets entries today m -> n = m.
Proof.
  intros [Hn Hn'] [Hm Hm'].
  destruct (Nat.lt_trichotomy n m) as [Hlt | [-> | Hlt]]; [| reflexivity |].
  - exfalso. apply Hn', Hm, Hlt.
  - exfalso. apply Hm', Hn, Hlt.
Qed.

(** Whatever [userStreak] returns for a user who has buckets is the result
    of the specified walk. *)
Lemma userStreak_sound fuel u buckets entries today n :
  buckets <> [] ->
  App.userStreak fuel (Some u) buckets entries today = Some n ->
  Spec.isStreak u buckets entries today n.
Proof.
  intros Hne. unfold App.userStreak.
  destruct (Nat.eqb_spec (length buckets) 0) as [H0 | _];
    [destruct buckets; [congruence | discriminate] |].
  cbv zeta. rewrite dayChecks_spec. intros Hloop.
  apply streak_loop_spec in Hloop as (k & -> & Hall & Hstop). cbn [Nat.add].
  assert (Hstart : (if negb (length buckets <=? Spec.checkedCount u buckets entries today)%nat
                    then IsoDate.prevDay today else today)
                   = Spec.walkStart u buckets entries today).
  { unfold Spec.walkStart, Spec.complete.
    destruct (Nat.leb_spec (length buckets) (Spec.checkedCount u buckets entries today));
      cbn [negb]; destruct (decide _); try reflexivity; lia. }
  rewrite Hstart in Hall, Hstop. unfold Spec.isStreak, Spec.complete. cbv zeta. split.
  - intros j Hj. rewrite <- dayChecks_spec. apply Hall, Hj.
  - rewrite <- dayChecks_spec. exact Hstop.
Qed.

Lemma userStreak_total u buckets entries today :
  buckets <> [] -> IsoDate.validb today = true ->
  exists fuel n, App.userStreak fuel (Some u) buckets entries today = Some n.
Proof.
  intros Hne Hv.
  destruct (rank_lower_bound (App.userEntriesOf u entries)) as [L HL].
  set (start := if negb (length buckets
                         <=? App.dayChecks (App.userEntriesOf u entries)
                               (App.bucketIdSet buckets) today)%nat
                then IsoDate.prevDay today else today).
  assert (Hvs : IsoDate.validb start = true).
  { unfold start. destruct (negb _); [apply prevDay_valid, Hv | exact Hv]. }
  exists (S (Z.to_nat (Z.max 0 (IsoDate.rank start - L + 1)))).
  unfold App.userStreak.
  destruct (Nat.eqb_spec (length buckets) 0) as [H0 | Hlen];
    [destruct buckets; [congruence | discriminate] |].
  cbv zeta. fold start.
  apply (streak_loop_total _ _ _ L); [lia | exact HL | exact Hvs | lia].
Qed.




End StreakFacts.

(* ================================================================== *)
(** * The monthly completion percentage *)

Section PercentFacts.
Import Store.

(** The [for] loop counts the active days of the month. *)
Lemma activeDays_loop_spec month epoch today : forall steps (s : nat) count,
  App.activeDays_loop steps month epoch today (Z.of_nat s) count
  = (count + length (List.filter
                       (fun d => Spec.active epoch today
                                   (IsoDate.mk (fst month) (snd month) d))
                       (map Z.of_nat (seq s steps))))%nat.
Proof.
  induction steps as [| steps IH]; intros s count; [cbn; lia |].
  cbn [App.activeDays_loop seq map List.filter].
  replace (Z.of_nat s + 1) with (Z.of_nat (S s)) by lia. rewrite IH.
  unfold Spec.active at 2.
  destruct (IsoDate.leb epoch _ && IsoDate.leb _ today); cbn [length]; lia.
Qed.

Lemma activeDaysInMonth_spec month epoch today :
  App.activeDaysInMonth month epoch today = Spec.activeDays month epoch today.
Proof.
  unfold App.activeDaysInMonth, Spec.activeDays, Spec.daysOf. cbv zeta.
  change 1 with (Z.of_nat 1). rewrite activeDays_loop_spec. reflexivity.
Qed.

(** The condition under which the pass counts an entry for user [uid]. *)
Lemma countEntry_lookup epoch today allBuckets uid acc e :
  let counted :=
    e_checked e
    && negb (IsoDate.ltb (e_date e) epoch || IsoDate.ltb today (e_date e))
    && match List.find (fun b => App.id b =? e_bucket e) allBuckets with
       | Some b => App.userId b =? e_user e
       | None => false
       end
    && (e_user e =? uid) in
  default O (App.countEntry epoch today allBuckets acc e !! uid)
  = (default O (acc !! uid) + if counted then 1 else 0)%nat.
Proof.
  cbv zeta. unfold App.countEntry.
  destruct (e_checked e); cbn [negb andb]; [| lia].
  destruct (IsoDate.ltb (e_date e) epoch || IsoDate.ltb today (e_date e));
    cbn [negb andb]; [lia |].
  destruct (List.find _ allBuckets) as [b |]; cbn [andb]; [| lia].
  destruct (App.userId b =? e_user e); cbn [negb andb]; [| lia].
  destruct (Z.eqb_spec (e_user e) uid) as [-> | Hne].
  - rewrite lookup_insert_eq. cbn. lia.
  - rewrite lookup_insert_ne by exact Hne. lia.
Qed.

Lemma monthlyCompletionCounts_fold epoch today allBuckets uid entries : forall acc,
  let counted e :=
    e_checked e
    && negb (IsoDate.ltb (e_date e) epoch || IsoDate.ltb today (e_date e))
    && match List.find (fun b => App.id b =? e_bucket e) allBuckets with
       | Some b => App.userId b =? e_user e
       | None => false
       end
    && (e_user e =? uid) in
  default O (fold_left (App.countEntry epoch today allBuckets) entries acc !! uid)
  = (default O (acc !! uid) + length (List.filter counted entries))%nat.
Proof.
  cbv zeta.
  induction entries as [| e entries IH]; intros acc; [cbn; lia |].
  cbn [fold_left List.filter]. rewrite IH.
  pose proof (countEntry_lookup epoch today allBuckets uid acc e) as Hone.
  cbv zeta in Hone. rewrite Hone.
  match goal with |- context [if ?c then _ else _] => destruct c end; cbn [length]; lia.
Qed.

(** With ids unique, "the first bucket with this id belongs to the entry's
    user" is "the user owns a bucket with this id". *)
Lemma find_owned allBuckets uid bid :
  NoDup (map App.id allBuckets) ->
  match List.find (fun b => App.id b =? bid) allBuckets with
  | Some b => App.userId b =? uid
  | None => false
  end = Spec.ownedBy allBuckets uid bid.
Proof.
  unfold Spec.ownedBy. induction allBuckets as [| b bs IH]; [reflexivity |].
  cbn [map List.find existsb]. intros Hnd. apply NoDup_cons in Hnd as [Hnotin Hnd].
  destruct (Z.eqb_spec (App.id b) bid) as [Hid | Hne]; cbn [andb orb]; [| apply IH, Hnd].
  destruct (App.userId b =? uid); [reflexivity |]. cbn [orb].
  symmetry. apply not_true_is_false. intros Hex.
  apply existsb_exists in Hex as (b' & Hb' & Heq). apply andb_true_iff in Heq as [Heq _].
  apply Z.eqb_eq in Heq. apply Hnotin. apply list_elem_of_In, in_map_iff.
  exists b'. split; [congruence | exact Hb'].
Qed.

(** BETWEEN the month's bounds is "a day of the month". *)
Lemma monthBounds_inMonth month d :
  (let '(first, last) := Checkins.monthBounds month in
   IsoDate.leb first d && IsoDate.leb d last)
  = Spec.inMonth month d.
Proof.
  destruct month as [y m], d as [dy dm dd].
  unfold Checkins.monthBounds, Spec.inMonth, IsoDate.leb, IsoDate.ltb. cbn.
  set (dim := IsoDate.daysInMonth y m).
  destruct (Z.ltb_spec dy y), (Z.eqb_spec dy y), (Z.ltb_spec y dy), (Z.eqb_spec y dy),
           (Z.ltb_spec dm m), (Z.eqb_spec dm m), (Z.ltb_spec m dm), (Z.eqb_spec m dm),
           (Z.ltb_spec dd 1), (Z.ltb_spec dim dd), (Z.leb_spec 1 dd), (Z.leb_spec dd dim);
    cbn; try reflexivity; lia.
Qed.

Lemma get_month_entries t caller month payload db :
  Checkins.handler t (Some caller) Http.GET (Some month) payload db
  = Done (Http.mkResponse 200
            (Http.CheckinsBody (users db)
               (List.filter (fun e => Spec.inMonth month (e_date e)) (entries db)))) db.
Proof.
  unfold Checkins.handler.
  pose proof (monthBounds_inMonth month) as Hb.
  destruct (Checkins.monthBounds month) as [first last].
  unfold bind, Sql.select_users, Sql.entries_between, Http.sendJson, ret.
  do 3 f_equal. apply List.filter_ext. intros e. apply Hb.
Qed.

Lemma filter_filter {A} (f g : A -> bool) (l : list A) :
  List.filter g (List.filter f l) = List.filter (fun x => f x && g x) l.
Proof.
  induction l as [| x l IH]; [reflexivity |].
  simpl. destruct (f x); simpl; [destruct (g x); simpl; congruence | exact IH].
Qed.

(** The numerator the client computes from a month's fetch is the
    specified count over the ledger. *)
Lemma completedCount_spec epoch today month allBuckets uid ledger :
  NoDup (map App.id allBuckets) ->
  default O (App.monthlyCompletionCounts epoch today allBuckets
               (List.filter (fun e => Spec.inMonth month (e_date e)) ledger) !! uid)
  = Spec.completedInMonth ledger allBuckets uid month epoch today.
Proof.
  intros Hnd. unfold App.monthlyCompletionCounts.
  pose proof (monthlyCompletionCounts_fold epoch today allBuckets uid
                (List.filter (fun e => Spec.inMonth month (e_date e)) ledger) ∅) as Hfold.
  cbv zeta in Hfold. rewrite Hfold, lookup_empty. cbn [default from_option Nat.add].
  rewrite filter_filter. unfold Spec.completedInMonth. f_equal.
  apply List.filter_ext. intros e.
  unfold Spec.active, IsoDate.leb. rewrite negb_orb.
  destruct (Z.eqb_spec (e_user e) uid) as [Hu | Hu].
  - rewrite Hu, (find_owned allBuckets uid (e_bucket e) Hnd).
    destruct (Spec.inMonth month (e_date e)), (e_checked e),
             (negb (IsoDate.ltb (e_date e) epoch)), (negb (IsoDate.ltb today (e_date e))),
             (Spec.ownedBy allBuckets uid (e_bucket e)); reflexivity.
  - destruct (Spec.inMonth month (e_date e)), (e_checked e),
             (negb (IsoDate.ltb (e_date e) epoch)), (negb (IsoDate.ltb today (e_date e))),
             (Spec.ownedBy allBuckets uid (e_bucket e)),
             (List.find (fun b => App.id b =? e_bucket e) allBuckets) as [b |];
      try destruct (App.userId b =? e_user e); reflexivity.
Qed.

(** C4, as the code has it.  For the entries a GET of month M returns and
    bucket ids that are unique, the percentage shown for user U is 0 when
    U's bucket count times the number of active days of M is 0, and
    otherwise [Math.round] of the binary64 value (N / D) * 100, where N is
    the number of checked ledger entries of M dated within [epoch, today]
    whose bucket U currently owns and D is that product. *)
Theorem monthly_percentage t caller payload db us es month epoch today allBuckets U :
  NoDup (map App.id allBuckets) ->
  Checkins.handler t (Some caller) Http.GET (Some month) payload db
    = Done (Http.mkResponse 200 (Http.CheckinsBody us es)) db ->
  let N := Spec.completedInMonth (entries db) allBuckets U month epoch today in
  let D := (Spec.bucketCount allBuckets U * Spec.activeDays month epoch today)%nat in
  App.percent epoch today month allBuckets es U
  = (if (D =? 0)%nat then 0%float
     else App.Math_round ((App.number N / App.number D) * 100)%float)
  /\ (D = O -> App.percent epoch today month allBuckets es U = 0%float)
  /\ (Spec.bucketCount allBuckets U = O ->
      App.percent epoch today month allBuckets es U = 0%float).
Proof.
  intros Hnd Hget N D. rewrite get_month_entries in Hget.
  injection Hget as _ <-.
  assert (Hp : App.percent epoch today month allBuckets
                 (List.filter (fun e => Spec.inMonth month (e_date e)) (entries db)) U
               = if (D =? 0)%nat then 0%float
                 else App.Math_round ((App.number N / App.number D) * 100)%float).
  { unfold App.percent. cbv zeta.
    rewrite (completedCount_spec epoch today month allBuckets U (entries db) Hnd).
    unfold App.getTotalPossibleForUser, App.getBucketsForUser.
    rewrite activeDaysInMonth_spec. reflexivity. }
  split; [exact Hp |]. split.
  - intros HD. rewrite Hp, HD. reflexivity.
  - intros HB. rewrite Hp. unfold D. rewrite HB. reflexivity.
Qed.


Lemma monthly_percentage_witness :
  let ledger := [mkEntry 1 1 (IsoDate.mk 2024 4 2) true;
                 mkEntry 1 2 (IsoDate.mk 2024 4 2) true;
                 mkEntry 1 1 (IsoDate.mk 2024 3 30) true;
                 mkEntry 2 3 (IsoDate.mk 2024 4 2) true] in
  let db := mkDB [1; 2]
                 [mkBucket 1 (Some 1) "Strength" 1; mkBucket 2 (Some 1) "Mobility" 2;
                  mkBucket 3 (Some 2) "Cardio" 1]
                 ledger 4 true true false true in
  let allBuckets := [App.mkBucket 1 1 "Strength" 1; App.mkBucket 2 1 "Mobility" 2;
                     App.mkBucket 3 2 "Cardio" 1] in
  let es := [mkEntry 1 1 (IsoDate.mk 2024 4 2) true;
             mkEntry 1 2 (IsoDate.mk 2024 4 2) true;
             mkEntry 2 3 (IsoDate.mk 2024 4 2) true] in
  let month := (2024, 4) in
  let epoch := IsoDate.mk 2024 4 1 in
  let today := IsoDate.mk 2024 4 3 in
  let N := Spec.completedInMonth ledger allBuckets 1 month epoch today in
  let D := (Spec.bucketCount allBuckets 1 * Spec.activeDays month epoch today)%nat in
  App.percent epoch today month allBuckets es 1
  = (if (D =? 0)%nat then 0%float
     else App.Math_round ((App.number N / App.number D) * 100)%float).
Proof.
  intros ledger db allBuckets es month epoch today N D.
  assert (Hnd : NoDup (map App.id allBuckets))
    by (apply (bool_decide_unpack _); vm_compute; exact I).
  assert (Hget : Checkins.handler (IsoDate.mk 2024 4 3) (Some 1) Http.GET (Some (2024, 4))
                   None db
                 = Done (Http.mkResponse 200 (Http.CheckinsBody [1; 2] es)) db)
    by reflexivity.
  exact (proj1 (monthly_percentage (IsoDate.mk 2024 4 3) 1 None db [1; 2] es (2024, 4)
                  (IsoDate.mk 2024 4 1) (IsoDate.mk 2024 4 3) allBuckets 1 Hnd Hget)).
Defined.

(** C4 as stated fails where the exact quotient is a half-integer that
    binary64 misses: 23 checked entries out of 5 buckets x 8 active days
    give exactly 57.5, which rounds to 58, while (23 / 40) * 100 evaluates
    to 57.499999999999993 and the code shows 57. *)
Example percentage_rounds_the_float :
  let days := [1; 2; 3; 4] in
  let ledger :=
    (flat_map (fun d => map (fun b => mkEntry 1 b (IsoDate.mk 2024 4 d) true)
                            [1; 2; 3; 4; 5]) days
     ++ map (fun b => mkEntry 1 b (IsoDate.mk 2024 4 5) true) [1; 2; 3])%list in
  let db := mkDB [1] (map (fun b => mkBucket b (Some 1) "habit" b) [1; 2; 3; 4; 5])
                 ledger 6 true true false true in
  let allBuckets := map (fun b => App.mkBucket b 1 "habit" b) [1; 2; 3; 4; 5] in
  let epoch := IsoDate.mk 2024 4 1 in
  let today := IsoDate.mk 2024 4 8 in
  let N := Spec.completedInMonth ledger allBuckets 1 (2024, 4) epoch today in
  let month := (2024, 4) in
  let D := (Spec.bucketCount allBuckets 1 * Spec.activeDays month epoch today)%nat in
  Checkins.handler today (Some 1) Http.GET (Some (2024, 4)) None db
    = Done (Http.mkResponse 200 (Http.CheckinsBody [1] ledger)) db
  /\ N = 23%nat /\ D = 40%nat
  /\ Spec.roundHalfUp (100 * Z.of_nat N) (Z.of_nat D) = 58
  /\ App.percent epoch today (2024, 4) allBuckets ledger 1 = 57%float
  /\ App.percent epoch today (2024, 4) allBuckets ledger 1
     <> App.number (Z.to_nat (Spec.roundHalfUp (100 * Z.of_nat N) (Z.of_nat D))).
Proof.
  cbv zeta. split; [vm_compute; reflexivity |].
  split; [vm_compute; reflexivity |]. split; [vm_compute; reflexivity |].
  split; [vm_compute; reflexivity |]. split; [vm_compute; reflexivity |].
  intros Heq. apply (f_equal (fun x => PrimFloat.ltb x 57.5%float)) in Heq.
  vm_compute in Heq. discriminate Heq.
Qed.

(** The specification's worked example: 3 buckets, epoch 2024-04-01, today
    2024-04-15, 20 checked entries in the window: 44. *)
Example percentage_worked_example :
  let ledger :=
    (flat_map (fun d => map (fun b => mkEntry 1 b (IsoDate.mk 2024 4 d) true) [1; 2; 3])
              [1; 2; 3; 4; 5; 6]
     ++ map (fun b => mkEntry 1 b (IsoDate.mk 2024 4 7) true) [1; 2])%list in
  let allBuckets := map (fun b => App.mkBucket b 1 "habit" b) [1; 2; 3] in
  length ledger = 20%nat
  /\ App.activeDaysInMonth (2024, 4) (IsoDate.mk 2024 4 1) (IsoDate.mk 2024 4 15) = 15%nat
  /\ App.percent (IsoDate.mk 2024 4 1) (IsoDate.mk 2024 4 15) (2024, 4) allBuckets ledger 1
     = 44%float.
Proof. cbv zeta. repeat split; vm_compute; reflexivity. Qed.

End PercentFacts.

(* ================================================================== *)
(** * Integrity of the store under the API *)

Section IntegrityFacts.
Import Store Sql Http Js.

Lemma same_slot_key u b d e :
  same_slot u b d e = true <->
  entry_key e = (u, b, (IsoDate.year d, IsoDate.month d, IsoDate.day d)).
Proof.
  unfold same_slot, entry_key. rewrite !andb_true_iff, !Z.eqb_eq, date_eqb_eq.
  destruct d as [y m dd], (e_date e) as [y' m' d']. cbn. split.
  - intros [[-> ->] H]. injection H as -> -> ->. reflexivity.
  - intros H. injection H as -> -> -> -> ->. auto.
Qed.

Lemma bucket_id_in i (bs : list BucketRow) :
  existsb (fun b => b_id b =? i) bs = true <-> In i (map b_id bs).
Proof.
  rewrite existsb_exists, in_map_iff. split.
  - intros (b & Hb & Hi). apply Z.eqb_eq in Hi. eauto.
  - intros (b & Hi & Hb). exists b. split; [exact Hb | apply Z.eqb_eq, Hi].
Qed.

Lemma user_in u (us : list Z) : existsb (Z.eqb u) us = true <-> In u us.
Proof.
  rewrite existsb_exists. split.
  - intros (v & Hv & Huv). apply Z.eqb_eq in Huv. subst. exact Hv.
  - intros Hu. exists u. split; [exact Hu | apply Z.eqb_refl].
Qed.

Lemma wf_with_seq n db : Integrity.Wf db -> Integrity.Wf (with_seq n db).
Proof. unfold Integrity.Wf, Integrity.Refs. proj_db. auto. Qed.

Lemma insert_row_wf u nm sort db :
  Integrity.Wf db ->
  pk_taken (bucket_seq db) db = false ->
  existsb (Z.eqb u) (users db) = true ->
  Integrity.Wf (with_buckets (buckets db ++ [mkBucket (bucket_seq db) (Some u) nm sort])
                  (with_seq (bucket_seq db + 1) db)).
Proof.
  intros (Hpk & Hkeys & (Hfk & Hfu & Hbu) & Hdate) Hfree Hu.
  unfold Integrity.Wf, Integrity.Refs. proj_db.
  split; [| split; [exact Hkeys | split; [split; [| split; [exact Hfu |]] | exact Hdate]]].
  - rewrite map_app. cbn. apply NoDup_app. split; [exact Hpk |].
    split; [| apply NoDup_singleton].
    intros i Hi Hi'. apply list_elem_of_In in Hi, Hi'. destruct Hi' as [<- | []].
    apply bucket_id_in in Hi. unfold pk_taken in Hfree. congruence.
  - intros e He. destruct (Hfk e He) as (b & Hb & Hid).
    exists b. split; [apply in_or_app; left; exact Hb | exact Hid].
  - intros b v Hb Hv. apply in_app_or in Hb as [Hb | [<- | []]]; [eapply Hbu; eauto |].
    cbn in Hv. injection Hv as <-. apply user_in, Hu.
Qed.

Lemma insert_bucket_wf mode u nm sort db :
  Integrity.Wf db -> Integrity.Wf (final (insert_bucket mode u nm sort db)).
Proof.
  intros HW. pose proof (wf_with_seq (bucket_seq db + 1) db HW) as Hsame.
  pose proof (insert_row_wf u nm sort db HW) as Happ.
  unfold insert_bucket, bind.
  destruct (need_user_id_cases db) as [[_ ->] | [_ ->]]; cbn beta iota; [| exact HW].
  destruct (negb (int4 sort)); [exact HW |].
  unfold pk_taken in *.
  destruct (existsb (fun b => b_id b =? bucket_seq db) (buckets db));
    destruct mode, (idx_user_name_unique db), (user_name_taken u nm db),
             (name_taken nm db), (existsb (Z.eqb u) (users db));
    cbn [orb negb final]; first [exact HW | exact Hsame | apply Happ; reflexivity].
Qed.

Lemma update_bucket_wf i u n s db :
  Integrity.Wf db -> Integrity.Wf (final (update_bucket i u n s db)).
Proof.
  intros HW. pose proof HW as (Hpk & Hkeys & (Hfk & Hfu & Hbu) & Hdate).
  unfold update_bucket, bind.
  destruct (need_user_id_cases db) as [[_ ->] | [_ ->]]; cbn beta iota; [| exact HW].
  destruct (negb (int4 (default 0 s))); [exact HW |].
  match goal with |- context [if ?c then _ else _] => destruct c end; [exact HW |].
  unfold Integrity.Wf, Integrity.Refs. proj_db.
  assert (Hids : forall l : list BucketRow,
             map b_id (map (fun b => if (b_id b =? i) && owned_by u b
                                     then update_row n s b else b) l) = map b_id l).
  { induction l as [| b l IH]; [reflexivity |]. cbn. rewrite IH.
    destruct ((b_id b =? i) && owned_by u b); reflexivity. }
  rewrite Hids.
  split; [exact Hpk | split; [exact Hkeys | split; [split; [| split; [exact Hfu |]] | exact Hdate]]].
  - intros e He. destruct (Hfk e He) as (b & Hb & Hid).
    assert (Hin : In (e_bucket e) (map b_id (buckets db)))
      by (apply in_map_iff; eauto).
    rewrite <- Hids in Hin. apply in_map_iff in Hin as (b' & Hb' & Hin). eauto.
  - intros b v Hb Hv. apply in_map_iff in Hb as (b0 & <- & Hb0).
    apply (Hbu b0 v Hb0). destruct ((b_id b0 =? i) && owned_by u b0); exact Hv.
Qed.

Lemma NoDup_map_filter {A B} (f : A -> B) (p : A -> bool) (l : list A) :
  NoDup (map f l) -> NoDup (map f (List.filter p l)).
Proof.
  induction l as [| x l IH]; cbn; [auto |]. intros Hnd.
  apply NoDup_cons in Hnd as [Hx Hnd]. destruct (p x); [| apply IH, Hnd].
  cbn. apply NoDup_cons. split; [| apply IH, Hnd].
  intros Hin. apply Hx. apply list_elem_of_In. apply list_elem_of_In in Hin.
  apply in_map_iff in Hin as (y & Hy & Hin). apply filter_In in Hin as [Hin _].
  apply in_map_iff. eauto.
Qed.

(** Deleting buckets with their cascade keeps the constraints. *)
Lemma delete_with_cascade_wf (hit : BucketRow -> bool) db :
  Integrity.Wf db ->
  Integrity.Wf (with_entries (cascade (List.filter hit (buckets db)) (entries db))
                  (with_buckets (List.filter (fun b => negb (hit b)) (buckets db)) db)).
Proof.
  intros (Hpk & Hkeys & (Hfk & Hfu & Hbu) & Hdate).
  unfold Integrity.Wf, Integrity.Refs. proj_db.
  split; [apply NoDup_map_filter, Hpk |]. split; [apply NoDup_map_filter, Hkeys |].
  split; [split; [| split] |].
  - intros e He. unfold cascade in He. apply filter_In in He as [He Hkeep].
    destruct (Hfk e He) as (b & Hb & Hid). exists b. split; [| exact Hid].
    apply filter_In. split; [exact Hb |].
    destruct (hit b) eqn:Hh; [| reflexivity]. exfalso.
    apply negb_true_iff in Hkeep.
    assert (existsb (fun b => b_id b =? e_bucket e) (List.filter hit (buckets db)) = true);
      [| congruence].
    apply existsb_exists. exists b. split; [apply filter_In; auto | apply Z.eqb_eq, Hid].
  - intros e He. apply filter_In in He as [He _]. apply Hfu, He.
  - intros b v Hb. apply filter_In in Hb as [Hb _]. apply Hbu, Hb.
  - intros e He. apply filter_In in He as [He _]. apply Hdate, He.
Qed.

Lemma delete_bucket_wf i u db :
  Integrity.Wf db -> Integrity.Wf (final (delete_bucket i u db)).
Proof.
  intros HW. unfold delete_bucket, bind.
  destruct (need_user_id_cases db) as [[_ ->] | [_ ->]]; cbn beta iota; [| exact HW].
  cbn [final]. apply (delete_with_cascade_wf _ db HW).
Qed.

Lemma upsert_entry_wf u b d chk db :
  Integrity.Wf db -> Integrity.Wf (final (upsert_entry u b d chk db)).
Proof.
  intros HW. pose proof HW as (Hpk & Hkeys & (Hfk & Hfu & Hbu) & Hdate).
  unfold upsert_entry.
  destruct (IsoDate.validb d) eqn:Hvalid; cbn [negb]; [| exact HW].
  destruct (existsb (same_slot u b d) (entries db)) eqn:Hex.
  - unfold Integrity.Wf, Integrity.Refs. cbn [final]. proj_db.
    assert (Hmap : forall l : list EntryRow,
               map entry_key (map (fun e => if same_slot u b d e
                                            then mkEntry (e_user e) (e_bucket e) (e_date e) chk
                                            else e) l) = map entry_key l).
    { induction l as [| e l IH]; [reflexivity |]. cbn. rewrite IH.
      destruct (same_slot u b d e); reflexivity. }
    rewrite Hmap. split; [exact Hpk |]. split; [exact Hkeys |].
    split; [split; [| split; [| exact Hbu]] |].
    + intros e He. apply in_map_iff in He as (e0 & <- & He0).
      destruct (Hfk e0 He0) as (r & Hr & Hid). exists r. split; [exact Hr |].
      destruct (same_slot u b d e0); exact Hid.
    + intros e He. apply in_map_iff in He as (e0 & <- & He0).
      pose proof (Hfu e0 He0). destruct (same_slot u b d e0); assumption.
    + intros e He. apply in_map_iff in He as (e0 & <- & He0).
      pose proof (Hdate e0 He0). destruct (same_slot u b d e0); assumption.
  - destruct (existsb (Z.eqb u) (users db)) eqn:Hu; cbn [orb negb]; [| exact HW].
    destruct (existsb (fun r => b_id r =? b) (buckets db)) eqn:Hb; cbn [negb]; [| exact HW].
    unfold Integrity.Wf, Integrity.Refs. cbn [final]. proj_db.
    split; [exact Hpk |]. split; [| split; [split; [| split; [| exact Hbu]] |]].
    + rewrite map_app. cbn. apply NoDup_app. split; [exact Hkeys |].
      split; [| apply NoDup_singleton].
      intros k Hk Hk'. apply list_elem_of_In in Hk, Hk'. destruct Hk' as [<- | []].
      apply in_map_iff in Hk as (e & Hk & He).
      assert (existsb (same_slot u b d) (entries db) = true); [| congruence].
      apply existsb_exists. exists e. split; [exact He |]. apply same_slot_key, Hk.
    + intros e He. apply in_app_or in He as [He | [<- | []]]; [apply Hfk, He |].
      apply existsb_exists in Hb as (r & Hr & Hid). apply Z.eqb_eq in Hid. eauto.
    + intros e He. apply in_app_or in He as [He | [<- | []]]; [apply Hfu, He |].
      apply user_in, Hu.
    + intros e He. apply in_app_or in He as [He | [<- | []]]; [apply Hdate, He |].
      exact Hvalid.
Qed.

Lemma seed_wf u db :
  Integrity.Wf db -> Integrity.Wf (final (DbLib.seedBucketsForUser u db)).
Proof.
  revert db. apply hoare_final. unfold DbLib.seedBucketsForUser.
  eapply hoare_bind; [apply has_bucket_hoare; auto |]. intros existing.
  apply hoare_if; intros _; [apply hoare_ret; intuition |].
  eapply hoare_weaken with (P' := Integrity.Wf) (Q' := fun _ => Integrity.Wf)
                           (E' := Integrity.Wf); [| intuition | auto | auto].
  apply hoare_for_each. intros [nm sort] _.
  eapply hoare_bind; [| intros ?; apply hoare_ret; intros db H; exact H].
  apply final_hoare. intros db. apply insert_bucket_wf.
Qed.

Lemma resetData_wf db :
  Integrity.Wf db -> Integrity.Wf (final (DbLib.resetData db)).
Proof.
  revert db. apply hoare_final. unfold DbLib.resetData.
  eapply hoare_bind with (Q := fun _ => Integrity.Wf).
  { apply final_hoare. intros db (Hpk & _ & (_ & _ & Hbu) & _). cbn.
    unfold Integrity.Wf, Integrity.Refs. proj_db.
    repeat split; auto; try constructor; intros e []. }
  intros ?. eapply hoare_bind with (Q := fun _ => Integrity.Wf).
  { apply final_hoare. intros db HW. cbn [delete_all_buckets final].
    pose proof (delete_with_cascade_wf (fun _ => true) db HW) as H.
    rewrite filter_all in H by auto. rewrite filter_none in H by auto. exact H. }
  intros ?. eapply hoare_bind with (Q := fun _ => Integrity.Wf).
  { apply final_hoare. intros db HW. exact HW. }
  intros allUsers. apply hoare_for_each. intros v _.
  apply final_hoare. intros db. apply seed_wf.
Qed.

Lemma exec_wf op db : Integrity.Wf db -> Integrity.Wf (Registry.exec op db).
Proof.
  destruct op as [u p | u p | u p | u | caller isAdmin | today u p]; cbn [Registry.exec];
    revert db; apply hoare_final.
  - unfold Buckets.handler.
    eapply hoare_bind; [apply optional_trim_hoare; auto |]. intros t.
    destruct (Buckets.or_null t) as [nm |]; [| apply sendJson_hoare; auto].
    eapply hoare_bind; [apply count_buckets_hoare; auto |]. intros n.
    apply hoare_if; intros _; [apply sendJson_hoare; intuition |].
    eapply hoare_bind; [apply max_sort_order_hoare; intuition |]. intros mx.
    eapply hoare_bind; [| intros row; apply sendJson_hoare; intros db H; exact H].
    apply final_hoare. intros db [HW _]. apply insert_bucket_wf, HW.
  - unfold Buckets.handler.
    apply hoare_if; intros _; [apply sendJson_hoare; auto |].
    eapply hoare_bind; [apply owner_check_hoare; auto |]. intros owner.
    apply hoare_if; intros _; [apply sendJson_hoare; auto |].
    eapply hoare_bind; [apply optional_trim_hoare; auto |]. intros t.
    eapply hoare_bind; [| intros row; apply sendJson_hoare; intros db H; exact H].
    apply final_hoare. intros db. apply update_bucket_wf.
  - unfold Buckets.handler.
    apply hoare_if; intros _; [apply sendJson_hoare; auto |].
    eapply hoare_bind; [apply owner_check_hoare; auto |]. intros owner.
    apply hoare_if; intros _; [apply sendJson_hoare; auto |].
    eapply hoare_bind; [| intros row; apply sendJson_hoare; intros db H; exact H].
    apply final_hoare. intros db. apply delete_bucket_wf.
  - apply final_hoare. intros db. apply seed_wf.
  - unfold Admin.handler.
    apply hoare_if; intros _; [apply sendJson_hoare; auto |].
    eapply hoare_bind; [| intros ?; apply sendJson_hoare; intros db H; exact H].
    apply final_hoare. intros db. apply resetData_wf.
  - apply final_hoare. intros db HW. unfold Checkins.handler.
    destruct (Checkins.missing_fields (Some p)); [exact HW |].
    destruct p as [[b |] [d |] c]; try exact HW.
    match goal with |- context [if ?c then _ else _] => destruct c end; [exact HW |].
    unfold bind. pose proof (upsert_entry_wf u b d (strict_neq_false c) db HW) as Hup.
    destruct (upsert_entry u b d (strict_neq_false c) db); exact Hup.
Qed.

(** X1.  The requests of the API keep the declared constraints of the
    store: after any sequence of bucket creations, updates and removals,
    signup seedings, admin resets and check-ins, answered or failed,
    bucket ids are still unique, there is still at most one entry per
    (user, bucket, date), every entry still refers to an existing bucket
    and an existing user, every bucket to an existing user, and every
    stored date is a calendar date. *)
Theorem api_keeps_integrity (db : DB) (ops : list Registry.Op) :
  Integrity.Wf db -> Integrity.Wf (Registry.run ops db).
Proof.
  revert db. induction ops as [| op ops IH]; intros db HW; [exact HW |].
  cbn. apply IH, exec_wf, HW.
Qed.

Lemma api_keeps_integrity_witness :
  let db := mkDB [1] [mkBucket 1 (Some 1) "Run" 1]
                 [mkEntry 1 1 (IsoDate.mk 2024 4 15) true] 2 true true false true in
  let ops := [Registry.CheckIn (IsoDate.mk 2024 4 16) 1
                (Checkins.mkPayload (Some 1) (Some (IsoDate.mk 2024 4 16)) (JBool true));
              Registry.Remove 1 (Buckets.mkPayload (Some 1) JUndefined JUndefined)] in
  Integrity.Wf (Registry.run ops db).
Proof.
  intros db ops. apply (api_keeps_integrity db ops).
  unfold Integrity.Wf, Integrity.Refs. cbn.
  split; [apply NoDup_singleton | split; [apply NoDup_singleton | split; [split; [| split] |]]].
  - intros e [<- | []]. eexists. split; [left; reflexivity | reflexivity].
  - intros e [<- | []]. left. reflexivity.
  - intros b u [<- | []] H. injection H as <-. left. reflexivity.
  - intros e [<- | []]. reflexivity.
Defined.

End IntegrityFacts.

(* ================================================================== *)
(** * Check-ins: writing and reading back *)

Section CheckinRoundTrip.
Import Store Sql Http Js.

Lemma same_slot_self u b d chk : same_slot u b d (mkEntry u b d chk) = true.
Proof. unfold same_slot. cbn. rewrite !Z.eqb_refl, date_eqb_refl. reflexivity. Qed.

Lemma same_slot_row u b d chk e :
  same_slot u b d e = true ->
  mkEntry (e_user e) (e_bucket e) (e_date e) chk = mkEntry u b d chk.
Proof.
  unfold same_slot. rewrite !andb_true_iff, !Z.eqb_eq, date_eqb_eq.
  intros [[-> ->] ->]. reflexivity.
Qed.

Local Abbreviation overwrite u b d chk :=
  (fun e => if same_slot u b d e
            then mkEntry (e_user e) (e_bucket e) (e_date e) chk else e).

Lemma overwrite_slot u b d chk e :
  same_slot u b d (overwrite u b d chk e) = same_slot u b d e.
Proof.
  cbv beta. destruct (same_slot u b d e) eqn:H; [| exact H].
  rewrite (same_slot_row u b d chk e H). apply same_slot_self.
Qed.

Lemma overwrite_others u b d chk (l : list EntryRow) :
  List.filter (fun e => negb (same_slot u b d e)) (map (overwrite u b d chk) l)
  = List.filter (fun e => negb (same_slot u b d e)) l.
Proof.
  induction l as [| e l IH]; [reflexivity |]. cbn [map List.filter].
  rewrite (overwrite_slot u b d chk e), IH. destruct (same_slot u b d e); reflexivity.
Qed.

Lemma slot_absent u b d (l : list EntryRow) :
  existsb (same_slot u b d) l = false -> List.filter (same_slot u b d) l = [].
Proof.
  induction l as [| e l IH]; [reflexivity |]. cbn.
  destruct (same_slot u b d e); cbn; [discriminate | exact IH].
Qed.

Lemma overwrite_slot_rows u b d chk (l : list EntryRow) :
  NoDup (map entry_key l) ->
  existsb (same_slot u b d) l = true ->
  List.filter (same_slot u b d) (map (overwrite u b d chk) l) = [mkEntry u b d chk].
Proof.
  induction l as [| e l IH]; [discriminate |]. cbn [map existsb List.filter].
  intros Hnd Hex. apply NoDup_cons in Hnd as [Hfresh Hnd].
  rewrite (overwrite_slot u b d chk e). destruct (same_slot u b d e) eqn:He.
  - rewrite (same_slot_row u b d chk e He). f_equal.
    apply slot_absent. destruct (existsb (same_slot u b d) (map (overwrite u b d chk) l)) eqn:Hx;
      [| reflexivity].
    exfalso. apply Hfresh. apply existsb_exists in Hx as (e' & Hin & Hs).
    apply in_map_iff in Hin as (e0 & <- & Hin).
    rewrite (overwrite_slot u b d chk e0) in Hs.
    apply same_slot_key in He, Hs. rewrite He, <- Hs.
    apply list_elem_of_In, in_map, Hin.
  - apply IH; [exact Hnd | exact Hex].
Qed.

Lemma upsert_entry_rows u b d chk db db' :
  NoDup (map entry_key (entries db)) ->
  upsert_entry u b d chk db = Done tt db' ->
  IsoDate.validb d = true
  /\ List.filter (same_slot u b d) (entries db') = [mkEntry u b d chk]
  /\ List.filter (fun e => negb (same_slot u b d e)) (entries db')
     = List.filter (fun e => negb (same_slot u b d e)) (entries db)
  /\ buckets db' = buckets db.
Proof.
  intros Hnd. unfold upsert_entry.
  destruct (IsoDate.validb d); cbn [negb]; [| discriminate].
  destruct (existsb (same_slot u b d) (entries db)) eqn:Hex.
  - intros H. injection H as <-. proj_db. split; [reflexivity |].
    split; [apply (overwrite_slot_rows u b d chk _ Hnd Hex) |].
    split; [apply overwrite_others | reflexivity].
  - destruct (_ || _); [discriminate |]. intros H. injection H as <-. proj_db.
    split; [reflexivity |]. rewrite !List.filter_app. cbn [List.filter]. rewrite same_slot_self. cbn [negb].
    rewrite (slot_absent _ _ _ _ Hex), app_nil_r. auto.
Qed.

(** X2.  A check-in that the server accepts is what a later read of that
    month returns for the slot: whoever asks for the month of the date
    gets exactly one entry for (user, bucket, date), carrying the flag
    just written, whether the slot was new or already had a row.  All
    other entries and all buckets are as before. *)
Theorem checkin_then_month_read today today' u v b d c db r db' :
  NoDup (map entry_key (entries db)) ->
  b <> 0 ->
  Checkins.handler today (Some u) POST None
    (Some (Checkins.mkPayload (Some b) (Some d) c)) db = Done r db' ->
  status r = 200 ->
  exists es,
    Checkins.handler today' (Some v) GET (Some (IsoDate.year d, IsoDate.month d)) None db'
    = Done (mkResponse 200 (CheckinsBody (users db') es)) db'
    /\ List.filter (same_slot u b d) es = [mkEntry u b d (strict_neq_false c)]
    /\ List.filter (fun e => negb (same_slot u b d e)) (entries db')
       = List.filter (fun e => negb (same_slot u b d e)) (entries db)
    /\ buckets db' = buckets db.
Proof.
  intros Hnd Hb Hpost Hst. rewrite (checkins_post_unfold today u None b d c db Hb) in Hpost.
  destruct (_ || _); [injection Hpost as <- <-; discriminate |].
  destruct (upsert_entry u b d (strict_neq_false c) db) as [[] db1 | ex db1] eqn:Hup;
    [| discriminate].
  injection Hpost as _ <-.
  destruct (upsert_entry_rows u b d _ db db1 Hnd Hup) as (Hvalid & Hslot & Hothers & Hbk).
  eexists. split; [apply get_month_entries |]. split; [| split; [exact Hothers | exact Hbk]].
  rewrite <- Hslot, filter_filter. apply filter_ext. intros e.
  destruct (same_slot u b d e) eqn:Hs; [| apply andb_false_r]. rewrite andb_true_r.
  unfold same_slot in Hs. rewrite !andb_true_iff, date_eqb_eq in Hs.
  destruct Hs as [_ ->]. unfold Spec.inMonth. cbn [fst snd].
  unfold IsoDate.validb in Hvalid. rewrite !andb_true_iff in Hvalid.
  destruct Hvalid as [[_ H1] H2]. rewrite !Z.eqb_refl, H1, H2. reflexivity.
Qed.

Lemma checkin_then_month_read_witness :
  let today := IsoDate.mk 2024 4 16 in
  let db := mkDB [1; 2] [mkBucket 1 (Some 1) "Run" 1]
                 [mkEntry 1 1 today true] 2 true true false true in
  let db' := with_entries [mkEntry 1 1 today false] db in
  exists es,
    Checkins.handler today (Some 2) GET (Some (2024, 4)) None db'
    = Done (mkResponse 200 (CheckinsBody (users db') es)) db'
    /\ List.filter (same_slot 1 1 today) es = [mkEntry 1 1 today false].
Proof.
  intros today db db'.
  destruct (checkin_then_month_read today today 1 2 1 today (JBool false) db
              (mkResponse 200 OkBody) db') as (es & Hget & Hslot & _).
  - apply NoDup_singleton.
  - discriminate.
  - reflexivity.
  - reflexivity.
  - exists es. split; [exact Hget | exact Hslot].
Defined.

End CheckinRoundTrip.

(* ================================================================== *)
(** * The dashboard and the server's edit window *)

Section EditWindowFacts.
Import Store Sql Http Js.

Lemma valid_bounds (d : IsoDate.t) :
  IsoDate.validb d = true ->
  1 <= IsoDate.month d <= 12 /\ 1 <= IsoDate.day d <= 31.
Proof.
  intros H. apply validb_spec in H as [Hm Hd].
  pose proof (daysInMonth_bounds (IsoDate.year d) (IsoDate.month d)). lia.
Qed.

Lemma ltb_rank_valid (a b : IsoDate.t) :
  IsoDate.validb a = true -> IsoDate.validb b = true ->
  IsoDate.ltb a b = true <-> IsoDate.rank a < IsoDate.rank b.
Proof.
  intros Ha Hb. destruct (valid_bounds a Ha), (valid_bounds b Hb).
  apply date_ltb_rank; assumption.
Qed.

Lemma rank_inj (a b : IsoDate.t) :
  IsoDate.validb a = true -> IsoDate.validb b = true ->
  IsoDate.rank a = IsoDate.rank b -> a = b.
Proof.
  intros Ha Hb. destruct (valid_bounds a Ha), (valid_bounds b Hb).
  destruct a as [ya ma da], b as [yb mb db]. unfold IsoDate.rank. cbn in *.
  intros Hr. assert (ya = yb) by lia. assert (ma = mb) by lia.
  assert (da = db) by lia. congruence.
Qed.

(** No date of the calendar lies strictly between a day and the day
    before it. *)
Lemma prevDay_is_predecessor (d x : IsoDate.t) :
  IsoDate.validb d = true -> IsoDate.validb x = true ->
  IsoDate.rank d < IsoDate.rank x -> IsoDate.rank d <= IsoDate.rank (IsoDate.prevDay x).
Proof.
  intros Hd Hx. apply validb_spec in Hd as [Hdm Hdd], Hx as [Hxm Hxd].
  pose proof (daysInMonth_bounds (IsoDate.year d) (IsoDate.month d)) as Hb.
  destruct d as [yd md dd], x as [yx mx dx]. unfold IsoDate.prevDay, IsoDate.rank.
  cbn [IsoDate.year IsoDate.month IsoDate.day] in *.
  destruct (Z.ltb_spec 1 dx); cbn [IsoDate.year IsoDate.month IsoDate.day]; [lia |].
  destruct (Z.ltb_spec 1 mx); cbn [IsoDate.year IsoDate.month IsoDate.day].
  - pose proof (daysInMonth_bounds yx (mx - 1)) as Hb'.
    intros Hlt. destruct (Z.eq_dec yd yx) as [-> |]; [| lia].
    destruct (Z.eq_dec md (mx - 1)) as [-> |]; lia.
  - lia.
Qed.

(** X3.  The server's edit window is the dashboard's list of editable
    dates: when both read the same calendar date, a date passes the
    window check of [POST /api/checkins] exactly if it is one of the
    three dates the dashboard offers (today, yesterday, two days ago). *)
Theorem window_is_editable_dates (today d : IsoDate.t) :
  IsoDate.validb today = true -> IsoDate.validb d = true ->
  (IsoDate.ltb d (IsoDate.prevDay (IsoDate.prevDay today)) || IsoDate.ltb today d = false
   <-> In d (Dashboard.editableDates today)).
Proof.
  intros Ht Hd.
  pose proof (prevDay_valid today Ht) as Hp.
  pose proof (prevDay_valid _ Hp) as Hpp.
  pose proof (prevDay_rank today Ht) as Hr1.
  pose proof (prevDay_rank _ Hp) as Hr2.
  rewrite orb_false_iff, <- !not_true_iff_false.
  rewrite (ltb_rank_valid d _ Hd Hpp), (ltb_rank_valid today d Ht Hd).
  unfold Dashboard.editableDates, Nat.iter. cbn [seq map nat_rect In]. split.
  - intros [Hlo Hhi].
    destruct (Z.eq_dec (IsoDate.rank d) (IsoDate.rank today)) as [E | N];
      [left; symmetry; apply rank_inj; auto |].
    pose proof (prevDay_is_predecessor d today Hd Ht ltac:(lia)) as H1.
    destruct (Z.eq_dec (IsoDate.rank d) (IsoDate.rank (IsoDate.prevDay today))) as [E | N'];
      [right; left; symmetry; apply rank_inj; auto |].
    pose proof (prevDay_is_predecessor d _ Hd Hp ltac:(lia)) as H2.
    right; right; left. symmetry. apply rank_inj; auto. lia.
  - intros [<- | [<- | [<- | []]]]; lia.
Qed.

Lemma window_is_editable_dates_witness :
  let today := IsoDate.mk 2024 3 1 in
  In (IsoDate.mk 2024 2 28) (Dashboard.editableDates today).
Proof.
  intros today.
  apply (proj1 (window_is_editable_dates today (IsoDate.mk 2024 2 28) eq_refl eq_refl)).
  reflexivity.
Defined.

(** X4.  The dashboard's optimistic update is the server's upsert: when
    [POST /api/checkins] accepts the toggle, the rows of the server's
    [entries] table are the entries [handleToggle] made of the same rows on
    the client.  A table has no order of its own (an updated row need not
    stay where it was), so the two are compared up to the order of rows. *)
Theorem optimistic_toggle_matches_server today u b d (c : bool) db r db' :
  b <> 0 ->
  Checkins.handler today (Some (App.u_id u)) POST None
    (Some (Checkins.mkPayload (Some b) (Some d) (JBool c))) db = Done r db' ->
  status r = 200 ->
  entries db' ≡ₚ Dashboard.handleToggle (Some u) b c d (entries db).
Proof.
  intros Hb Hpost Hst. rewrite (checkins_post_unfold today _ None b d _ db Hb) in Hpost.
  destruct (_ || _); [injection Hpost as <- <-; discriminate |].
  destruct (upsert_entry (App.u_id u) b d (strict_neq_false (JBool c)) db)
    as [[] db1 | ex db1] eqn:Hup; [| discriminate].
  injection Hpost as _ <-.
  assert (Hc : strict_neq_false (JBool c) = c) by (destruct c; reflexivity).
  rewrite Hc in Hup. unfold upsert_entry in Hup. unfold Dashboard.handleToggle.
  change (Dashboard.sameEntry u b d) with (same_slot (App.u_id u) b d).
  destruct (negb (IsoDate.validb d)); [discriminate |].
  destruct (existsb (same_slot (App.u_id u) b d) (entries db)) eqn:Hex.
  - injection Hup as <-. proj_db.
    destruct (List.find _ (entries db)) eqn:Hf; [reflexivity |].
    apply existsb_exists in Hex as (e & Hin & Hs).
    pose proof (find_none _ _ Hf e Hin). congruence.
  - destruct (_ || _); [discriminate |]. injection Hup as <-. proj_db.
    destruct (List.find _ (entries db)) eqn:Hf; [| reflexivity].
    apply find_some in Hf as [Hin Hs].
    assert (existsb (same_slot (App.u_id u) b d) (entries db) = true); [| congruence].
    apply existsb_exists. eauto.
Qed.

Lemma optimistic_toggle_matches_server_witness :
  let today := IsoDate.mk 2024 4 16 in
  let db := mkDB [1] [mkBucket 1 (Some 1) "Run" 1]
                 [mkEntry 1 1 today true] 2 true true false true in
  entries (with_entries [mkEntry 1 1 today false] db)
  ≡ₚ Dashboard.handleToggle (Some (App.mkUser 1 "Sky")) 1 false today (entries db).
Proof.
  intros today db.
  apply (optimistic_toggle_matches_server today (App.mkUser 1 "Sky") 1 today false db
           (mkResponse 200 OkBody)).
  - discriminate.
  - reflexivity.
  - reflexivity.
Defined.

End EditWindowFacts.

(* ================================================================== *)
(** * The dashboard's completion banner *)

Section BannerFacts.
Import Store.

Lemma checked_bucket_elem u entries d (x : Z) :
  x ∈ Dashboard.userCheckedBuckets (Some u) entries d
  <-> exists e, In e entries /\ e_user e = App.u_id u /\ e_date e = d
                /\ e_checked e = true /\ e_bucket e = x.
Proof.
  unfold Dashboard.userCheckedBuckets. rewrite elem_of_list_to_set, list_elem_of_In, in_map_iff.
  split.
  - intros (e & Hx & He). apply filter_In in He as [He Hf].
    rewrite !andb_true_iff, Z.eqb_eq, date_eqb_eq in Hf. destruct Hf as [[? ?] ?]. eauto 8.
  - intros (e & He & Hu & Hd & Hc & Hx). exists e. split; [exact Hx |].
    apply filter_In. split; [exact He |].
    rewrite !andb_true_iff, Z.eqb_eq, date_eqb_eq. auto.
Qed.

(** X5.  The dashboard reports the day as all done exactly when every one
    of the user's buckets has a checked entry that day, provided the user
    has a bucket, bucket ids are unique, and the user's checked entries of
    the day refer to these buckets. *)
Theorem allDone_iff_every_bucket_checked u buckets entries d :
  NoDup (map App.id buckets) ->
  buckets <> [] ->
  (forall e, In e entries -> e_user e = App.u_id u -> e_date e = d ->
             e_checked e = true -> In (e_bucket e) (map App.id buckets)) ->
  (Dashboard.allDone (Some u) buckets entries d = true
   <-> forall b, In b buckets ->
         exists e, In e entries /\ e_user e = App.u_id u /\ e_date e = d
                   /\ e_checked e = true /\ e_bucket e = App.id b).
Proof.
  intros Hnd Hne Hown. unfold Dashboard.allDone.
  set (S := Dashboard.userCheckedBuckets (Some u) entries d).
  set (I := list_to_set (map App.id buckets) : gset Z).
  assert (HI : size I = length buckets).
  { unfold I. rewrite size_list_to_set by exact Hnd. apply length_map. }
  assert (Hsub : S ⊆ I).
  { intros x Hx. apply checked_bucket_elem in Hx as (e & He & Hu & Hd & Hc & <-).
    apply elem_of_list_to_set, list_elem_of_In. eauto. }
  assert (Hpos : (0 <? length buckets)%nat = true).
  { apply Nat.ltb_lt. destruct buckets; [congruence | cbn; lia]. }
  rewrite Hpos, andb_true_r, Nat.leb_le, <- HI. split.
  - intros Hsize b Hb.
    assert (Heq : S = I) by (apply set_subseteq_size_eq; assumption).
    apply checked_bucket_elem. fold S. rewrite Heq.
    apply elem_of_list_to_set, list_elem_of_In, in_map, Hb.
  - intros Hall. apply subseteq_size. intros x Hx.
    apply elem_of_list_to_set, list_elem_of_In, in_map_iff in Hx as (b & <- & Hb).
    apply checked_bucket_elem, Hall, Hb.
Qed.

Lemma allDone_iff_every_bucket_checked_witness :
  let d := IsoDate.mk 2024 4 16 in
  let u := App.mkUser 1 "Sky" in
  let buckets := [App.mkBucket 1 1 "Run" 1; App.mkBucket 2 1 "Swim" 2] in
  let entries := [mkEntry 1 1 d true; mkEntry 1 2 d true] in
  Dashboard.allDone (Some u) buckets entries d = true.
Proof.
  intros d u buckets entries.
  apply (proj2 (allDone_iff_every_bucket_checked u buckets entries d
                  ltac:(apply (bool_decide_unpack (NoDup [1; 2])); vm_compute; exact I)
                  ltac:(discriminate)
                  ltac:(intros e [<- | [<- | []]] _ _ _; cbn; auto))).
  intros b [<- | [<- | []]].
  - exists (mkEntry 1 1 d true). cbn. auto 6.
  - exists (mkEntry 1 2 d true). cbn. auto 7.
Defined.

(** The proviso on the entries matters: the banner counts checked bucket
    ids, whatever bucket they are of.  With the buckets 1 and 2, a checked
    entry for bucket 1 and one for a bucket 9 that is not the user's, the
    day is reported all done though bucket 2 is unchecked; the friends
    panel, which counts only the user's buckets, reports it incomplete. *)
Example allDone_counts_foreign_buckets :
  let d := IsoDate.mk 2024 4 16 in
  let buckets := [App.mkBucket 1 1 "Run" 1; App.mkBucket 2 1 "Swim" 2] in
  let entries := [mkEntry 1 1 d true; mkEntry 1 9 d true] in
  Dashboard.allDone (Some (App.mkUser 1 "Sky")) buckets entries d = true
  /\ Dashboard.complete (Dashboard.friendToday buckets entries d 1) = false.
Proof. vm_compute. split; reflexivity. Qed.

End BannerFacts.

(* ================================================================== *)
(** * The monthly count stays within what is possible *)

Section CountBoundFacts.
Import Store.

(** Counting by pigeonhole: rows with distinct keys, selected by [p] and
    sent by [g] into [box], are at most as many as [box] holds, as long as
    [g] tells selected rows apart as the key does. *)
Lemma selected_at_most {A K B : Type} (k : A -> K) (g : A -> B) (p : A -> bool)
    (l : list A) (box : list B) :
  NoDup (map k l) ->
  (forall x y, In x l -> In y l -> p x = true -> p y = true -> g x = g y -> k x = k y) ->
  (forall x, In x l -> p x = true -> In (g x) box) ->
  (length (List.filter p l) <= length box)%nat.
Proof.
  intros Hnd Hinj Hbox. rewrite <- (length_map g).
  apply List.NoDup_incl_length.
  - apply NoDup_ListNoDup. clear Hbox. induction l as [| x l IH]; [constructor |].
    cbn in Hnd. apply NoDup_cons in Hnd as [Hx Hnd]. cbn [List.filter].
    assert (IH' : NoDup (map g (List.filter p l))).
    { apply IH; [exact Hnd |]. intros a b Ha Hb. apply Hinj; right; assumption. }
    destruct (p x) eqn:Hp; [| exact IH']. cbn [map]. apply NoDup_cons. split; [| exact IH'].
    intros Hin. apply Hx. apply list_elem_of_In, in_map_iff in Hin as (y & Hg & Hy).
    apply filter_In in Hy as [Hy Hpy]. apply list_elem_of_In.
    rewrite (Hinj x y); [apply in_map, Hy | left; reflexivity | right; exact Hy
                        | exact Hp | exact Hpy | symmetry; exact Hg].
  - intros b Hb. apply in_map_iff in Hb as (x & <- & Hx).
    apply filter_In in Hx as [Hx Hp]. apply Hbox; assumption.
Qed.

(** X6.  On a stat card the completed count never exceeds the total
    possible: for the entries a read of month M returns, with entry keys
    and bucket ids unique, the number counted for a user is at most the
    user's bucket count times the number of active days of M. *)
Theorem completed_within_possible epoch today month allBuckets ledger uid :
  NoDup (map App.id allBuckets) ->
  NoDup (map Sql.entry_key ledger) ->
  (default O (App.monthlyCompletionCounts epoch today allBuckets
                (List.filter (fun e => Spec.inMonth month (e_date e)) ledger) !! uid)
   <= App.getTotalPossibleForUser allBuckets
        (App.activeDaysInMonth month epoch today) uid)%nat.
Proof.
  intros Hids Hkeys.
  rewrite (completedCount_spec epoch today month allBuckets uid ledger Hids).
  unfold App.getTotalPossibleForUser. rewrite activeDaysInMonth_spec.
  unfold Spec.completedInMonth, Spec.activeDays.
  set (own := App.getBucketsForUser allBuckets uid).
  set (days := List.filter _ (Spec.daysOf month)).
  rewrite <- (length_map App.id own), <- length_prod.
  apply (selected_at_most Sql.entry_key
           (fun e => (e_bucket e, IsoDate.day (e_date e)))); [exact Hkeys | |].
  - intros x y _ _ Hx Hy Hg. injection Hg as Hb Hd.
    rewrite !andb_true_iff in Hx, Hy.
    destruct Hx as [[[[_ Hmx] _] Hux] _], Hy as [[[[_ Hmy] _] Huy] _].
    unfold Spec.inMonth in Hmx, Hmy. rewrite !andb_true_iff, !Z.eqb_eq in Hmx, Hmy.
    apply Z.eqb_eq in Hux, Huy. unfold Sql.entry_key.
    destruct Hmx as [[[-> ->] _] _], Hmy as [[[-> ->] _] _]. congruence.
  - intros e _ He. rewrite !andb_true_iff in He.
    destruct He as [[[[_ Hm] Ha] _] Ho]. apply in_prod.
    + unfold Spec.ownedBy in Ho. apply existsb_exists in Ho as (b & Hb & Hbo).
      apply andb_true_iff in Hbo as [Hi Hu]. apply Z.eqb_eq in Hi. rewrite <- Hi.
      apply in_map. unfold own, App.getBucketsForUser. apply filter_In. auto.
    + unfold days. apply filter_In.
      unfold Spec.inMonth in Hm. rewrite !andb_true_iff, !Z.eqb_eq, !Z.leb_le in Hm.
      destruct Hm as [[[Hy Hmo] Hlo] Hhi]. split.
      * unfold Spec.daysOf. apply in_map_iff. exists (Z.to_nat (IsoDate.day (e_date e))).
        split; [lia |]. apply in_seq. lia.
      * rewrite <- Hy, <- Hmo. destruct (e_date e). exact Ha.
Qed.

Lemma completed_within_possible_witness :
  let epoch := IsoDate.mk 2024 4 1 in
  let today := IsoDate.mk 2024 4 16 in
  let month := (2024, 4) in
  let uid := 1 in
  let allBuckets := [App.mkBucket 1 1 "Run" 1; App.mkBucket 2 2 "Swim" 1] in
  let ledger := [mkEntry 1 1 today true; mkEntry 1 2 today true;
                 mkEntry 1 1 (IsoDate.mk 2024 4 15) true] in
  (default O (App.monthlyCompletionCounts epoch today allBuckets
                (List.filter (fun e => Spec.inMonth month (e_date e)) ledger) !! uid)
   <= App.getTotalPossibleForUser allBuckets
        (App.activeDaysInMonth month epoch today) uid)%nat.
Proof.
  intros epoch today month uid allBuckets ledger.
  apply (completed_within_possible epoch today month allBuckets ledger uid).
  - apply (bool_decide_unpack (NoDup [1; 2])). vm_compute. exact I.
  - apply (bool_decide_unpack (NoDup (map Sql.entry_key ledger))). vm_compute. exact I.
Defined.

End CountBoundFacts.

(* ================================================================== *)
(** * A user's requests and the buckets of others *)

Section IsolationFacts.
Import Store Sql Http Js.

(** The buckets that are not [u]'s. *)
Local Abbreviation others u db :=
  (List.filter (fun b => negb (owned_by u b)) (buckets db)).

Lemma insert_bucket_others mode u nm sort db :
  others u (final (insert_bucket mode u nm sort db)) = others u db.
Proof.
  pose proof (insert_bucket_cases mode u nm sort db) as H. cbv zeta in H.
  destruct H as (_ & _ & [[-> _] | [-> _]]); [reflexivity |].
  rewrite List.filter_app. cbn. unfold owned_by at 2. cbn. rewrite Z.eqb_refl. cbn.
  apply app_nil_r.
Qed.

Lemma update_bucket_others i u n s db :
  others u (final (update_bucket i u n s db)) = others u db.
Proof.
  unfold update_bucket, bind.
  destruct (need_user_id_cases db) as [[_ ->] | [_ ->]]; cbn beta iota; [| reflexivity].
  destruct (negb (int4 (default 0 s))); [reflexivity |].
  match goal with |- context [if ?c then _ else _] => destruct c end; [reflexivity |].
  cbn [final]. proj_db. induction (buckets db) as [| b l IH]; [reflexivity |].
  cbn [map List.filter]. rewrite IH.
  destruct (owned_by u b) eqn:Ho.
  - assert (Ho' : owned_by u (if (b_id b =? i) && true then update_row n s b else b) = true).
    { destruct ((b_id b =? i) && true); [| exact Ho]. exact Ho. }
    rewrite Ho'. reflexivity.
  - rewrite andb_false_r. rewrite Ho. reflexivity.
Qed.

Lemma delete_bucket_others i u db :
  others u (final (delete_bucket i u db)) = others u db.
Proof.
  unfold delete_bucket, bind.
  destruct (need_user_id_cases db) as [[_ ->] | [_ ->]]; cbn beta iota; [| reflexivity].
  cbn [final]. proj_db. rewrite filter_filter. apply List.filter_ext. intros b.
  destruct (owned_by u b); [apply andb_false_r | rewrite andb_false_r; reflexivity].
Qed.

(** X7.  Whatever a signed-in user sends to [/api/buckets], the buckets of
    the other users stay exactly as they were, whether the request is
    answered with success, answered with an error, or fails. *)
Theorem bucket_requests_leave_others u method payload db :
  List.filter (fun b => negb (owned_by u b))
    (buckets (final (Buckets.handler (Some u) method payload db)))
  = List.filter (fun b => negb (owned_by u b)) (buckets db).
Proof.
  set (L := others u db).
  enough (H : hoare (fun d => others u d = L) (Buckets.handler (Some u) method payload)
                    (fun _ d => others u d = L) (fun d => others u d = L))
    by (exact (hoare_final _ _ _ H db eq_refl)).
  clearbody L. clear db.
  assert (Hsend : forall st b, hoare (fun d => others u d = L) (sendJson st b)
                                 (fun _ d => others u d = L) (fun d => others u d = L))
    by (intros; apply sendJson_hoare; auto).
  unfold Buckets.handler.
  destruct method; try apply Hsend.
  - unfold list_buckets. eapply hoare_bind; [| intros ?; apply Hsend].
    eapply hoare_bind; [apply need_user_id_hoare; auto |].
    intros ? db [H _]. exact H.
  - destruct payload as [p |]; [| apply Hsend].
    eapply hoare_bind; [apply optional_trim_hoare; auto |]. intros t.
    destruct (Buckets.or_null t) as [nm |]; [| apply Hsend].
    eapply hoare_bind; [apply count_buckets_hoare; auto |]. intros n.
    apply hoare_if; intros _; [apply sendJson_hoare; intuition |].
    eapply hoare_bind; [apply max_sort_order_hoare; intuition |]. intros mx.
    eapply hoare_bind; [| intros ?; apply Hsend].
    apply final_hoare. intros db [H _]. rewrite insert_bucket_others. exact H.
  - destruct payload as [p |]; [| apply Hsend].
    apply hoare_if; intros _; [apply Hsend |].
    eapply hoare_bind; [apply owner_check_hoare; auto |]. intros owner.
    apply hoare_if; intros _; [apply Hsend |].
    eapply hoare_bind; [apply optional_trim_hoare; auto |]. intros t.
    eapply hoare_bind; [| intros ?; apply Hsend].
    apply final_hoare. intros db H. rewrite update_bucket_others. exact H.
  - destruct payload as [p |]; [| apply Hsend].
    apply hoare_if; intros _; [apply Hsend |].
    eapply hoare_bind; [apply owner_check_hoare; auto |]. intros owner.
    apply hoare_if; intros _; [apply Hsend |].
    eapply hoare_bind; [| intros ?; apply Hsend].
    apply final_hoare. intros db H. rewrite delete_bucket_others. exact H.
Qed.

End IsolationFacts.

(* ================================================================== *)
(** * Removing a bucket *)

Section RemoveFacts.
Import Store Sql Http Js.

Lemma nodup_map_inj {A B} (f : A -> B) (l : list A) x y :
  NoDup (map f l) -> In x l -> In y l -> f x = f y -> x = y.
Proof.
  induction l as [| a l IH]; [intros _ [] |]. cbn [map]. intros Hnd Hx Hy Hf.
  apply NoDup_cons in Hnd as [Ha Hnd].
  destruct Hx as [-> | Hx], Hy as [-> | Hy]; [reflexivity | | | apply IH; assumption].
  - exfalso. apply Ha. rewrite Hf. apply list_elem_of_In, in_map, Hy.
  - exfalso. apply Ha. rewrite <- Hf. apply list_elem_of_In, in_map, Hx.
Qed.

Lemma id_owned_unique i u (bs : list BucketRow) b :
  NoDup (map b_id bs) -> In b bs -> b_id b = i -> owned_by u b = true ->
  forall b', In b' bs -> ((b_id b' =? i) && owned_by u b') = (b_id b' =? i).
Proof.
  intros Hnd Hb Hi Ho b' Hb'. destruct (Z.eqb_spec (b_id b') i) as [E |]; [| reflexivity].
  assert (b' = b); [| subst; exact Ho].
  apply (nodup_map_inj b_id bs); auto. congruence.
Qed.

(** X8.  A DELETE that [/api/buckets] answers with success removes exactly
    the named bucket, which was the caller's, and exactly the entries
    recorded against it, whoever made them. *)
Theorem delete_removes_bucket_and_entries u i p db r db' :
  NoDup (map b_id (buckets db)) ->
  Buckets.id p = Some i ->
  Buckets.handler (Some u) DELETE (Some p) db = Done r db' ->
  status r = 200 ->
  (exists b, In b (buckets db) /\ b_id b = i /\ b_user b = Some u)
  /\ buckets db' = List.filter (fun b => negb (b_id b =? i)) (buckets db)
  /\ entries db' = List.filter (fun e => negb (e_bucket e =? i)) (entries db).
Proof.
  intros Hnd Hid Hrun Hst. unfold Buckets.handler in Hrun. rewrite Hid in Hrun.
  change (default 0 (Some i)) with i in Hrun. cbn [Buckets.falsy_id] in Hrun.
  destruct (i =? 0); [injection Hrun as <- _; discriminate |].
  unfold owner_check, delete_bucket, bind, sendJson, ret in Hrun.
  destruct (need_user_id_cases db) as [[_ Hn] | [_ Hn]]; rewrite Hn in Hrun;
    cbn beta iota in Hrun; [| discriminate].
  destruct (existsb _ (buckets db)) eqn:Hown; cbn [negb] in Hrun;
    [| injection Hrun as <- _; discriminate].
  rewrite Hn in Hrun. injection Hrun as _ <-. proj_db.
  apply existsb_exists in Hown as (b & Hb & Hhit).
  apply andb_true_iff in Hhit as [Hi Ho]. apply Z.eqb_eq in Hi.
  pose proof (id_owned_unique i u _ b Hnd Hb Hi Ho) as Hsame.
  split; [| split].
  - exists b. repeat split; auto. unfold owned_by in Ho.
    destruct (b_user b) as [v |]; [| discriminate]. apply Z.eqb_eq in Ho. congruence.
  - apply filter_ext_in. intros b' Hb'. rewrite (Hsame b' Hb'). reflexivity.
  - unfold cascade. apply List.filter_ext. intros e. f_equal.
    destruct (Z.eqb_spec (e_bucket e) i) as [E | N].
    + apply existsb_exists. exists b. split; [| apply Z.eqb_eq; congruence].
      apply filter_In. split; [exact Hb |]. rewrite (Hsame b Hb). apply Z.eqb_eq, Hi.
    + destruct (existsb _ _) eqn:Hx; [| reflexivity]. exfalso.
      apply existsb_exists in Hx as (b' & Hb' & He). apply filter_In in Hb' as [Hb' Hh].
      apply andb_true_iff in Hh as [Hh _]. apply Z.eqb_eq in Hh, He. congruence.
Qed.

Lemma delete_removes_bucket_and_entries_witness :
  let d := IsoDate.mk 2024 4 16 in
  let db := mkDB [1; 2] [mkBucket 1 (Some 1) "Run" 1; mkBucket 2 (Some 2) "Swim" 1]
                 [mkEntry 1 1 d true; mkEntry 2 1 d true; mkEntry 2 2 d true]
                 3 true true false true in
  let db' := with_entries [mkEntry 2 2 d true]
               (with_buckets [mkBucket 2 (Some 2) "Swim" 1] db) in
  entries db' = List.filter (fun e => negb (e_bucket e =? 1)) (entries db).
Proof.
  intros d db db'.
  refine (proj2 (proj2 (delete_removes_bucket_and_entries 1 1
            (Buckets.mkPayload (Some 1) JUndefined JUndefined) db
            (mkResponse 200 OkBody) db' _ eq_refl eq_refl eq_refl))).
  apply (bool_decide_unpack (NoDup [1; 2])). vm_compute. exact I.
Defined.

End RemoveFacts.

(* ================================================================== *)
(** * Creating a bucket *)

Section CreateFacts.
Import Store Sql Http Js.

#[local] Instance bucket_le_trans : Transitive bucket_le.
Proof. intros a b c. unfold bucket_le. lia. Qed.

#[local] Instance bucket_le_total : Total bucket_le.
Proof. intros a b. unfold bucket_le. lia. Qed.

Lemma sorted_last_is_greatest {A} (R : relation A) (l : list A) (y : A) :
  StronglySorted R l -> last l = Some y ->
  forall x, In x l -> x = y \/ R x y.
Proof.
  induction 1 as [| a l Hs IH Hall]; [discriminate |].
  intros Hlast x Hx. destruct l as [| b l'].
  - cbn in Hlast. destruct Hx as [<- | []]. left. congruence.
  - change (last (a :: b :: l')) with (last (b :: l')) in Hlast.
    destruct Hx as [<- | Hx]; [| apply IH; assumption]. right.
    rewrite Forall_forall in Hall. apply Hall.
    apply last_Some in Hlast as (l0 & ->). apply list_elem_of_In, in_or_app.
    right. left. reflexivity.
Qed.

Lemma fold_max_ge (rest : list BucketRow) : forall m,
  m <= fold_left (fun m r => Z.max m (b_sort r)) rest m
  /\ forall b, In b rest -> b_sort b <= fold_left (fun m r => Z.max m (b_sort r)) rest m.
Proof.
  induction rest as [| r rest IH]; intros m; cbn [fold_left]; [split; [lia | intros b []] |].
  destruct (IH (Z.max m (b_sort r))) as [H1 H2]. split; [lia |].
  intros b [<- | Hb]; [lia | apply H2, Hb].
Qed.

Lemma max_sort_order_bounds u db mx db1 :
  max_sort_order u db = Done mx db1 ->
  db1 = db /\ forall b, In b (buckets db) -> owned_by u b = true -> b_sort b <= mx.
Proof.
  unfold max_sort_order, bind.
  destruct (need_user_id_cases db) as [[_ ->] | [_ ->]]; cbn beta iota; [| discriminate].
  intros H. injection H as <- <-. split; [reflexivity |]. intros b Hb Ho.
  assert (Hin : In b (List.filter (owned_by u) (buckets db))) by (apply filter_In; auto).
  destruct (List.filter (owned_by u) (buckets db)) as [| b0 rest]; [destruct Hin |].
  destruct (fold_max_ge rest (b_sort b0)) as [H1 H2].
  destruct Hin as [<- | Hin]; [exact H1 | apply H2, Hin].
Qed.

(** X9.  A POST that [/api/buckets] answers with success has stored one new
    bucket for the caller, named by the trimmed name of the request and
    placed after every bucket the caller had; the response carries that
    bucket, and the caller's next listing shows it last, after the buckets
    listed before. *)
Theorem created_bucket_is_listed_last u p db r db' :
  Buckets.handler (Some u) POST (Some p) db = Done r db' ->
  status r = 200 ->
  exists s row,
    Buckets.name p = JStr s
    /\ body r = BucketBody (Some row)
    /\ b_user row = Some u /\ b_name row = trim s
    /\ (forall b, In b (Spec.listOf db u) -> b_sort b < b_sort row)
    /\ buckets db' = (buckets db ++ [row])%list
    /\ Spec.listOf db' u ≡ₚ (Spec.listOf db u ++ [row])%list
    /\ last (Spec.listOf db' u) = Some row.
Proof.
  intros Hrun Hst. unfold Buckets.handler, Buckets.optional_trim in Hrun.
  destruct (Buckets.name p) as [| | | | s |] eqn:Hname;
    try (unfold bind, ret, raise, sendJson in Hrun; cbn in Hrun;
         first [discriminate Hrun | injection Hrun as <- _; discriminate Hst]).
  unfold bind at 1, ret at 1 in Hrun. cbn beta iota in Hrun.
  destruct (Buckets.or_null (Some (trim s))) as [nm |] eqn:Hnm;
    [| injection Hrun as <- _; discriminate].
  assert (nm = trim s) as ->.
  { cbn in Hnm. destruct (truthy_string (trim s)); congruence. }
  unfold bind at 1 in Hrun.
  destruct (count_buckets u db) as [n db0 | ex db0] eqn:Hcount; [| discriminate].
  assert (db0 = db) as ->.
  { unfold count_buckets, bind in Hcount.
    destruct (need_user_id_cases db) as [[_ Hn] | [_ Hn]]; rewrite Hn in Hcount;
      [injection Hcount as _ <-; reflexivity | discriminate]. }
  destruct (DbLib.MAX_BUCKETS_PER_USER <=? n); [injection Hrun as <- _; discriminate |].
  unfold bind at 1 in Hrun.
  destruct (max_sort_order u db) as [mx db1 | ex db1] eqn:Hmax; [| discriminate].
  destruct (max_sort_order_bounds u db mx db1 Hmax) as [-> Hmx].
  unfold bind in Hrun.
  pose proof (insert_bucket_cases Fail u (trim s) (mx + 1) db) as Hins. cbv zeta in Hins.
  destruct (insert_bucket Fail u (trim s) (mx + 1) db) as [row db2 | ex db2] eqn:Hi;
    [| discriminate].
  unfold sendJson, ret in Hrun. injection Hrun as <- <-.
  destruct Hins as (_ & _ & [[_ Hno] | (Hbs & _ & Hdone)]).
  { exfalso. destruct row as [row |]; [exact (Hno row db2 eq_refl) |].
    unfold insert_bucket, bind in Hi.
    destruct (need_user_id_cases db) as [[_ Hn] | [_ Hn]]; rewrite Hn in Hi;
      [| discriminate].
    cbn beta iota in Hi.
    destruct (negb (int4 (mx + 1))); [discriminate |]. cbn iota in Hi.
    destruct (_ || _); [discriminate |]. destruct (negb _); discriminate. }
  injection Hdone as -> _. cbn [final] in Hbs.
  set (row := mkBucket (bucket_seq db) (Some u) (trim s) (mx + 1)) in *.
  assert (Hlt : forall b, In b (Spec.listOf db u) -> b_sort b < b_sort row).
  { intros b Hb. apply list_elem_of_In in Hb. rewrite listOf_perm in Hb.
    apply list_elem_of_In, filter_In in Hb as [Hb Ho]. specialize (Hmx b Hb Ho).
    cbn. lia. }
  assert (Hperm : Spec.listOf db2 u ≡ₚ (Spec.listOf db u ++ [row])%list).
  { rewrite !listOf_perm, Hbs, List.filter_app. cbn [List.filter].
    unfold owned_by at 2. cbn [b_user row]. rewrite Z.eqb_refl. reflexivity. }
  exists s, row. repeat split; auto.
  destruct (last (Spec.listOf db2 u)) as [y |] eqn:Hlast.
  - f_equal. assert (Hrow : In row (Spec.listOf db2 u)).
    { apply list_elem_of_In. rewrite Hperm. apply list_elem_of_In, in_or_app.
      right. left. reflexivity. }
    assert (Hy : In y (Spec.listOf db2 u)).
    { apply last_Some in Hlast as (l0 & ->). apply in_or_app. right. left. reflexivity. }
    apply list_elem_of_In in Hy. rewrite Hperm in Hy.
    apply list_elem_of_In, in_app_or in Hy as [Hy | [<- | []]]; [| reflexivity].
    exfalso. specialize (Hlt y Hy).
    destruct (sorted_last_is_greatest bucket_le _ y
                (StronglySorted_merge_sort bucket_le _) Hlast row Hrow) as [E | Hle].
    + rewrite E in Hlt. lia.
    + unfold bucket_le in Hle. lia.
  - exfalso. apply last_None in Hlast. rewrite Hlast in Hperm.
    apply Permutation_nil_l in Hperm. destruct (Spec.listOf db u); discriminate.
Qed.

Lemma created_bucket_is_listed_last_witness :
  let db := mkDB [1] [mkBucket 1 (Some 1) "Run" 4] [] 2 true true false true in
  let row := mkBucket 2 (Some 1) "Swim" 5 in
  exists s row',
    JStr "  Swim " = JStr s
    /\ BucketBody (Some row) = BucketBody (Some row')
    /\ b_user row' = Some 1 /\ b_name row' = trim s.
Proof.
  intros db row.
  destruct (created_bucket_is_listed_last 1
              (Buckets.mkPayload None (JStr "  Swim ") JUndefined) db
              (mkResponse 200 (BucketBody (Some row)))
              (with_buckets (buckets db ++ [row]) (with_seq 3 db)) eq_refl eq_refl)
    as (s & row' & H1 & H2 & H3 & H4 & _).
  exists s, row'. auto.
Defined.

End CreateFacts.

(* ================================================================== *)
(** * Seeding and resetting the data *)

Section SeedingFacts.
Import Store Sql Http Js.

Lemma owned_by_row v i u n s : owned_by v (mkBucket i (Some u) n s) = (u =? v).
Proof. reflexivity. Qed.

(** An insert that meets no conflict stores its row under the next id. *)
Lemma insert_fresh mode u nm sort db :
  col_user_id db = true -> idx_user_name_unique db = true -> idx_name_unique db = false ->
  int4 sort = true -> In u (users db) ->
  (forall b, In b (buckets db) -> b_id b < bucket_seq db) ->
  (forall b, In b (buckets db) -> owned_by u b = true -> b_name b <> nm) ->
  let row := mkBucket (bucket_seq db) (Some u) nm sort in
  insert_bucket mode u nm sort db
  = Done (Some row) (with_buckets (buckets db ++ [row]) (with_seq (bucket_seq db + 1) db)).
Proof.
  intros Hcol Hidx Hnm Hint Hu Hids Hfree row. unfold insert_bucket, bind, need_user_id.
  rewrite Hcol, Hint, Hidx. cbn [negb].
  assert (Ha : user_name_taken u nm db = false).
  { unfold user_name_taken. rewrite Hidx. cbn [andb].
    destruct (existsb _ (buckets db)) eqn:Hx; [| reflexivity]. exfalso.
    apply existsb_exists in Hx as (b & Hb & Hx). apply andb_true_iff in Hx as [Ho Hn].
    apply String.eqb_eq in Hn. exact (Hfree b Hb Ho Hn). }
  assert (Hp : pk_taken (bucket_seq db) db = false).
  { unfold pk_taken. destruct (existsb _ (buckets db)) eqn:Hx; [| reflexivity]. exfalso.
    apply existsb_exists in Hx as (b & Hb & Hx). apply Z.eqb_eq in Hx.
    specialize (Hids b Hb). lia. }
  assert (Hf : existsb (Z.eqb u) (users db) = true).
  { apply existsb_exists. exists u. split; [exact Hu | apply Z.eqb_refl]. }
  unfold name_taken. rewrite Ha, Hp, Hnm, Hf. destruct mode; reflexivity.
Qed.

(** Seeding a user who has no bucket stores the three defaults. *)
Lemma seed_fresh_user u db :
  col_user_id db = true -> idx_user_name_unique db = true -> idx_name_unique db = false ->
  In u (users db) ->
  (forall b, In b (buckets db) -> b_id b < bucket_seq db) ->
  existsb (owned_by u) (buckets db) = false ->
  let s := bucket_seq db in
  DbLib.seedBucketsForUser u db
  = Done tt (with_buckets
               (buckets db ++ [mkBucket s (Some u) "10 min calisthenics" 1;
                               mkBucket (s + 1) (Some u) "25 min cardio" 2;
                               mkBucket (s + 2) (Some u) "Stretching / mobility" 3])
               (with_seq (s + 3) db)).
Proof.
  intros Hcol Hidx Hnm Hu Hids Hnone. cbv zeta.
  assert (Hno : forall b, In b (buckets db) -> owned_by u b = false).
  { intros b Hb. destruct (owned_by u b) eqn:Ho; [| reflexivity].
    assert (existsb (owned_by u) (buckets db) = true); [| congruence].
    apply existsb_exists. eauto. }
  unfold DbLib.seedBucketsForUser, has_bucket, bind at 1 2, need_user_id.
  rewrite Hcol, Hnone. unfold DbLib.DEFAULT_BUCKETS. cbn [for_each fst snd].
  unfold bind at 1 2.
  rewrite insert_fresh; auto;
    [| intros b Hb Ho; rewrite (Hno b Hb) in Ho; discriminate].
  unfold ret at 1, bind at 1 2.
  rewrite insert_fresh; proj_db; auto.
  2:{ intros b Hb. apply in_app_or in Hb as [Hb | [<- | []]];
        [specialize (Hids b Hb) | cbn [b_id]]; lia. }
  2:{ intros b Hb Ho. apply in_app_or in Hb as [Hb | [<- | []]];
        [rewrite (Hno b Hb) in Ho |]; discriminate. }
  unfold ret at 1, bind at 1 2.
  rewrite insert_fresh; proj_db; auto.
  2:{ intros b Hb. apply in_app_or in Hb as [Hb | [<- | []]]; [| cbn [b_id]; lia].
      apply in_app_or in Hb as [Hb | [<- | []]]; [specialize (Hids b Hb) | cbn [b_id]]; lia. }
  2:{ intros b Hb Ho. apply in_app_or in Hb as [Hb | [<- | []]]; [| discriminate].
      apply in_app_or in Hb as [Hb | [<- | []]];
        [rewrite (Hno b Hb) in Ho |]; discriminate. }
  unfold ret. cbn [for_each]. unfold ret, with_buckets, with_seq. proj_db.
  rewrite <- !app_assoc. cbn [app].
  replace (bucket_seq db + 1 + 1) with (bucket_seq db + 2) by lia.
  replace (bucket_seq db + 2 + 1) with (bucket_seq db + 3) by lia. reflexivity.
Qed.

(** After the users [seeded], and before the others. *)
Local Abbreviation Reseeded us es seeded := (fun db =>
  col_user_id db = true /\ idx_user_name_unique db = true /\ idx_name_unique db = false
  /\ users db = us /\ entries db = es
  /\ (forall b, In b (buckets db) -> b_id b < bucket_seq db)
  /\ (forall b, In b (buckets db) -> exists v, In v seeded /\ b_user b = Some v)
  /\ (forall v, In v seeded ->
        map (fun b => (b_name b, b_sort b)) (List.filter (owned_by v) (buckets db))
        = DbLib.DEFAULT_BUCKETS)).

Lemma reseeded_fresh us es seeded u db :
  Reseeded us es seeded db -> existsb (owned_by u) (buckets db) = false ->
  let s := bucket_seq db in
  Reseeded us es (u :: seeded)
    (with_buckets
       (buckets db ++ [mkBucket s (Some u) "10 min calisthenics" 1;
                       mkBucket (s + 1) (Some u) "25 min cardio" 2;
                       mkBucket (s + 2) (Some u) "Stretching / mobility" 3])
       (with_seq (s + 3) db)).
Proof.
  intros (Hcol & Hidx & Hnm & Hus & Hes & Hids & Hown & Hdef) Hex. cbv zeta.
  assert (Hno : List.filter (owned_by u) (buckets db) = []).
  { apply filter_none. intros b Hb. destruct (owned_by u b) eqn:Ho; [| reflexivity].
    assert (existsb (owned_by u) (buckets db) = true); [| congruence].
    apply existsb_exists. eauto. }
  proj_db. repeat split; auto.
  - intros b Hb. apply in_app_or in Hb as [Hb | Hb]; [specialize (Hids b Hb); lia |].
    destruct Hb as [<- | [<- | [<- | []]]]; cbn [b_id]; lia.
  - intros b Hb. apply in_app_or in Hb as [Hb | Hb].
    + destruct (Hown b Hb) as (v & Hv & Hbv). exists v. split; [right |]; auto.
    + exists u. split; [left; reflexivity |].
      destruct Hb as [<- | [<- | [<- | []]]]; reflexivity.
  - intros v Hv. rewrite List.filter_app. cbn [List.filter].
    rewrite !owned_by_row. destruct (Z.eqb_spec u v) as [<- | Hne].
    + rewrite Hno. reflexivity.
    + cbv iota. rewrite app_nil_r. destruct Hv as [E | Hv]; [congruence | apply Hdef, Hv].
Qed.

Lemma reseed_loop us es (todo : list Z) : forall seeded db,
  (forall v, In v todo -> In v us) ->
  Reseeded us es seeded db ->
  exists db', for_each todo DbLib.seedBucketsForUser db = Done tt db'
              /\ Reseeded us es (todo ++ seeded)%list db'.
Proof.
  induction todo as [| u todo IH]; intros seeded db Hin HJ.
  - exists db. split; [reflexivity | exact HJ].
  - cbn [for_each]. unfold bind.
    assert (Hgo : forall db1, DbLib.seedBucketsForUser u db = Done tt db1 ->
                    Reseeded us es (u :: seeded) db1 ->
                    exists db', match DbLib.seedBucketsForUser u db with
                                | Done _ d => for_each todo DbLib.seedBucketsForUser d
                                | Raised e d => Raised e d
                                end = Done tt db'
                                /\ Reseeded us es ((u :: todo) ++ seeded)%list db').
    { intros db1 -> HJ1.
      destruct (IH (u :: seeded) db1 ltac:(intros; apply Hin; right; assumption) HJ1)
        as (db' & Hrun & H1 & H2 & H3 & H4 & H5 & H6 & H7 & H8).
      exists db'. split; [exact Hrun |]. repeat split; auto.
      - intros b Hb. destruct (H7 b Hb) as (v & Hv & Hbv). exists v. split; [| exact Hbv].
        apply in_app_or in Hv as [Hv | [<- | Hv]]; [right; apply in_or_app; auto | left; auto |].
        right. apply in_or_app. auto.
      - intros v Hv. apply H8. destruct Hv as [<- | Hv]; [apply in_or_app; right; left; auto |].
        apply in_app_or in Hv as [Hv | Hv]; apply in_or_app; [left | right; right]; auto. }
    destruct HJ as (Hcol & Hidx & Hnm & Hus & Hes & Hids & Hown & Hdef).
    destruct (existsb (owned_by u) (buckets db)) eqn:Hex.
    + apply (Hgo db).
      * unfold DbLib.seedBucketsForUser, has_bucket, bind, need_user_id.
        rewrite Hcol, Hex. reflexivity.
      * repeat split; auto.
        -- intros b Hb. destruct (Hown b Hb) as (v & Hv & Hbv). exists v. split; [right |]; auto.
        -- intros v [<- | Hv]; [| apply Hdef, Hv].
           apply existsb_exists in Hex as (b & Hb & Ho).
           destruct (Hown b Hb) as (v & Hv & Hbv). unfold owned_by in Ho. rewrite Hbv in Ho.
           apply Z.eqb_eq in Ho. subst v. apply Hdef, Hv.
    + eapply Hgo.
      * apply seed_fresh_user; auto. rewrite Hus. apply Hin. left. reflexivity.
      * apply reseeded_fresh; [repeat split; auto | exact Hex].
Qed.

(** The seeding loop of the migration script, over users without buckets. *)
Lemma seed_all_loop us es (todo : list Z) : forall seeded db,
  NoDup todo ->
  (forall v, In v todo -> In v us /\ ~ In v seeded) ->
  Reseeded us es seeded db ->
  exists db',
    for_each todo (fun user =>
      for_each DbLib.DEFAULT_BUCKETS (fun bucket =>
        bind (insert_bucket DoNothingUserName user (fst bucket) (snd bucket))
             (fun _ => ret tt))) db = Done tt db'
    /\ Reseeded us es (todo ++ seeded)%list db'.
Proof.
  induction todo as [| u todo IH]; intros seeded db Hnd Hin HJ.
  - exists db. split; [reflexivity | exact HJ].
  - apply NoDup_cons in Hnd as [Hu Hnd]. destruct (Hin u ltac:(left; reflexivity)) as [Hus Hfresh].
    pose proof HJ as (Hcol & Hidx & Hnm & Husers & Hes & Hids & Hown & Hdef).
    assert (Hex : existsb (owned_by u) (buckets db) = false).
    { destruct (existsb _ (buckets db)) eqn:Hx; [| reflexivity]. exfalso.
      apply existsb_exists in Hx as (b & Hb & Ho). destruct (Hown b Hb) as (v & Hv & Hbv).
      unfold owned_by in Ho. rewrite Hbv in Ho. apply Z.eqb_eq in Ho. congruence. }
    pose proof (seed_fresh_user u db Hcol Hidx Hnm ltac:(rewrite Husers; exact Hus) Hids Hex)
      as Hseed.
    cbv zeta in Hseed. unfold DbLib.seedBucketsForUser, has_bucket, bind at 1 2, need_user_id in Hseed.
    rewrite Hcol, Hex in Hseed. cbn [for_each]. unfold bind at 1. rewrite Hseed.
    pose proof (reseeded_fresh us es seeded u db HJ Hex) as HJ1. cbv zeta in HJ1.
    assert (Hin' : forall v, In v todo -> In v us /\ ~ In v (u :: seeded)).
    { intros v Hv. destruct (Hin v ltac:(right; exact Hv)) as [Hvu Hvs]. split; [exact Hvu |].
      intros [<- | Hv']; [apply Hu, list_elem_of_In, Hv | exact (Hvs Hv')]. }
    destruct (IH (u :: seeded) _ Hnd Hin' HJ1)
      as (db' & Hrun & H1 & H2 & H3 & H4 & H5 & H6 & H7 & H8).
    exists db'. split; [exact Hrun |]. repeat split; auto.
    + intros b Hb. destruct (H7 b Hb) as (v & Hv & Hbv). exists v. split; [| exact Hbv].
      apply in_app_or in Hv as [Hv | [<- | Hv]]; [right; apply in_or_app; auto | left; auto |].
      right. apply in_or_app. auto.
    + intros v Hv. apply H8. destruct Hv as [<- | Hv]; [apply in_or_app; right; left; auto |].
      apply in_app_or in Hv as [Hv | Hv]; apply in_or_app; [left | right; right]; auto.
Qed.

(** X11.  On a database without buckets the migration script succeeds:
    it leaves the per-user schema (owner column, NOT NULL, the unique index
    on owner and name, no index on the name alone), touches no entry, and
    gives every user exactly the three default buckets in positions
    1, 2, 3. *)
Theorem fresh_install_seeds_everyone db :
  col_user_id db = false -> buckets db = [] -> NoDup (users db) ->
  exists db',
    Migrate.script db = Done tt db'
    /\ col_user_id db' = true /\ user_id_not_null db' = true
    /\ idx_user_name_unique db' = true /\ idx_name_unique db' = false
    /\ users db' = users db /\ entries db' = entries db
    /\ (forall u, In u (users db) ->
          map (fun b => (b_name b, b_sort b)) (List.filter (owned_by u) (buckets db'))
          = DbLib.DEFAULT_BUCKETS)
    /\ (forall b, In b (buckets db') -> exists u, In u (users db) /\ b_user b = Some u).
Proof.
  intros Hcol Hbs Hnd.
  set (db1 := with_idx_user_name true
                (with_idx_name false (with_not_null true (with_col_user_id true db)))).
  assert (Hmig : Migrate.migrate db = Done tt db1).
  { unfold db1. destruct db as [us bs es sq c nn i1 i2]. cbn in Hcol, Hbs. subst.
    destruct i2; reflexivity. }
  destruct (seed_all_loop (users db) (entries db) (users db) [] db1 Hnd)
    as (db' & Hrun & H1 & H2 & H3 & H4 & H5 & H6 & H7 & H8).
  { intros v Hv. split; [exact Hv | intros []]. }
  { unfold db1. proj_db. rewrite Hbs. repeat split; auto; intros b []. }
  exists db'. split.
  - unfold Migrate.script, bind. rewrite Hmig.
    unfold Migrate.seedDefaultBuckets, MigrationSql.users_without_buckets, bind, need_user_id.
    change (col_user_id db1) with true. cbn iota.
    change (buckets db1) with (buckets db). rewrite Hbs. cbn [existsb negb].
    rewrite filter_all by reflexivity. exact Hrun.
  - rewrite app_nil_r in H7, H8. repeat split; auto.
    assert (Hkeep : hoare (fun d => user_id_not_null d = true)
              (for_each (users db) (fun user =>
                 for_each DbLib.DEFAULT_BUCKETS (fun bucket =>
                   bind (insert_bucket DoNothingUserName user (fst bucket) (snd bucket))
                        (fun _ => ret tt))))
              (fun _ d => user_id_not_null d = true) (fun d => user_id_not_null d = true)).
    { apply hoare_for_each. intros u _. apply hoare_for_each. intros d _.
      eapply hoare_bind; [| intros ?; apply hoare_ret; intros ? H; exact H].
      apply final_hoare. intros d0 Hd0.
      pose proof (insert_bucket_cases DoNothingUserName u (fst d) (snd d) d0) as Hc.
      cbv zeta in Hc. destruct Hc as ((_ & Hnn & _) & _). congruence. }
    pose proof (hoare_final _ _ _ Hkeep db1 eq_refl) as Hnn. rewrite Hrun in Hnn. exact Hnn.
Qed.

Lemma fresh_install_seeds_everyone_witness :
  let db := mkDB [1; 2] [] [] 1 false false false false in
  exists db',
    Migrate.script db = Done tt db'
    /\ map (fun b => (b_name b, b_sort b)) (List.filter (owned_by 2) (buckets db'))
       = DbLib.DEFAULT_BUCKETS.
Proof.
  intros db.
  destruct (fresh_install_seeds_everyone db eq_refl eq_refl)
    as (db' & Hrun & _ & _ & _ & _ & _ & _ & Hdef & _).
  - apply (bool_decide_unpack (NoDup [1; 2])). vm_compute. exact I.
  - exists db'. split; [exact Hrun |]. apply Hdef. right. left. reflexivity.
Defined.

(** X10.  An admin's reset leaves no entry, and leaves every user with
    exactly the three default buckets in positions 1, 2, 3 and no bucket
    without an owner among the users; a reset asked by a signed-in user who
    is no admin is refused with 403 and changes nothing. *)
Theorem admin_reset_restores_defaults caller db :
  col_user_id db = true -> idx_user_name_unique db = true -> idx_name_unique db = false ->
  (exists db',
      Admin.handler (Some (caller, true)) POST db = Done (mkResponse 200 OkBody) db'
      /\ entries db' = [] /\ users db' = users db
      /\ (forall u, In u (users db) ->
            map (fun b => (b_name b, b_sort b)) (List.filter (owned_by u) (buckets db'))
            = DbLib.DEFAULT_BUCKETS)
      /\ (forall b, In b (buckets db') -> exists u, In u (users db) /\ b_user b = Some u))
  /\ Admin.handler (Some (caller, false)) POST db
     = Done (mkResponse 403 (ErrorBody "Forbidden")) db.
Proof.
  intros Hcol Hidx Hnm. split; [| reflexivity].
  set (db0 := with_entries (cascade (buckets (with_entries [] db)) [])
                (with_buckets [] (with_entries [] db))).
  destruct (reseed_loop (users db) [] (users db) [] db0 ltac:(auto))
    as (db' & Hrun & _ & _ & _ & Hus & Hes & _ & Hown & Hdef).
  { unfold db0. proj_db. repeat split; auto; intros b []. }
  exists db'. split; [| split; [exact Hes | split; [exact Hus | split]]].
  - unfold Admin.handler, DbLib.resetData, delete_all_entries, delete_all_buckets,
      select_users, bind, sendJson, ret. cbn [negb]. proj_db. fold db0.
    change (users db0) with (users db). rewrite Hrun. reflexivity.
  - intros u Hu. apply Hdef. rewrite app_nil_r. exact Hu.
  - intros b Hb. destruct (Hown b Hb) as (v & Hv & Hbv). rewrite app_nil_r in Hv. eauto.
Qed.

Lemma admin_reset_restores_defaults_witness :
  let db := mkDB [1; 2] [mkBucket 1 (Some 1) "Run" 1]
                 [mkEntry 1 1 (IsoDate.mk 2024 4 16) true] 2 true true false true in
  exists db',
    Admin.handler (Some (1, true)) POST db = Done (mkResponse 200 OkBody) db'
    /\ entries db' = [].
Proof.
  intros db.
  destruct (proj1 (admin_reset_restores_defaults 1 db eq_refl eq_refl eq_refl))
    as (db' & Hrun & Hes & _).
  exists db'. split; [exact Hrun | exact Hes].
Defined.

End SeedingFacts.

(* ================================================================== *)
(** * The migration where no index stands in its way *)

Section RelinkFacts.
Import Store Sql MigrationSql.

Lemma for_each_app {X} (l1 l2 : list X) (f : X -> M unit) db :
  for_each (l1 ++ l2) f db
  = match for_each l1 f db with
    | Done _ db' => for_each l2 f db'
    | Raised e db' => Raised e db'
    end.
Proof.
  revert db. induction l1 as [| x l1 IH]; intros db; [reflexivity |].
  cbn [app for_each]. unfold bind. destruct (f x db) as [[] db1 | e db1]; [apply IH | reflexivity].
Qed.

Lemma for_each_map {X Y} (h : X -> Y) (l : list X) (f : Y -> M unit) db :
  for_each (map h l) f db = for_each l (fun x => f (h x)) db.
Proof.
  revert db. induction l as [| x l IH]; intros db; [reflexivity |].
  cbn [map for_each]. unfold bind. destruct (f (h x) db) as [[] db1 | e db1]; [apply IH | reflexivity].
Qed.

(** Two nested loops run as one loop over the pairs. *)
Lemma for_each_nested {X Y} (xs : list X) (ys : list Y) (f : X -> Y -> M unit) db :
  for_each xs (fun x => for_each ys (f x)) db
  = for_each (list_prod xs ys) (fun p => f (fst p) (snd p)) db.
Proof.
  revert db. induction xs as [| x xs IH]; intros db; [reflexivity |].
  cbn [for_each list_prod]. rewrite for_each_app, for_each_map. unfold bind. cbn [fst snd].
  destruct (for_each ys (f x) db) as [[] db1 | e db1]; [apply IH | reflexivity].
Qed.

(** With no unique index on [buckets], an insert is stopped only by a
    taken id, an unknown user or a position out of range. *)
Lemma insert_unindexed u nm sort db :
  col_user_id db = true -> idx_user_name_unique db = false -> idx_name_unique db = false ->
  int4 sort = true -> In u (users db) ->
  (forall b, In b (buckets db) -> b_id b < bucket_seq db) ->
  let row := mkBucket (bucket_seq db) (Some u) nm sort in
  insert_bucket DoNothingAny u nm sort db
  = Done (Some row) (with_buckets (buckets db ++ [row]) (with_seq (bucket_seq db + 1) db)).
Proof.
  intros Hcol Hidx Hnm Hint Hu Hids row. unfold insert_bucket, bind, need_user_id.
  rewrite Hcol, Hint. cbn [negb].
  assert (Hp : pk_taken (bucket_seq db) db = false).
  { unfold pk_taken. destruct (existsb _ (buckets db)) eqn:Hx; [| reflexivity]. exfalso.
    apply existsb_exists in Hx as (b & Hb & Hx). apply Z.eqb_eq in Hx.
    specialize (Hids b Hb). lia. }
  assert (Hf : existsb (Z.eqb u) (users db) = true).
  { apply existsb_exists. exists u. split; [exact Hu | apply Z.eqb_refl]. }
  unfold user_name_taken, name_taken. rewrite Hidx, Hp, Hnm, Hf. reflexivity.
Qed.

(** The key a clone is made under: its user and the name it copies. *)
Local Abbreviation pair_key := (fun p : Z * BucketRow => (fst p, b_name (snd p))).

(** The store while the clones are made: [G] are the legacy buckets,
    [done] the (user, legacy bucket) pairs cloned so far. *)
Local Abbreviation Cloned G s0 us es nn done := (fun db =>
  col_user_id db = true /\ idx_user_name_unique db = false /\ idx_name_unique db = false
  /\ user_id_not_null db = nn /\ users db = us /\ entries db = es
  /\ s0 <= bucket_seq db
  /\ exists C,
       buckets db = (G ++ C)%list
       /\ (forall c, In c C ->
             s0 <= b_id c < bucket_seq db
             /\ exists p, In p done /\ b_user c = Some (fst p)
                          /\ b_name c = b_name (snd p) /\ b_sort c = b_sort (snd p))
       /\ (forall p, In p done ->
             exists c, In c C /\ b_user c = Some (fst p) /\ b_name c = b_name (snd p))
       /\ NoDup (map b_id C) /\ NoDup (user_name_keys C)).

Lemma clone_loop G s0 us es nn (todo : list (Z * BucketRow)) : forall done db,
  (forall g, In g G -> b_id g < s0) ->
  (forall p, In p todo -> In (fst p) us /\ int4 (b_sort (snd p)) = true) ->
  NoDup (map pair_key todo) ->
  (forall p q, In p todo -> In q done -> pair_key p <> pair_key q) ->
  Cloned G s0 us es nn done db ->
  exists db',
    for_each todo (fun p =>
      bind (insert_bucket DoNothingAny (fst p) (b_name (snd p)) (b_sort (snd p)))
           (fun _ => ret tt)) db = Done tt db'
    /\ Cloned G s0 us es nn (todo ++ done)%list db'.
Proof.
  induction todo as [| [u g] todo IH]; intros done db HG Hok Hnd Hfresh HJ.
  - exists db. split; [reflexivity | exact HJ].
  - cbn [map] in Hnd. apply NoDup_cons in Hnd as [Hnew Hnd].
    destruct HJ as (Hcol & Hidx & Hnm & Hnn & Hus & Hes & Hs0 & C & HC & Hi & Hii & Hiii & Hiv).
    destruct (Hok (u, g) ltac:(left; reflexivity)) as [Hu Hint]. cbn [fst snd] in Hu, Hint.
    assert (Hids : forall b, In b (buckets db) -> b_id b < bucket_seq db).
    { intros b Hb. rewrite HC in Hb. apply in_app_or in Hb as [Hb | Hb];
        [specialize (HG b Hb); lia | destruct (Hi b Hb) as [? _]; lia]. }
    cbn [for_each fst snd]. unfold bind at 1 2.
    rewrite insert_unindexed by (auto; rewrite Hus; exact Hu). unfold ret at 1.
    set (row := mkBucket (bucket_seq db) (Some u) (b_name g) (b_sort g)).
    destruct (IH ((u, g) :: done)
                (with_buckets (buckets db ++ [row]) (with_seq (bucket_seq db + 1) db)) HG)
      as (db' & Hrun & HJ').
    + intros p Hp. apply Hok. right. exact Hp.
    + exact Hnd.
    + intros p q Hp [<- | Hq]; [| apply Hfresh; [right |]; assumption].
      intros E. apply Hnew. rewrite <- E. apply list_elem_of_In.
      exact (in_map pair_key todo p Hp).
    + proj_db. repeat split; auto; [lia |]. exists (C ++ [row])%list.
      split; [rewrite HC, app_assoc; reflexivity |]. split; [| split; [| split]].
      * intros c Hc. apply in_app_or in Hc as [Hc | [<- | []]].
        -- destruct (Hi c Hc) as [Hr (p & Hp & Hpc)]. split; [lia |]. exists p. split; [right |]; auto.
        -- cbn [b_id row]. split; [lia |]. exists (u, g). split; [left; reflexivity | cbn; auto].
      * intros p [<- | Hp].
        -- exists row. split; [apply in_or_app; right; left; reflexivity | cbn; auto].
        -- destruct (Hii p Hp) as (c & Hc & Hpc). exists c. split; [apply in_or_app; left |]; auto.
      * rewrite map_app. cbn [map]. apply NoDup_app. split; [exact Hiii |].
        split; [| apply NoDup_singleton].
        intros i Hin Hin'. apply list_elem_of_In in Hin, Hin'. destruct Hin' as [<- | []].
        apply in_map_iff in Hin as (c & Hci & Hc). destruct (Hi c Hc) as [Hr _].
        cbn [b_id row] in Hci. lia.
      * apply keys_nodup_snoc; [exact Hiv |]. intros Hk.
        apply user_name_key_in in Hk as (c & Hc & Hcu & Hcn).
        destruct (Hi c Hc) as [_ (p & Hp & Hpu & Hpn & _)].
        apply (Hfresh (u, g) p ltac:(left; reflexivity) Hp). cbn [fst snd]. congruence.
    + exists db'. split; [exact Hrun |].
      destruct HJ' as (H1 & H2 & H3 & H4 & H5 & H6 & H7 & C' & HC' & Hi' & Hii' & Hiii' & Hiv').
      repeat split; auto. exists C'. split; [exact HC' |]. split; [| split; [| split]]; auto.
      * intros c Hc. destruct (Hi' c Hc) as [Hr (p & Hp & Hpc)]. split; [exact Hr |].
        exists p. split; [| exact Hpc].
        apply in_app_or in Hp as [Hp | [<- | Hp]];
          [right; apply in_or_app; left | left | right; apply in_or_app; right]; auto.
      * intros p Hp. apply Hii'. destruct Hp as [<- | Hp]; [apply in_or_app; right; left; auto |].
        apply in_app_or in Hp as [Hp | Hp]; apply in_or_app; [left | right; right]; auto.
Qed.

Lemma find_app_skip {A} (f : A -> bool) (l1 l2 : list A) :
  (forall x, In x l1 -> f x = false) -> List.find f (l1 ++ l2) = List.find f l2.
Proof.
  induction l1 as [| x l1 IH]; intros H; [reflexivity |]. cbn [app List.find].
  rewrite (H x (or_introl eq_refl)). apply IH. intros y Hy. apply H. right. exact Hy.
Qed.

Lemma nodup_map_rekey {A K K'} (k : A -> K) (k' : A -> K') (l : list A) :
  NoDup (map k l) ->
  (forall x y, In x l -> In y l -> k' x = k' y -> k x = k y) ->
  NoDup (map k' l).
Proof.
  induction l as [| x l IH]; intros Hnd Hinj; [constructor |]. cbn [map] in *.
  apply NoDup_cons in Hnd as [Hx Hnd]. apply NoDup_cons. split.
  - intros Hin. apply Hx. apply list_elem_of_In, in_map_iff in Hin as (y & Hy & Hin).
    apply list_elem_of_In. rewrite (Hinj x y); [apply in_map, Hin | left; reflexivity
                                               | right; exact Hin | symmetry; exact Hy].
  - apply IH; [exact Hnd |]. intros a b Ha Hb. apply Hinj; right; assumption.
Qed.

Lemma nodup_map_in_inj {A B} (f : A -> B) (l : list A) x y :
  NoDup (map f l) -> In x l -> In y l -> f x = f y -> x = y.
Proof.
  induction l as [| a l IH]; [intros _ [] |]. cbn [map]. intros Hnd Hx Hy Hf.
  apply NoDup_cons in Hnd as [Ha Hnd].
  destruct Hx as [-> | Hx], Hy as [-> | Hy]; [reflexivity | | | apply IH; assumption].
  - exfalso. apply Ha. rewrite Hf. apply list_elem_of_In, in_map, Hy.
  - exfalso. apply Ha. rewrite <- Hf. apply list_elem_of_In, in_map, Hx.
Qed.

Section RelinkLoop.

(** [G]: the legacy buckets, ownerless; [C]: their clones, one per user
    and legacy bucket; [es]: the entries before the relinking. *)
Variables (G C : list BucketRow) (s0 : Z) (us : list Z) (es : list EntryRow).
Hypothesis G_ids : NoDup (map b_id G).
Hypothesis G_names : NoDup (map b_name G).
Hypothesis G_low : forall g, In g G -> b_id g < s0.
Hypothesis G_global : forall g, In g G -> is_global g = true.
Hypothesis C_high : forall c, In c C -> s0 <= b_id c.
Hypothesis C_all : forall u g, In u us -> In g G ->
  exists c, In c C /\ b_user c = Some u /\ b_name c = b_name g.
Hypothesis C_ids : NoDup (map b_id C).
Hypothesis es_keys : NoDup (map entry_key es).
Hypothesis es_bucket : forall e, In e es -> exists g, In g G /\ b_id g = e_bucket e.
Hypothesis es_user : forall e, In e es -> In (e_user e) us.

Lemma userBucket_found u g :
  In u us -> In g G ->
  exists c, Relink.userBucket (G ++ C) u (b_name g) = Some c
            /\ Relink.userBucket C u (b_name g) = Some c
            /\ In c C /\ b_user c = Some u /\ b_name c = b_name g.
Proof.
  intros Hu Hg. unfold Relink.userBucket. rewrite find_app_skip.
  2:{ intros x Hx. specialize (G_global x Hx). unfold is_global in G_global.
      unfold owned_by. destruct (b_user x); [discriminate | reflexivity]. }
  destruct (C_all u g Hu Hg) as (c0 & Hc0 & Hcu & Hcn).
  destruct (List.find _ C) as [c |] eqn:Hf.
  - apply find_some in Hf as [Hc Hp]. apply andb_true_iff in Hp as [Ho Hn].
    apply String.eqb_eq in Hn. exists c. repeat split; auto.
    unfold owned_by in Ho. destruct (b_user c); [| discriminate].
    apply Z.eqb_eq in Ho. congruence.
  - exfalso. pose proof (find_none _ _ Hf c0 Hc0) as Hno. cbv beta in Hno.
    unfold owned_by in Hno. rewrite Hcu, Hcn, Z.eqb_refl, String.eqb_refl in Hno. discriminate.
Qed.

Lemma moved_spec e :
  In e es ->
  exists g c, In g G /\ b_id g = e_bucket e /\ In c C
              /\ b_user c = Some (e_user e) /\ b_name c = b_name g
              /\ Relink.userBucket C (e_user e) (b_name g) = Some c
              /\ Relink.moved G C e = mkEntry (e_user e) (b_id c) (e_date e) (e_checked e).
Proof.
  intros He. destruct (es_bucket e He) as (g0 & Hg0 & Hid0). unfold Relink.moved.
  destruct (List.find _ G) as [g |] eqn:Hf.
  - apply find_some in Hf as [Hg Hid]. apply Z.eqb_eq in Hid.
    destruct (userBucket_found (e_user e) g (es_user e He) Hg) as (c & _ & Hub & Hc & Hcu & Hcn).
    rewrite Hub. exists g, c. repeat split; auto.
  - exfalso. pose proof (find_none _ _ Hf g0 Hg0) as Hno. cbv beta in Hno.
    rewrite Hid0, Z.eqb_refl in Hno. discriminate.
Qed.

(** Entry [e] is one of those the step for the pair [p] rewrites. *)
Local Abbreviation hits e := (fun p : Z * BucketRow =>
  (e_user e =? fst p) && (e_bucket e =? b_id (snd p))).

(** The entries once the pairs [L] have been worked through. *)
Local Abbreviation partly L := (fun e =>
  if existsb (hits e) L then Relink.moved G C e else e).

Lemma partly_keys_nodup (L : list (Z * BucketRow)) :
  NoDup (map entry_key (map (partly L) es)).
Proof.
  rewrite map_map. apply (nodup_map_rekey entry_key); [exact es_keys |].
  intros x y Hx Hy. cbv beta.
  destruct (moved_spec x Hx) as (gx & cx & Hgx & Hix & Hcx & Hux & Hnx & _ & Hmx).
  destruct (moved_spec y Hy) as (gy & cy & Hgy & Hiy & Hcy & Huy & Hny & _ & Hmy).
  rewrite Hmx, Hmy.
  destruct (existsb (hits x) L), (existsb (hits y) L); unfold entry_key; cbn;
    intros E; injection E as Eu Eb Ey Em Ed.
  - assert (cx = cy) by (apply (nodup_map_in_inj b_id C); auto). subst cy.
    assert (gx = gy) by (apply (nodup_map_in_inj b_name G); auto; congruence). subst gy.
    congruence.
  - exfalso. specialize (C_high cx Hcx). specialize (G_low gy Hgy). lia.
  - exfalso. specialize (C_high cy Hcy). specialize (G_low gx Hgx). lia.
  - congruence.
Qed.

Lemma relink_loop (todo : list (Z * BucketRow)) : forall done db,
  (forall p, In p todo -> In (fst p) us /\ In (snd p) G) ->
  col_user_id db = true -> buckets db = (G ++ C)%list ->
  entries db = map (partly done) es ->
  exists L,
    (forall p, In p L <-> In p todo \/ In p done)
    /\ for_each todo (fun p =>
         bind (select_user_bucket (fst p) (b_name (snd p)))
              (fun userBucket =>
                 match userBucket with
                 | Some ub => relink_entries (fst p) (b_id (snd p)) (b_id ub)
                 | None => ret tt
                 end)) db
       = Done tt (with_entries (map (partly L) es) db).
Proof.
  induction todo as [| [u g] todo IH]; intros done db Hok Hcol Hbs Hes.
  - exists done. split; [intros p; cbn [In]; tauto |]. cbn [for_each]. unfold ret.
    rewrite <- Hes. destruct db; reflexivity.
  - destruct (Hok (u, g) ltac:(left; reflexivity)) as [Hu Hg]. cbn [fst snd] in Hu, Hg.
    destruct (userBucket_found u g Hu Hg) as (ub & Hfind & Hub & Hc & Hcu & Hcn).
    assert (Hstep : map (fun e => if (e_user e =? u) && (e_bucket e =? b_id g)
                                  then mkEntry (e_user e) (b_id ub) (e_date e) (e_checked e)
                                  else e) (entries db)
                    = map (partly ((u, g) :: done)) es).
    { rewrite Hes, map_map. apply map_ext_in. intros e He. cbn [existsb fst snd].
      destruct (moved_spec e He) as (g' & c' & Hg' & Hi' & Hc' & Hu' & Hn' & Hub' & Hm').
      destruct (existsb (hits e) done).
      - rewrite orb_true_r, Hm'. cbn [e_user e_bucket e_date e_checked].
        destruct (Z.eqb_spec (b_id c') (b_id g)) as [E |]; [| rewrite andb_false_r; reflexivity].
        exfalso. specialize (C_high c' Hc'). specialize (G_low g Hg). lia.
      - rewrite orb_false_r.
        destruct ((e_user e =? u) && (e_bucket e =? b_id g)) eqn:Hh; [| reflexivity].
        apply andb_true_iff in Hh as [Heu Heb]. apply Z.eqb_eq in Heu, Heb.
        assert (g' = g) by (apply (nodup_map_in_inj b_id G); auto; congruence). subst g'.
        rewrite Hm'. rewrite Heu, Hub in Hub'. congruence. }
    assert (Hhead : bind (select_user_bucket u (b_name g))
                      (fun userBucket =>
                         match userBucket with
                         | Some ub => relink_entries u (b_id g) (b_id ub)
                         | None => ret tt
                         end) db
                    = Done tt (with_entries (map (partly ((u, g) :: done)) es) db)).
    { unfold select_user_bucket, bind, need_user_id.
      rewrite Hcol, Hbs. fold (Relink.userBucket (G ++ C) u (b_name g)). rewrite Hfind.
      unfold relink_entries. rewrite Hstep.
      rewrite (bool_decide_eq_true_2 _ (partly_keys_nodup ((u, g) :: done))). reflexivity. }
    destruct (IH ((u, g) :: done)
                (with_entries (map (partly ((u, g) :: done)) es) db))
      as (L & HL & Hrun); auto.
    { intros p Hp. apply Hok. right. exact Hp. }
    exists L. split.
    + intros p. rewrite HL. cbn [In]. tauto.
    + cbn [for_each fst snd]. unfold bind at 1. rewrite Hhead, Hrun. destruct db; reflexivity.
Qed.

End RelinkLoop.

Lemma bind_step {A B} (c : M A) (k : A -> M B) db a db' :
  c db = Done a db' -> bind c k db = k a db'.
Proof. intros H. unfold bind. rewrite H. reflexivity. Qed.

Lemma nodup_pair_keys (us : list Z) (G : list BucketRow) :
  NoDup us -> NoDup (map b_name G) -> NoDup (map pair_key (list_prod us G)).
Proof.
  intros Hus HG. induction us as [| u us IH]; [constructor |].
  apply NoDup_cons in Hus as [Hu Hus]. cbn [list_prod]. rewrite map_app, map_map.
  apply NoDup_app. split; [| split; [| apply IH, Hus]].
  - change (map (fun g => pair_key (u, g)) G) with (map (fun g => (u, b_name g)) G).
    rewrite <- (map_map b_name (pair u)). apply (NoDup_fmap_2 (pair u)), HG.
  - intros k Hk Hk'. apply list_elem_of_In, in_map_iff in Hk as (g & <- & _).
    apply list_elem_of_In, in_map_iff in Hk' as ([u' g'] & E & Hp).
    apply in_prod_iff in Hp as [Hu' _]. cbn in E. injection E as -> _.
    apply Hu, list_elem_of_In, Hu'.
Qed.

Lemma moved_orphans (bs C : list BucketRow) e :
  Relink.moved (map (fun b => mkBucket (b_id b) None (b_name b) (b_sort b)) bs) C e
  = Relink.moved bs C e.
Proof.
  unfold Relink.moved. induction bs as [| b l IH]; [reflexivity |].
  cbn [map List.find b_id b_name]. destruct (b_id b =? e_bucket e); [reflexivity | exact IH].
Qed.

(** X13.  Where no unique index on the bucket name exists, the migration
    does what it is for.  On a legacy store that satisfies its constraints,
    with users, with buckets of distinct names, it succeeds and leaves the
    per-user schema; every user gets one bucket for each legacy bucket, of
    its name and position, and there are no others; and every entry is
    kept, moved to its user's bucket of the same name as the legacy bucket
    it was recorded against.  The result satisfies the constraints again. *)
Theorem migration_relinks_entries db :
  col_user_id db = false -> idx_name_unique db = false -> idx_user_name_unique db = false ->
  Integrity.Wf db ->
  NoDup (users db) -> users db <> [] -> buckets db <> [] ->
  NoDup (map b_name (buckets db)) ->
  (forall g, In g (buckets db) -> b_id g < bucket_seq db /\ int4 (b_sort g) = true) ->
  exists db',
    Migrate.migrate db = Done tt db'
    /\ col_user_id db' = true /\ user_id_not_null db' = true
    /\ idx_user_name_unique db' = true /\ idx_name_unique db' = false
    /\ users db' = users db
    /\ entries db' = map (Relink.moved (buckets db) (buckets db')) (entries db)
    /\ (forall e, In e (entries db) ->
          exists g c, In g (buckets db) /\ b_id g = e_bucket e
                      /\ In c (buckets db') /\ b_user c = Some (e_user e)
                      /\ b_name c = b_name g
                      /\ Relink.moved (buckets db) (buckets db') e
                         = mkEntry (e_user e) (b_id c) (e_date e) (e_checked e))
    /\ (forall c, In c (buckets db') ->
          exists u g, In u (users db) /\ In g (buckets db) /\ b_user c = Some u
                      /\ b_name c = b_name g /\ b_sort c = b_sort g)
    /\ (forall u g, In u (users db) -> In g (buckets db) ->
          exists c, In c (buckets db') /\ b_user c = Some u /\ b_name c = b_name g)
    /\ NoDup (user_name_keys (buckets db'))
    /\ Integrity.Wf db'.
Proof.
  intros Hcol Hnm Hidx (Hpk & Hkeys & (Hfk & Hfu & _) & Hdate) Hus Hsome Hbsome Hnames Hrows.
  set (orphan := fun b => mkBucket (b_id b) None (b_name b) (b_sort b)).
  set (G := map orphan (buckets db)).
  set (db0 := with_col_user_id true (with_buckets G db)).
  assert (HGid : map b_id G = map b_id (buckets db)) by (unfold G; rewrite map_map; reflexivity).
  assert (HGname : map b_name G = map b_name (buckets db))
    by (unfold G; rewrite map_map; reflexivity).
  assert (HGin : forall g, In g G -> exists b, In b (buckets db) /\ g = orphan b).
  { intros g Hg. apply in_map_iff in Hg as (b & <- & Hb). eauto. }
  assert (HGlow : forall g, In g G -> b_id g < bucket_seq db).
  { intros g Hg. destruct (HGin g Hg) as (b & Hb & ->). apply (Hrows b Hb). }
  assert (HGglobal : forall g, In g G -> is_global g = true).
  { intros g Hg. destruct (HGin g Hg) as (b & Hb & ->). reflexivity. }
  (* the clones *)
  destruct (clone_loop G (bucket_seq db) (users db) (entries db) (user_id_not_null db)
              (list_prod (users db) G) [] db0 HGlow)
    as (db1 & Hclone & Hcol1 & Hidx1 & Hnm1 & Hnn1 & Hus1 & Hes1 & Hseq1
        & C & HC & Hi & Hii & Hiii & Hiv).
  { intros [u g] Hp. apply in_prod_iff in Hp as [Hu Hg]. split; [exact Hu |].
    destruct (HGin g Hg) as (b & Hb & ->). apply (Hrows b Hb). }
  { apply nodup_pair_keys; [exact Hus | rewrite HGname; exact Hnames]. }
  { intros p q _ []. }
  { unfold db0. proj_db. repeat split; auto; [lia |]. exists []. rewrite app_nil_r.
    split; [reflexivity |]. split; [intros ? [] |]. split; [intros ? [] |].
    split; apply NoDup_nil_2. }
  rewrite app_nil_r in Hi, Hii.
  assert (HCall : forall u g, In u (users db) -> In g G ->
                    exists c, In c C /\ b_user c = Some u /\ b_name c = b_name g).
  { intros u g Hu Hg. apply (Hii (u, g)). apply in_prod; assumption. }
  assert (HChigh : forall c, In c C -> bucket_seq db <= b_id c).
  { intros c Hc. destruct (Hi c Hc) as [? _]. lia. }
  assert (Hesb : forall e, In e (entries db) -> exists g, In g G /\ b_id g = e_bucket e).
  { intros e He. destruct (Hfk e He) as (b & Hb & Hid). exists (orphan b).
    split; [apply in_map, Hb | exact Hid]. }
  assert (HGids : NoDup (map b_id G)) by (rewrite HGid; exact Hpk).
  assert (HGnames : NoDup (map b_name G)) by (rewrite HGname; exact Hnames).
  (* the relinking *)
  destruct (relink_loop G C (bucket_seq db) (users db) (entries db)
              HGids HGnames HGlow HGglobal HChigh HCall Hiii Hkeys Hesb Hfu
              (list_prod (users db) G) [] db1)
    as (L & HL & Hrelink); auto.
  { intros [u g] Hp. apply in_prod_iff in Hp. exact Hp. }
  { rewrite Hes1. symmetry. apply map_id. }
  pose proof (moved_spec G C (users db) (entries db) HGglobal HCall Hesb Hfu) as Hmoved.
  assert (Hall : map (fun e => if existsb (fun p : Z * BucketRow =>
                                    (e_user e =? fst p) && (e_bucket e =? b_id (snd p))) L
                               then Relink.moved G C e else e) (entries db)
                 = map (Relink.moved G C) (entries db)).
  { apply map_ext_in. intros e He. destruct (Hesb e He) as (g & Hg & Hid).
    assert (Hex : existsb (fun p : Z * BucketRow =>
                    (e_user e =? fst p) && (e_bucket e =? b_id (snd p))) L = true).
    { apply existsb_exists. exists (e_user e, g). split.
      - apply HL. left. apply in_prod; [apply Hfu, He | exact Hg].
      - cbn [fst snd]. rewrite Hid, !Z.eqb_refl. reflexivity. }
    rewrite Hex. reflexivity. }
  rewrite Hall in Hrelink.
  assert (Hsame : forall e, Relink.moved (buckets db) C e = Relink.moved G C e)
    by (intros e; symmetry; apply moved_orphans).
  set (db2 := with_entries (map (Relink.moved G C) (entries db)) db1) in *.
  set (db3 := with_entries (map (Relink.moved G C) (entries db)) (with_buckets C db2)).
  assert (HCowned : forall c, In c C -> is_global c = false).
  { intros c Hc. destruct (Hi c Hc) as [_ (p & _ & Hu & _)]. unfold is_global.
    rewrite Hu. reflexivity. }
  assert (Hdelete : delete_global_buckets db2 = Done tt db3).
  { unfold delete_global_buckets, bind, need_user_id, db3, db2. proj_db. rewrite Hcol1.
    proj_db. rewrite HC.
    rewrite !List.filter_app, (filter_all _ G HGglobal), (filter_none _ C HCowned), app_nil_r.
    rewrite (filter_none _ G), (filter_all _ C); cbn [app].
    - f_equal. f_equal. unfold cascade. apply filter_all. intros e' He'.
      apply in_map_iff in He' as (e & <- & He).
      destruct (Hmoved e He) as (g & c & _ & _ & Hc & _ & _ & _ & ->). cbn [e_bucket].
      destruct (existsb _ G) eqn:Hx; [| reflexivity]. exfalso.
      apply existsb_exists in Hx as (g' & Hg' & Hid). apply Z.eqb_eq in Hid.
      specialize (HChigh c Hc). specialize (HGlow g' Hg'). lia.
    - intros c Hc. rewrite (HCowned c Hc). reflexivity.
    - intros g Hg. rewrite (HGglobal g Hg). reflexivity. }
  assert (Hfinish :
    bind set_user_id_not_null
      (fun _ => bind drop_index_name_unique (fun _ => create_index_user_name_unique)) db3
    = Done tt (with_idx_user_name true (with_idx_name false (with_not_null true db3)))).
  { assert (Hno : existsb is_global C = false).
    { destruct (existsb is_global C) eqn:Hx; [| reflexivity]. exfalso.
      apply existsb_exists in Hx as (c & Hc & Hg). rewrite (HCowned c Hc) in Hg. discriminate. }
    unfold set_user_id_not_null, drop_index_name_unique, create_index_user_name_unique,
      bind, need_user_id, db3, db2.
    repeat (proj_db; first [rewrite Hcol1 | rewrite Hno | rewrite Hidx1
                           | rewrite (bool_decide_eq_true_2 _ Hiv)]).
    reflexivity. }
  set (db' := with_idx_user_name true
                (with_idx_name false
                   (with_not_null true
                      (with_entries (map (Relink.moved G C) (entries db))
                         (with_buckets C db1))))).
  exists db'. unfold db'. proj_db.
  refine (conj _ (conj Hcol1 (conj eq_refl (conj eq_refl (conj eq_refl (conj Hus1
           (conj _ (conj _ (conj _ (conj _ (conj Hiv _))))))))))).
  - unfold Migrate.migrate.
    rewrite (bind_step _ _ db false db)
      by (unfold column_user_id_exists; rewrite Hcol; reflexivity).
    cbn [negb]. rewrite (bind_step _ _ db tt db0) by reflexivity.
    rewrite (bind_step _ _ db0 G db0)
      by (unfold select_global_buckets, bind, need_user_id; cbn [db0 col_user_id with_col_user_id];
          unfold db0; proj_db; rewrite (filter_all _ _ HGglobal); reflexivity).
    rewrite (bind_step _ _ db0 (users db) db0) by reflexivity.
    assert (Hne : Migrate.nonempty G && Migrate.nonempty (users db) = true).
    { unfold G. destruct (buckets db); [congruence |]. destruct (users db); [congruence |].
      reflexivity. }
    rewrite Hne.
    rewrite (bind_step _ _ db0 tt db3); [exact Hfinish |].
    rewrite (bind_step _ _ db0 tt db1) by (rewrite for_each_nested; exact Hclone).
    rewrite (bind_step _ _ db1 tt db2) by (rewrite for_each_nested; exact Hrelink).
    exact Hdelete.
  - apply map_ext. intros e. symmetry. apply Hsame.
  - intros e He. destruct (Hmoved e He) as (g & c & Hg & Hid & Hc & Hu & Hn & _ & Hm).
    destruct (HGin g Hg) as (b & Hb & ->). exists b, c. rewrite Hsame. repeat split; auto.
  - intros c Hc. destruct (Hi c Hc) as [_ ([u g] & Hp & Hu & Hn & Hs)].
    apply in_prod_iff in Hp as [Hpu Hpg]. destruct (HGin g Hpg) as (b & Hb & ->).
    exists u, b. repeat split; auto.
  - intros u b Hu Hb. apply (HCall u (orphan b) Hu). apply in_map, Hb.
  - unfold Integrity.Wf, Integrity.Refs. proj_db.
    split; [exact Hiii |]. split; [| split; [split; [| split] |]].
    + pose proof (partly_keys_nodup G C (bucket_seq db) (users db) (entries db)
                    HGnames HGlow HGglobal HChigh HCall Hiii Hkeys Hesb Hfu L) as Hk.
      cbv beta in Hk. rewrite Hall in Hk. exact Hk.
    + intros e' He'. apply in_map_iff in He' as (e & <- & He).
      destruct (Hmoved e He) as (g & c & _ & _ & Hc & _ & _ & _ & ->). exists c. auto.
    + intros e' He'. apply in_map_iff in He' as (e & <- & He).
      destruct (Hmoved e He) as (g & c & _ & _ & Hc & _ & _ & _ & ->). cbn [e_user].
      rewrite Hus1. apply Hfu, He.
    + intros c v Hc Hv. destruct (Hi c Hc) as [_ ([u g] & Hp & Hu & _)].
      apply in_prod_iff in Hp as [Hpu _]. cbn [fst] in Hu. rewrite Hus1. congruence.
    + intros e' He'. apply in_map_iff in He' as (e & <- & He).
      destruct (Hmoved e He) as (g & c & _ & _ & Hc & _ & _ & _ & ->). cbn [e_date].
      apply Hdate, He.
Qed.

Lemma migration_relinks_entries_witness :
  let d := IsoDate.mk 2024 4 15 in
  let db := mkDB [1; 2] [mkBucket 1 None "Run" 1; mkBucket 2 None "Swim" 2]
                 [mkEntry 1 1 d true; mkEntry 2 1 d true; mkEntry 2 2 d false]
                 3 false false false false in
  exists db',
    Migrate.migrate db = Done tt db'
    /\ entries db' = map (Relink.moved (buckets db) (buckets db')) (entries db)
    /\ Integrity.Wf db'.
Proof.
  intros d db.
  destruct (migration_relinks_entries db eq_refl eq_refl eq_refl)
    as (db' & Hrun & _ & _ & _ & _ & _ & Hes & _ & _ & _ & _ & HW).
  - unfold Integrity.Wf, Integrity.Refs. cbn [buckets entries users db].
    split; [apply (bool_decide_unpack (NoDup [1; 2])); vm_compute; exact I |].
    split; [apply (bool_decide_unpack (NoDup (map entry_key (entries db))));
            vm_compute; exact I |].
    split; [split; [| split] |].
    + intros e [<- | [<- | [<- | []]]];
        [exists (mkBucket 1 None "Run" 1) | exists (mkBucket 1 None "Run" 1)
         | exists (mkBucket 2 None "Swim" 2)]; cbn; auto.
    + intros e [<- | [<- | [<- | []]]]; cbn; auto.
    + intros b u [<- | [<- | []]]; discriminate.
    + intros e [<- | [<- | [<- | []]]]; reflexivity.
  - apply (bool_decide_unpack (NoDup [1; 2])). vm_compute. exact I.
  - discriminate.
  - discriminate.
  - apply (bool_decide_unpack (NoDup ["Run"; "Swim"])). vm_compute. exact I.
  - intros g [<- | [<- | []]]; split; reflexivity.
  - exists db'. split; [exact Hrun |]. split; [exact Hes | exact HW].
Defined.

End RelinkFacts.

(* ================================================================== *)
(** * The note of a day: [POST /api/notes] *)

Section NotesFacts.
Import Http Js.

(** The text a saved note shows as. *)
Local Abbreviation shown v :=
  (match v with JStr s => trim s | _ => "" end).

Lemma truthy_string_empty s : truthy_string s = false -> s = "".
Proof. destruct s; [reflexivity | discriminate]. Qed.

Lemma same_day_self u d t c m : Notes.same_day u d (Notes.mkNote u d t c m) = true.
Proof. unfold Notes.same_day. cbn. rewrite Z.eqb_refl, date_eqb_refl. reflexivity. Qed.

Lemma delete_note_spec u d db db' :
  Notes.delete_note u d db = Notes.Done tt db' ->
  IsoDate.validb d = true
  /\ Notes.users db' = Notes.users db
  /\ Notes.user_notes db'
     = List.filter (fun n => negb (Notes.same_day u d n)) (Notes.user_notes db).
Proof.
  unfold Notes.delete_note. destruct (IsoDate.validb d); cbn [negb]; [| discriminate].
  intros H. injection H as <-. auto.
Qed.

Lemma upsert_note_spec now u d text db db' :
  Notes.upsert_note now u d text db = Notes.Done tt db' ->
  IsoDate.validb d = true
  /\ Notes.users db' = Notes.users db
  /\ ((existsb (Notes.same_day u d) (Notes.user_notes db) = true
       /\ Notes.user_notes db'
          = map (fun n => if Notes.same_day u d n
                          then Notes.mkNote (Notes.n_user n) (Notes.n_date n) (Some text)
                                            (Notes.n_created n) now
                          else n) (Notes.user_notes db))
      \/ (existsb (Notes.same_day u d) (Notes.user_notes db) = false
          /\ In u (Notes.users db)
          /\ Notes.user_notes db'
             = (Notes.user_notes db ++ [Notes.mkNote u d (Some text) now now])%list)).
Proof.
  unfold Notes.upsert_note. destruct (IsoDate.validb d); cbn [negb]; [| discriminate].
  destruct (existsb (Notes.same_day u d) (Notes.user_notes db)) eqn:Hex.
  - intros H. injection H as <-. auto.
  - destruct (existsb (Z.eqb u) (Notes.users db)) eqn:Hu; cbn [negb]; [| discriminate].
    intros H. injection H as <-. split; [reflexivity |]. split; [reflexivity |]. right.
    split; [reflexivity |]. split; [| reflexivity].
    apply existsb_exists in Hu as (v & Hv & E). apply Z.eqb_eq in E. subst. exact Hv.
Qed.

Lemma find_filtered_out {A} (f : A -> bool) (l : list A) :
  List.find f (List.filter (fun x => negb (f x)) l) = None.
Proof.
  induction l as [| x l IH]; [reflexivity |]. cbn [List.filter].
  destruct (f x) eqn:Hf; cbn [negb]; [exact IH |]. cbn [List.find]. rewrite Hf. exact IH.
Qed.

Lemma note_overwrite_slot u d t now n :
  Notes.same_day u d
    (if Notes.same_day u d n
     then Notes.mkNote (Notes.n_user n) (Notes.n_date n) t (Notes.n_created n) now
     else n)
  = Notes.same_day u d n.
Proof. destruct (Notes.same_day u d n) eqn:H; exact H. Qed.

Lemma note_overwrite_others u d t now (l : list Notes.NoteRow) :
  List.filter (fun n => negb (Notes.same_day u d n))
    (map (fun n => if Notes.same_day u d n
                   then Notes.mkNote (Notes.n_user n) (Notes.n_date n) t
                                     (Notes.n_created n) now
                   else n) l)
  = List.filter (fun n => negb (Notes.same_day u d n)) l.
Proof.
  induction l as [| n l IH]; [reflexivity |]. cbn [map List.filter].
  rewrite note_overwrite_slot, IH. destruct (Notes.same_day u d n); reflexivity.
Qed.

Lemma note_overwrite_find u d t now (l : list Notes.NoteRow) :
  existsb (Notes.same_day u d) l = true ->
  exists n, List.find (Notes.same_day u d)
              (map (fun n => if Notes.same_day u d n
                             then Notes.mkNote (Notes.n_user n) (Notes.n_date n) t
                                               (Notes.n_created n) now
                             else n) l) = Some n
            /\ Notes.n_notes n = t.
Proof.
  induction l as [| n l IH]; [discriminate |]. cbn [map List.find existsb].
  rewrite note_overwrite_slot. destruct (Notes.same_day u d n) eqn:Hn.
  - intros _. eexists. split; reflexivity.
  - exact IH.
Qed.

Lemma note_appended_find u d n0 (l : list Notes.NoteRow) :
  existsb (Notes.same_day u d) l = false -> Notes.same_day u d n0 = true ->
  List.find (Notes.same_day u d) (l ++ [n0]) = Some n0.
Proof.
  induction l as [| n l IH]; cbn [app List.find existsb]; intros Hex H0.
  - rewrite H0. reflexivity.
  - apply orb_false_iff in Hex as [Hn Hl]. rewrite Hn. apply IH; assumption.
Qed.

(** What an accepted request made of the notes. *)
Lemma notes_post_cases now u d v db r db' :
  Notes.handler now (Some u) POST (Some (Notes.mkPayload (Some d) v)) db = Notes.Done r db' ->
  r = mkResponse 200 OkBody
  /\ ((shown v = "" /\ Notes.delete_note u d db = Notes.Done tt db')
      \/ (shown v <> "" /\ Notes.upsert_note now u d (shown v) db = Notes.Done tt db')).
Proof.
  unfold Notes.handler, Notes.saved.
  destruct v as [| | | | s |]; try discriminate.
  - destruct (Notes.delete_note u d db) as [[] db1 |] eqn:H; [| discriminate].
    intros E. injection E as <- <-. auto.
  - destruct (Notes.delete_note u d db) as [[] db1 |] eqn:H; [| discriminate].
    intros E. injection E as <- <-. auto.
  - destruct (truthy_string (trim s)) eqn:Ht; cbn [negb].
    + destruct (Notes.upsert_note now u d (trim s) db) as [[] db1 |] eqn:H; [| discriminate].
      intros E. injection E as <- <-. split; [reflexivity |]. right. split; [| reflexivity].
      intros E. rewrite E in Ht. discriminate.
    + destruct (Notes.delete_note u d db) as [[] db1 |] eqn:H; [| discriminate].
      intros E. injection E as <- <-. split; [reflexivity |]. left.
      split; [apply truthy_string_empty, Ht | reflexivity].
Qed.

(** X14.  What is saved is what is shown.  After [POST /api/notes] has
    accepted a note for a day, the dashboard's current note of that user
    and day is the trimmed text that was sent (the empty text where the
    note was blank or missing, the row being deleted); the notes of other
    users and days are as before. *)
Theorem saved_note_is_shown now user d v db r db' :
  Notes.handler now (Some (App.u_id user)) POST
    (Some (Notes.mkPayload (Some d) v)) db = Notes.Done r db' ->
  Notes.currentNote (Some user) (Notes.user_notes db') d = shown v
  /\ List.filter (fun n => negb (Notes.same_day (App.u_id user) d n)) (Notes.user_notes db')
     = List.filter (fun n => negb (Notes.same_day (App.u_id user) d n)) (Notes.user_notes db)
  /\ Notes.users db' = Notes.users db.
Proof.
  intros Hrun. set (u := App.u_id user) in *.
  destruct (notes_post_cases now u d v db r db' Hrun) as [_ [[Hv Hdel] | [Hv Hup]]].
  - destruct (delete_note_spec u d db db' Hdel) as (_ & Hus & Hns). rewrite Hns, Hv.
    split; [| split; [| exact Hus]].
    + unfold Notes.currentNote. fold u. fold (Notes.same_day u d).
      change (fun n => Notes.same_day u d n) with (Notes.same_day u d).
      rewrite (find_filtered_out (Notes.same_day u d)). reflexivity.
    + rewrite filter_filter. apply List.filter_ext. intros n. apply andb_diag.
  - destruct (upsert_note_spec now u d _ db db' Hup)
      as (_ & Hus & [[Hex Hns] | (Hex & _ & Hns)]); rewrite Hns;
      (split; [| split; [| exact Hus]]).
    + unfold Notes.currentNote. fold u.
      change (fun n => (Notes.n_user n =? u) && IsoDate.eqb (Notes.n_date n) d)
        with (Notes.same_day u d).
      destruct (note_overwrite_find u d (Some (shown v)) now _ Hex) as (n & -> & ->).
      reflexivity.
    + apply note_overwrite_others.
    + unfold Notes.currentNote. fold u.
      change (fun n => (Notes.n_user n =? u) && IsoDate.eqb (Notes.n_date n) d)
        with (Notes.same_day u d).
      rewrite (note_appended_find u d _ _ Hex (same_day_self u d _ _ _)). reflexivity.
    + rewrite List.filter_app. cbn [List.filter]. rewrite same_day_self. cbn [negb].
      apply app_nil_r.
Qed.

Lemma saved_note_is_shown_witness :
  let d := IsoDate.mk 2024 4 16 in
  let user := App.mkUser 1 "Sky" in
  let db := Notes.mkDB [1; 2] [Notes.mkNote 1 d (Some "old") 10 10;
                               Notes.mkNote 2 d (Some "other") 11 11] in
  let db' := Notes.mkDB [1; 2] [Notes.mkNote 1 d (Some "ran 5k") 10 20;
                                Notes.mkNote 2 d (Some "other") 11 11] in
  Notes.currentNote (Some user) (Notes.user_notes db') d = "ran 5k".
Proof.
  intros d user db db'.
  exact (proj1 (saved_note_is_shown 20 user d (JStr "  ran 5k ") db
                  (mkResponse 200 OkBody) db' eq_refl)).
Defined.

(** X15.  [POST /api/notes] keeps the constraints of [user_notes]:
    whatever is sent, by whomever, and whether it is answered or fails,
    there is at most one note per user and day afterwards, every note
    belongs to an existing user, and every stored date is a calendar
    date. *)
Theorem notes_keep_one_per_day now auth method payload db :
  Notes.Wf db -> Notes.Wf (Notes.final (Notes.handler now auth method payload db)).
Proof.
  intros HW. pose proof HW as (Hnd & Hfk & Hdt).
  assert (Hdel : forall u d, Notes.Wf (Notes.final (Notes.saved (Notes.delete_note u d db)))).
  { intros u d. unfold Notes.delete_note. destruct (negb (IsoDate.validb d)); [exact HW |].
    cbn [Notes.saved Notes.final]. unfold Notes.Wf. cbn [Notes.user_notes Notes.users].
    split; [apply NoDup_map_filter, Hnd |].
    split; intros n Hn; apply filter_In in Hn as [Hn _]; auto. }
  assert (Hup : forall u d t,
             Notes.Wf (Notes.final (Notes.saved (Notes.upsert_note now u d t db)))).
  { intros u d t. unfold Notes.upsert_note.
    destruct (IsoDate.validb d) eqn:Hv; cbn [negb]; [| exact HW].
    destruct (existsb (Notes.same_day u d) (Notes.user_notes db)) eqn:Hex.
    - cbn [Notes.saved Notes.final]. unfold Notes.Wf. cbn [Notes.user_notes Notes.users].
      rewrite map_map. split; [| split].
      + erewrite map_ext; [exact Hnd |]. intros n. cbv beta.
        destruct (Notes.same_day u d n); reflexivity.
      + intros n Hn. apply in_map_iff in Hn as (m & <- & Hm). specialize (Hfk m Hm).
        destruct (Notes.same_day u d m); exact Hfk.
      + intros n Hn. apply in_map_iff in Hn as (m & <- & Hm). specialize (Hdt m Hm).
        destruct (Notes.same_day u d m); exact Hdt.
    - destruct (existsb (Z.eqb u) (Notes.users db)) eqn:Hu; cbn [negb]; [| exact HW].
      cbn [Notes.saved Notes.final]. unfold Notes.Wf. cbn [Notes.user_notes Notes.users].
      split; [| split].
      + rewrite map_app. cbn [map]. apply NoDup_app. split; [exact Hnd |].
        split; [| apply NoDup_singleton].
        intros k Hk Hk'. apply list_elem_of_In in Hk, Hk'. destruct Hk' as [<- | []].
        apply in_map_iff in Hk as (n & Hk & Hn). cbn in Hk. injection Hk as Hku Hy Hm Hd.
        assert (existsb (Notes.same_day u d) (Notes.user_notes db) = true); [| congruence].
        apply existsb_exists. exists n. split; [exact Hn |]. unfold Notes.same_day.
        rewrite Hku, Z.eqb_refl. apply date_eqb_eq. destruct (Notes.n_date n), d.
        cbn in *. congruence.
      + intros n Hn. apply in_app_or in Hn as [Hn | [<- | []]]; [auto |]. cbn.
        apply existsb_exists in Hu as (w & Hw & E). apply Z.eqb_eq in E. subst. exact Hw.
      + intros n Hn. apply in_app_or in Hn as [Hn | [<- | []]]; [auto | exact Hv]. }
  unfold Notes.handler. destruct method; try exact HW.
  destruct auth as [u |]; [| exact HW].
  destruct payload as [[[d |] v] |]; try exact HW.
  destruct v; try exact HW; try apply Hdel.
  destruct (negb (truthy_string (trim s))); [apply Hdel | apply Hup].
Qed.

Lemma notes_keep_one_per_day_witness :
  let d := IsoDate.mk 2024 4 16 in
  let db := Notes.mkDB [1] [Notes.mkNote 1 d (Some "old") 10 10] in
  Notes.Wf (Notes.final (Notes.handler 20 (Some 1) POST
                           (Some (Notes.mkPayload (Some d) (JStr "new"))) db)).
Proof.
  intros d db. apply notes_keep_one_per_day. unfold Notes.Wf. cbn.
  split; [apply NoDup_singleton |]. split; intros n [<- | []]; cbn; auto.
Defined.

End NotesFacts.

(* ================================================================== *)
(** * Sessions *)

Section AuthFacts.
Import Http.

Variable hashToken : string -> string.

Lemma flat_map_nil {A B} (f : A -> list B) (l : list A) :
  (forall x, In x l -> f x = []) -> flat_map f l = [].
Proof.
  induction l as [| x l IH]; intros H; [reflexivity |]. cbn [flat_map].
  rewrite (H x (or_introl eq_refl)), IH; [reflexivity |].
  intros y Hy. apply H. right. exact Hy.
Qed.

Lemma session_rows_in h db s u :
  In (s, u) (Auth.session_rows h db) ->
  In s (Auth.sessions db) /\ Auth.s_token_hash s = h
  /\ In u (Auth.users db) /\ Auth.usr_id u = Auth.s_user s.
Proof.
  unfold Auth.session_rows. intros H. apply in_flat_map in H as (s' & Hs' & H).
  destruct (String.eqb_spec (Auth.s_token_hash s') h) as [E |]; [| destruct H].
  apply in_map_iff in H as (u' & E' & Hu'). injection E' as -> ->.
  apply filter_In in Hu' as [Hu' Hid]. apply Z.eqb_eq in Hid. auto.
Qed.

(** Who a request is taken for, by its cookie. *)
Lemma getUser_cases cookie now db :
  let r := Auth.getUserFromRequest hashToken cookie now db in
  (fst r = Auth.anonymous
   /\ (snd r = db
       \/ exists token s u rest,
            cookie = Some token
            /\ Auth.session_rows (hashToken token) db = (s, u) :: rest
            /\ Auth.s_expires s < now
            /\ snd r = Auth.delete_session (Auth.s_id s) db))
  \/ (exists token s u rest,
        cookie = Some token /\ token <> ""
        /\ Auth.session_rows (hashToken token) db = (s, u) :: rest
        /\ now <= Auth.s_expires s
        /\ r = (Auth.mkInfo (Some u) (Auth.isAdminEmail (Auth.usr_email u))
                            (Some (Auth.s_id s)), db)).
Proof.
  cbv zeta. unfold Auth.getUserFromRequest.
  destruct cookie as [token |]; [| left; auto].
  destruct (Js.truthy_string token) eqn:Ht; cbn [negb]; [| left; auto].
  destruct (Auth.session_rows (hashToken token) db) as [| [s u] rest] eqn:Hrows; [left; auto |].
  destruct (Z.ltb_spec (Auth.s_expires s) now) as [Hexp | Hok].
  - left. split; [reflexivity |]. right. exists token, s, u, rest. auto.
  - right. exists token, s, u, rest. repeat split; auto.
    intros ->. discriminate.
Qed.

(** X16.  A session opened for a user is good for 45 days and not a
    millisecond longer: with the cookie that [createSession] returned,
    every request up to the expiry time is taken for that user, with the
    admin flag of the user's e-mail address, and changes nothing; the first
    request after it is anonymous and deletes the session. *)
Theorem session_lasts_45_days token now uid db tk exp db' :
  Auth.createSession hashToken token now uid db = Auth.Done (tk, exp) db' ->
  token <> "" ->
  tk = token /\ exp = now + 45 * 86400000
  /\ exists u,
       List.find (fun u => Auth.usr_id u =? uid) (Auth.users db) = Some u
       /\ (forall t, t <= exp ->
             Auth.getUserFromRequest hashToken (Some tk) t db'
             = (Auth.mkInfo (Some u) (Auth.isAdminEmail (Auth.usr_email u))
                            (Some (Auth.session_seq db)), db'))
       /\ (forall t, exp < t ->
             Auth.getUserFromRequest hashToken (Some tk) t db'
             = (Auth.anonymous, Auth.delete_session (Auth.session_seq db) db')).
Proof.
  unfold Auth.createSession. intros Hrun Htok.
  destruct (existsb _ (Auth.sessions db)) eqn:Hdup; [discriminate |].
  destruct (existsb _ (Auth.users db)) eqn:Hfk; cbn [negb] in Hrun; [| discriminate].
  injection Hrun as <- <- <-. split; [reflexivity |].
  split; [unfold Auth.SESSION_DAYS; lia |].
  destruct (List.find (fun u => Auth.usr_id u =? uid) (Auth.users db)) as [u |] eqn:Hfind.
  2:{ exfalso. apply existsb_exists in Hfk as (u & Hu & Hid).
      pose proof (find_none _ _ Hfind u Hu) as Hno. cbv beta in Hno. congruence. }
  exists u. split; [reflexivity |].
  set (s := Auth.mkSession (Auth.session_seq db) uid (hashToken token) _).
  assert (Hrows : exists rest,
             Auth.session_rows (hashToken token)
               (Auth.mkDB (Auth.users db) (Auth.sessions db ++ [s]) (Auth.session_seq db + 1))
             = (s, u) :: rest).
  { unfold Auth.session_rows. cbn [Auth.sessions Auth.users]. rewrite flat_map_app.
    rewrite flat_map_nil.
    - cbn [flat_map app Auth.s_token_hash s Auth.s_user]. rewrite String.eqb_refl, app_nil_r.
      clear Hfk. induction (Auth.users db) as [| v l IH]; [discriminate |].
      cbn [List.find List.filter] in *. destruct (Auth.usr_id v =? uid).
      + injection Hfind as ->. cbn [map]. eauto.
      + apply IH, Hfind.
    - intros s' Hs'. destruct (String.eqb_spec (Auth.s_token_hash s') (hashToken token)) as [E |];
        [| reflexivity].
      exfalso. assert (existsb (fun s0 => (Auth.s_id s0 =? Auth.session_seq db)
                                  || String.eqb (Auth.s_token_hash s0) (hashToken token))
                         (Auth.sessions db) = true); [| congruence].
      apply existsb_exists. exists s'. split; [exact Hs' |].
      rewrite E, String.eqb_refl. apply orb_true_r. }
  destruct Hrows as [rest Hrows].
  assert (Htruthy : Js.truthy_string token = true).
  { destruct token; [congruence | reflexivity]. }
  split; intros t Ht; unfold Auth.getUserFromRequest; rewrite Htruthy, Hrows; cbn [negb].
  - destruct (Z.ltb_spec (Auth.s_expires s) t) as [Hlt |]; [cbn in Hlt; lia | reflexivity].
  - destruct (Z.ltb_spec (Auth.s_expires s) t) as [| Hge]; [reflexivity | cbn in Hge; lia].
Qed.

(** X17.  Logging out ends the session.  With session ids and token
    hashes unique and no session numbered 0, after [POST /api/auth/logout]
    any later request with the same cookie is anonymous, whatever the
    cookie was; sessions other than the one it named are kept. *)
Theorem logout_ends_session cookie now db :
  Auth.Wf db ->
  (forall s, In s (Auth.sessions db) -> Auth.s_id s <> 0) ->
  let db' := snd (Auth.logout hashToken POST cookie now db) in
  (forall t, fst (Auth.getUserFromRequest hashToken cookie t db') = Auth.anonymous)
  /\ Auth.users db' = Auth.users db
  /\ (db' = db
      \/ exists token s,
           cookie = Some token /\ In s (Auth.sessions db)
           /\ Auth.s_token_hash s = hashToken token
           /\ Auth.sessions db'
              = List.filter (fun s' => negb (Auth.s_id s' =? Auth.s_id s)) (Auth.sessions db)).
Proof.
  intros [Hids Hhashes] Hpos. cbv zeta.
  assert (Hnone : forall token t d,
             Auth.session_rows (hashToken token) d = [] ->
             fst (Auth.getUserFromRequest hashToken (Some token) t d) = Auth.anonymous).
  { intros token t d Hr. unfold Auth.getUserFromRequest. rewrite Hr.
    destruct (negb (Js.truthy_string token)); reflexivity. }
  assert (Hgone : forall token s u rest,
             Auth.session_rows (hashToken token) db = (s, u) :: rest ->
             Auth.session_rows (hashToken token) (Auth.delete_session (Auth.s_id s) db) = []).
  { intros token s u rest Hr.
    destruct (session_rows_in _ db s u ltac:(rewrite Hr; left; reflexivity))
      as (Hs & Hh & _).
    unfold Auth.session_rows, Auth.delete_session. cbn [Auth.sessions Auth.users].
    apply flat_map_nil. intros s' Hs'. apply filter_In in Hs' as [Hs' Hne].
    destruct (String.eqb_spec (Auth.s_token_hash s') (hashToken token)) as [E |];
      [| reflexivity].
    exfalso. assert (s' = s) by (apply (nodup_map_in_inj Auth.s_token_hash _ _ _ Hhashes);
                                 auto; congruence).
    subst s'. rewrite Z.eqb_refl in Hne. discriminate. }
  unfold Auth.logout.
  pose proof (getUser_cases cookie now db) as Hc. cbv zeta in Hc.
  destruct (Auth.getUserFromRequest hashToken cookie now db) as [info db1] eqn:Hget.
  cbn [fst snd] in *.
  destruct Hc as [[-> [-> | (token & s & u & rest & -> & Hr & Hexp & ->)]]
                 | (token & s & u & rest & -> & Htok & Hr & Hok & E)].
  - cbn [Auth.sessionId Auth.anonymous]. split; [| split; [reflexivity | left; reflexivity]].
    intros t. pose proof (getUser_cases cookie t db) as Hc. cbv zeta in Hc.
    destruct Hc as [[H _] | (token & s & u & rest & -> & Htok & Hr & Hok & E)]; [exact H |].
    exfalso. unfold Auth.getUserFromRequest in Hget.
    assert (Ht : Js.truthy_string token = true) by (destruct token; [congruence | reflexivity]).
    rewrite Ht, Hr in Hget. cbn [negb] in Hget.
    unfold Auth.anonymous in Hget.
    destruct (Auth.s_expires s <? now); [| discriminate Hget]. injection Hget as Hd.
    destruct (session_rows_in _ _ s u ltac:(rewrite Hr; left; reflexivity)) as (Hs & _).
    rewrite <- Hd in Hs. cbn [Auth.delete_session Auth.sessions] in Hs.
    apply filter_In in Hs as [_ Hs]. rewrite Z.eqb_refl in Hs. discriminate.
  - cbn [Auth.sessionId Auth.anonymous]. split; [| split; [reflexivity | right]].
    + intros t. apply Hnone. eapply Hgone. exact Hr.
    + destruct (session_rows_in _ db s u ltac:(rewrite Hr; left; reflexivity))
        as (Hs & Hh & _).
      exists token, s. auto.
  - injection E as -> ->. cbn [Auth.sessionId].
    destruct (session_rows_in _ db s u ltac:(rewrite Hr; left; reflexivity))
      as (Hs & Hh & _).
    destruct (Z.eqb_spec (Auth.s_id s) 0) as [E0 |]; [exfalso; exact (Hpos s Hs E0) |].
    split; [| split; [reflexivity | right]].
    + intros t. apply Hnone. eapply Hgone. exact Hr.
    + exists token, s. auto.
Qed.

Lemma caller_session cookie now db uid admin :
  Auth.caller hashToken cookie now db = Some (uid, admin) ->
  exists token s u,
    cookie = Some token /\ token <> ""
    /\ In s (Auth.sessions db) /\ Auth.s_token_hash s = hashToken token
    /\ now <= Auth.s_expires s
    /\ In u (Auth.users db) /\ Auth.usr_id u = Auth.s_user s /\ uid = Auth.s_user s
    /\ (admin = true <-> Auth.usr_email u = "ashwinb@gmail.com").
Proof.
  unfold Auth.caller, Auth.requireUser.
  pose proof (getUser_cases cookie now db) as Hc. cbv zeta in Hc.
  destruct (Auth.getUserFromRequest hashToken cookie now db) as [info db1].
  cbn [fst snd] in Hc.
  destruct Hc as [[-> _] | (token & s & u & rest & -> & Htok & Hr & Hok & E)];
    [discriminate |].
  injection E as -> ->. cbn [Auth.user Auth.isAdmin Auth.sessionId fst].
  intros H. injection H as <- <-.
  destruct (session_rows_in _ db s u ltac:(rewrite Hr; left; reflexivity))
    as (Hs & Hh & Hu & Hid).
  exists token, s, u. repeat split; auto.
  - unfold Auth.isAdminEmail, Auth.ADMIN_EMAILS. cbn [existsb]. rewrite orb_false_r.
    apply String.eqb_eq.
  - intros ->. reflexivity.
Qed.

(** X18.  Nobody is taken for a user without a session: a request counts
    as made by user [uid] only if its cookie is the token of a stored
    session of [uid] that has not expired, and it counts as an admin's
    exactly if that user's e-mail address is the admin address. *)
Theorem caller_has_live_session cookie now db uid admin :
  Auth.caller hashToken cookie now db = Some (uid, admin) ->
  exists token s u,
    cookie = Some token /\ token <> ""
    /\ In s (Auth.sessions db) /\ Auth.s_token_hash s = hashToken token
    /\ now <= Auth.s_expires s
    /\ In u (Auth.users db) /\ Auth.usr_id u = Auth.s_user s /\ uid = Auth.s_user s
    /\ (admin = true <-> Auth.usr_email u = "ashwinb@gmail.com").
Proof. exact (caller_session cookie now db uid admin). Qed.

(** X19.  Only the admin can reset the data: if the reset handler, given
    the caller that the request's cookie stands for, answers with success,
    then the cookie is the token of a live session of the user with the
    admin e-mail address. *)
Theorem reset_needs_admin_session cookie now adb db r db' :
  Admin.handler (Auth.caller hashToken cookie now adb) POST db = Store.Done r db' ->
  status r = 200 ->
  exists token s u,
    cookie = Some token
    /\ In s (Auth.sessions adb) /\ Auth.s_token_hash s = hashToken token
    /\ now <= Auth.s_expires s
    /\ In u (Auth.users adb) /\ Auth.usr_id u = Auth.s_user s
    /\ Auth.usr_email u = "ashwinb@gmail.com".
Proof.
  intros Hrun Hst.
  destruct (Auth.caller hashToken cookie now adb) as [[uid admin] |] eqn:Hcaller.
  - destruct (caller_session cookie now adb uid admin Hcaller)
      as (token & s & u & Hc & _ & Hs & Hh & Hok & Hu & Hid & _ & Hadm).
    destruct admin.
    + exists token, s, u. repeat split; auto. apply Hadm. reflexivity.
    + cbn in Hrun. injection Hrun as <- _. discriminate.
  - cbn in Hrun. injection Hrun as <- _. discriminate.
Qed.

End AuthFacts.

Lemma session_lasts_45_days_witness :
  let hash := fun s : string => s in
  let u := Auth.mkUser 7 "sky@example.com" None None in
  let db := Auth.mkDB [u] [] 1 in
  exists db',
    Auth.createSession hash "c0ffee" 1000 7 db = Auth.Done ("c0ffee", 3888001000) db'
    /\ Auth.getUserFromRequest hash (Some "c0ffee") 3888001000 db'
       = (Auth.mkInfo (Some u) false (Some 1), db').
Proof.
  intros hash u db. eexists. split; [reflexivity |].
  destruct (session_lasts_45_days hash "c0ffee" 1000 7 db "c0ffee" 3888001000 _ eq_refl)
    as (_ & _ & u' & Hfind & Hgood & _); [discriminate |].
  injection Hfind as <-. apply Hgood. reflexivity.
Defined.

Lemma logout_ends_session_witness :
  let hash := fun s : string => s in
  let u := Auth.mkUser 7 "sky@example.com" None None in
  let db := Auth.mkDB [u] [Auth.mkSession 1 7 "c0ffee" 5000] 2 in
  fst (Auth.getUserFromRequest hash (Some "c0ffee") 2000
         (snd (Auth.logout hash Http.POST (Some "c0ffee") 1000 db)))
  = Auth.anonymous.
Proof.
  intros hash u db.
  refine (proj1 (logout_ends_session hash (Some "c0ffee") 1000 db _ _) 2000).
  - split; apply NoDup_singleton.
  - intros s [<- | []]. discriminate.
Defined.

Lemma caller_has_live_session_witness :
  let hash := fun s : string => s in
  let u := Auth.mkUser 7 "ashwinb@gmail.com" None None in
  let db := Auth.mkDB [u] [Auth.mkSession 1 7 "c0ffee" 5000] 2 in
  exists token s u,
    Some "c0ffee" = Some token /\ token <> ""
    /\ In s (Auth.sessions db) /\ Auth.s_token_hash s = hash token
    /\ 1000 <= Auth.s_expires s
    /\ In u (Auth.users db) /\ Auth.usr_id u = Auth.s_user s /\ 7 = Auth.s_user s
    /\ (true = true <-> Auth.usr_email u = "ashwinb@gmail.com").
Proof.
  intros hash u db.
  exact (caller_has_live_session hash (Some "c0ffee") 1000 db 7 true eq_refl).
Defined.

Lemma reset_needs_admin_session_witness :
  let hash := fun s : string => s in
  let u := Auth.mkUser 7 "ashwinb@gmail.com" None None in
  let adb := Auth.mkDB [u] [Auth.mkSession 1 7 "c0ffee" 5000] 2 in
  let db := Store.mkDB [] [] [] 1 true true false true in
  exists token s u,
    Some "c0ffee" = Some token
    /\ In s (Auth.sessions adb) /\ Auth.s_token_hash s = hash token
    /\ 1000 <= Auth.s_expires s
    /\ In u (Auth.users adb) /\ Auth.usr_id u = Auth.s_user s
    /\ Auth.usr_email u = "ashwinb@gmail.com".
Proof.
  intros hash u adb db.
  exact (reset_needs_admin_session hash (Some "c0ffee") 1000 adb db
           (Http.mkResponse 200 Http.OkBody) db eq_refl eq_refl).
Defined.

(* ================================================================== *)
(** * Seeding once is seeding *)

Section SeedTwiceFacts.
Import Store Sql.

(** X20.  Seeding a user is idempotent: once [seedBucketsForUser] has
    ended normally for a user, running it again for that user changes
    nothing, so the default buckets are never stored twice. *)
Theorem seeding_is_idempotent u db db1 :
  DbLib.seedBucketsForUser u db = Done tt db1 ->
  DbLib.seedBucketsForUser u db1 = Done tt db1.
Proof.
  intros Hrun.
  assert (Hdone : col_user_id db1 = true /\ existsb (owned_by u) (buckets db1) = true).
  { unfold DbLib.seedBucketsForUser, has_bucket, bind at 1 2 in Hrun.
    destruct (need_user_id_cases db) as [[Hcol Hn] | [_ Hn]]; rewrite Hn in Hrun;
      [| discriminate].
    destruct (existsb (owned_by u) (buckets db)) eqn:Hex.
    - injection Hrun as <-. auto.
    - pose proof (seed_defaults_step (users db) [] u
                    ("10 min calisthenics", 1)
                    [("25 min cardio", 2); ("Stretching / mobility", 3)] db) as Hstep.
      cbv zeta in Hstep. unfold DbLib.DEFAULT_BUCKETS in Hrun.
      specialize (Hstep ltac:(repeat split; auto; intros ? [])).
      rewrite Hrun in Hstep. destruct Hstep as (Hc & _ & Hs).
      split; [exact Hc | apply Hs; left; reflexivity]. }
  destruct Hdone as [Hcol Hex].
  unfold DbLib.seedBucketsForUser, has_bucket, bind, need_user_id. rewrite Hcol, Hex.
  reflexivity.
Qed.

Lemma seeding_is_idempotent_witness :
  let db := mkDB [1] [] [] 1 true true false true in
  let db1 := mkDB [1] [mkBucket 1 (Some 1) "10 min calisthenics" 1;
                      mkBucket 2 (Some 1) "25 min cardio" 2;
                      mkBucket 3 (Some 1) "Stretching / mobility" 3] [] 4
                  true true false true in
  DbLib.seedBucketsForUser 1 db1 = Done tt db1.
Proof.
  intros db db1. exact (seeding_is_idempotent 1 db db1 eq_refl).
Defined.

End SeedTwiceFacts.

(* ================================================================== *)
(** * The streak and the friends panel *)

Section StreakPanelFacts.
Import Store.

(** The friends panel counts, for a day, what the streak counts. *)
Lemma friendToday_counts u allBuckets entries d :
  Dashboard.checked (Dashboard.friendToday allBuckets entries d (App.u_id u))
  = App.dayChecks (App.userEntriesOf u entries)
      (App.bucketIdSet (App.currentBuckets (Some u) allBuckets)) d.
Proof.
  unfold Dashboard.friendToday, App.dayChecks, App.userEntriesOf, App.currentBuckets,
    App.getBucketsForUser. cbn [Dashboard.checked].
  rewrite !filter_filter. f_equal. apply List.filter_ext. intros e.
  destruct (e_user e =? App.u_id u), (IsoDate.eqb (e_date e) d), (e_checked e),
    (bool_decide _); reflexivity.
Qed.

Lemma friendToday_complete u allBuckets entries d :
  let buckets := App.currentBuckets (Some u) allBuckets in
  Dashboard.complete (Dashboard.friendToday allBuckets entries d (App.u_id u))
  = (0 <? length buckets)%nat
    && (length buckets
        <=? App.dayChecks (App.userEntriesOf u entries) (App.bucketIdSet buckets) d)%nat.
Proof.
  cbv zeta. rewrite <- friendToday_counts. reflexivity.
Qed.



(** Without the proviso the two part company: in the evening west of
    UTC the local day is 2024-04-15 and the UTC day already 2024-04-16.
    With both buckets checked on 2024-04-14 only, the streak walks back
    from 2024-04-15 and is 0, while the panel's status for the local
    yesterday is complete. *)
Example streak_and_panel_across_midnight :
  let u := App.mkUser 1 "Sky" in
  let allBuckets := [App.mkBucket 1 1 "Run" 1; App.mkBucket 2 1 "Swim" 2] in
  let entries := [mkEntry 1 1 (IsoDate.mk 2024 4 14) true;
                  mkEntry 1 2 (IsoDate.mk 2024 4 14) true] in
  let utcToday := IsoDate.mk 2024 4 16 in
  let today := IsoDate.mk 2024 4 15 in
  App.userStreak 10 (Some u) (App.currentBuckets (Some u) allBuckets) entries utcToday
  = Some O
  /\ Dashboard.complete
       (Dashboard.friendToday allBuckets entries (IsoDate.prevDay today) (App.u_id u))
     = true.
Proof. split; vm_compute; reflexivity. Qed.

End StreakPanelFacts.

(* ================================================================== *)
(** * The heat map's cells *)

Section HeatCellFacts.
Import Store.

(** The entries a cell counts. *)
Local Abbreviation cell_counts allBuckets k := (fun e : EntryRow =>
  e_checked e
  && match List.find (fun b => App.id b =? e_bucket e) allBuckets with
     | Some b => App.userId b =? e_user e
     | None => false
     end
  && bool_decide (Dashboard.dayKey (e_user e) (e_date e) = k)).

Lemma countDay_lookup allBuckets k acc e :
  default O (Dashboard.countDay allBuckets acc e !! k)
  = (default O (acc !! k) + if cell_counts allBuckets k e then 1 else 0)%nat.
Proof.
  unfold Dashboard.countDay. destruct (e_checked e); cbn [negb andb]; [| lia].
  destruct (List.find _ allBuckets) as [b |]; [| cbn; lia].
  destruct (App.userId b =? e_user e); cbn [negb andb]; [| lia]. cbv zeta.
  destruct (decide (Dashboard.dayKey (e_user e) (e_date e) = k)) as [<- | Hne].
  - rewrite lookup_insert, bool_decide_eq_true_2 by reflexivity.
    try rewrite decide_True by reflexivity. cbn. lia.
  - rewrite lookup_insert_ne by exact Hne. rewrite bool_decide_eq_false_2 by exact Hne. lia.
Qed.

Lemma filter_cons_length {A} (f : A -> bool) (x : A) (l : list A) :
  length (List.filter f (x :: l))
  = ((if f x then 1 else 0) + length (List.filter f l))%nat.
Proof. cbn [List.filter]. destruct (f x); reflexivity. Qed.

Lemma userDayCompletion_fold allBuckets k entries : forall acc,
  default O (fold_left (Dashboard.countDay allBuckets) entries acc !! k)
  = (default O (acc !! k) + length (List.filter (cell_counts allBuckets k) entries))%nat.
Proof.
  induction entries as [| e l IH]; intros acc; [cbn; lia |].
  cbn [fold_left]. rewrite IH, countDay_lookup, filter_cons_length. lia.
Qed.

(** X22.  A heat-map cell never shows more than everything: with entry
    keys and bucket ids unique, the count of a user's day is at most the
    number of that user's buckets, so the cell's intensity, the count over
    the bucket count, is at most 1. *)
Theorem cell_count_within_buckets allBuckets entries friend date :
  NoDup (map App.id allBuckets) ->
  NoDup (map Sql.entry_key entries) ->
  (Dashboard.cellCount allBuckets entries friend date
   <= length (App.getBucketsForUser allBuckets friend))%nat.
Proof.
  intros Hids Hkeys. unfold Dashboard.cellCount, Dashboard.userDayCompletion.
  rewrite userDayCompletion_fold, lookup_empty. cbn [default from_option Nat.add].
  rewrite <- (length_map App.id (App.getBucketsForUser allBuckets friend)).
  apply (selected_at_most Sql.entry_key e_bucket); [exact Hkeys | |].
  - intros x y _ _ Hx Hy Hb. rewrite !andb_true_iff in Hx, Hy.
    destruct Hx as [_ Hx], Hy as [_ Hy]. apply bool_decide_eq_true in Hx, Hy.
    unfold Dashboard.dayKey in Hx, Hy. unfold Sql.entry_key.
    injection Hx as -> -> -> ->. injection Hy as -> -> -> ->. rewrite Hb. reflexivity.
  - intros e _ He. rewrite !andb_true_iff in He. destruct He as [[_ Hf] Hk].
    apply bool_decide_eq_true in Hk. unfold Dashboard.dayKey in Hk. injection Hk as Hu _ _ _.
    destruct (List.find _ allBuckets) as [b |] eqn:Hfind; [| discriminate].
    apply find_some in Hfind as [Hb Hid]. apply Z.eqb_eq in Hid. rewrite <- Hid.
    apply in_map. unfold App.getBucketsForUser. apply filter_In. split; [exact Hb |].
    rewrite <- Hu. exact Hf.
Qed.

Lemma cell_count_within_buckets_witness :
  let d := IsoDate.mk 2024 4 16 in
  let friend := 1 in
  let allBuckets := [App.mkBucket 1 1 "Run" 1; App.mkBucket 2 2 "Swim" 1] in
  let entries := [mkEntry 1 1 d true; mkEntry 1 2 d true; mkEntry 2 2 d true] in
  (Dashboard.cellCount allBuckets entries friend d
   <= length (App.getBucketsForUser allBuckets friend))%nat.
Proof.
  intros d friend allBuckets entries.
  apply (cell_count_within_buckets allBuckets entries friend d).
  - apply (bool_decide_unpack (NoDup [1; 2])). vm_compute. exact I.
  - apply (bool_decide_unpack (NoDup (map Sql.entry_key entries))). vm_compute. exact I.
Defined.

End HeatCellFacts.

(* ================================================================== *)
(** * An error answer writes nothing *)

Section ErrorAnswerFacts.
Import Store Sql Http Js.

(** Reading statements leave the store as it is. *)
Local Abbreviation Same db0 := (fun db : DB => db = db0).

(** What is asked of a handler: whatever it answers, other than with 200,
    it answers on the store it was given. *)
Local Abbreviation Unwritten db0 := (fun (r : Response) (db : DB) =>
  status r <> 200 -> db = db0).

Lemma answer_unwritten db0 st b :
  hoare (Same db0) (sendJson st b) (Unwritten db0) (fun _ => True).
Proof. apply sendJson_hoare. intros db -> _. reflexivity. Qed.

Lemma success_unwritten db0 (P : DB -> Prop) b :
  hoare P (sendJson 200 b) (Unwritten db0) (fun _ => True).
Proof. apply sendJson_hoare. intros db _ H. cbn in H. congruence. Qed.

Lemma write_then_success {A} db0 (c : M A) (b : A -> Body) :
  hoare (Same db0) (bind c (fun a => sendJson 200 (b a))) (Unwritten db0) (fun _ => True).
Proof.
  eapply hoare_bind with (Q := fun _ _ => True).
  - intros db _. destruct (c db); exact I.
  - intros a. apply success_unwritten.
Qed.

(** Whenever the bucket, check-in or reset handler answers with a status
    other than 200, the relational store is as it was given. *)
Lemma handler_error_unwritten db r db' :
  status r <> 200 ->
  (forall auth method payload,
      Buckets.handler auth method payload db = Done r db' -> db' = db)
  /\ (forall today auth method month payload,
        Checkins.handler today auth method month payload db = Done r db' -> db' = db)
  /\ (forall auth method, Admin.handler auth method db = Done r db' -> db' = db).
Proof.
  intros Hst.
  assert (Hfrom : forall c : M Response,
             hoare (Same db) c (Unwritten db) (fun _ => True) ->
             c db = Done r db' -> db' = db).
  { intros c Hc Hrun. specialize (Hc db eq_refl). rewrite Hrun in Hc. exact (Hc Hst). }
  split; [| split].
  - intros auth method payload. apply Hfrom. unfold Buckets.handler.
    destruct method; try apply answer_unwritten;
      (destruct auth as [u |]; [| apply answer_unwritten]).
    + eapply hoare_bind with (Q := fun _ => Same db); [| intros ?; apply answer_unwritten].
      unfold list_buckets. eapply hoare_bind; [apply need_user_id_hoare; auto |].
      intros ? d [H _]. exact H.
    + destruct payload as [p |]; [| apply answer_unwritten].
      eapply hoare_bind; [apply optional_trim_hoare; auto |]. intros t.
      destruct (Buckets.or_null t) as [nm |]; [| apply answer_unwritten].
      eapply hoare_bind; [apply count_buckets_hoare; auto |]. intros n.
      apply hoare_if; intros _;
        [apply sendJson_hoare; intros d [-> _] _; reflexivity |].
      eapply hoare_bind; [apply max_sort_order_hoare; auto |]. intros mx.
      eapply hoare_bind with (Q := fun _ _ => True);
        [intros d _; destruct (insert_bucket _ _ _ _ d); exact I
        | intros row; apply success_unwritten].
    + destruct payload as [p |]; [| apply answer_unwritten].
      apply hoare_if; intros _; [apply answer_unwritten |].
      eapply hoare_bind; [apply owner_check_hoare; auto |]. intros owner.
      apply hoare_if; intros _; [apply answer_unwritten |].
      eapply hoare_bind; [apply optional_trim_hoare; auto |]. intros t.
      eapply hoare_bind with (Q := fun _ _ => True);
        [intros d _; destruct (update_bucket _ _ _ _ d); exact I
        | intros row; apply success_unwritten].
    + destruct payload as [p |]; [| apply answer_unwritten].
      apply hoare_if; intros _; [apply answer_unwritten |].
      eapply hoare_bind; [apply owner_check_hoare; auto |]. intros owner.
      apply hoare_if; intros _; [apply answer_unwritten |].
      eapply hoare_bind with (Q := fun _ _ => True);
        [intros d _; destruct (delete_bucket _ _ d); exact I
        | intros ?; apply success_unwritten].
  - intros today auth method month payload. apply Hfrom. unfold Checkins.handler.
    destruct method; try apply answer_unwritten;
      (destruct auth as [u |]; [| apply answer_unwritten]).
    + destruct month as [[y m] |]; [| apply answer_unwritten].
      cbn [Checkins.monthBounds].
      eapply hoare_bind with (Q := fun _ => Same db); [intros d ->; reflexivity |].
      intros us. eapply hoare_bind with (Q := fun _ => Same db); [intros d ->; reflexivity |].
      intros es. apply answer_unwritten.
    + destruct (Checkins.missing_fields payload); [apply answer_unwritten |].
      destruct payload as [[[b |] [d |] c] |]; try apply answer_unwritten.
      apply hoare_if; intros _; [apply answer_unwritten |].
      eapply hoare_bind with (Q := fun _ _ => True);
        [intros d0 _; destruct (upsert_entry _ _ _ _ d0); exact I
        | intros ?; apply success_unwritten].
  - intros auth method. apply Hfrom. unfold Admin.handler.
    destruct method; try apply answer_unwritten.
    destruct auth as [[caller isAdmin] |]; [| apply answer_unwritten].
    apply hoare_if; intros _; [apply answer_unwritten |].
    eapply hoare_bind with (Q := fun _ _ => True);
      [intros d _; destruct (DbLib.resetData d); exact I
      | intros ?; apply success_unwritten].
Qed.

End ErrorAnswerFacts.

(* ================================================================== *)
(** * The migration with [--dry-run]: nothing is lost *)

Section MigrateDryRunFacts.
Import Store Sql MigrationSql MigrateDryRun.

Lemma reads_only_hoare {A} (c : M A) (P : DB -> Prop) :
  reads_only c -> on_rows P -> hoare P c (fun _ => P) P.
Proof.
  intros Hc HP. apply final_hoare. intros db Hdb.
  destruct (Hc db) as (Hu & Hb & He). exact (HP db _ Hu Hb He Hdb).
Qed.

Lemma reads_only_bind {A B} (c : M A) (k : A -> M B) :
  reads_only c -> (forall a, reads_only (k a)) -> reads_only (bind c k).
Proof.
  intros Hc Hk db. unfold bind. specialize (Hc db).
  destruct (c db) as [a db' | e db']; cbn [final] in *; [| exact Hc].
  destruct Hc as (Hu & Hb & He). destruct (Hk a db') as (Hu' & Hb' & He').
  rewrite Hu', Hb', He'. auto.
Qed.

Lemma reads_only_query {A} (f : DB -> A) : reads_only (fun db => Done (f db) db).
Proof. intros db. cbn. auto. Qed.

Lemma reads_only_need : reads_only need_user_id.
Proof. intros db. destruct (need_user_id_cases db) as [[_ ->] | [_ ->]]; cbn; auto. Qed.

Lemma reads_only_select_global : reads_only select_global_buckets.
Proof.
  apply reads_only_bind; [apply reads_only_need | intros _].
  apply (reads_only_query (fun db => List.filter is_global (buckets db))).
Qed.

Lemma reads_only_select_user_bucket u n : reads_only (select_user_bucket u n).
Proof.
  apply reads_only_bind; [apply reads_only_need | intros _].
  apply (reads_only_query
           (fun db => List.find (fun b => owned_by u b && String.eqb (b_name b) n)
                        (buckets db))).
Qed.

Lemma reads_only_users_without : reads_only users_without_buckets.
Proof.
  apply reads_only_bind; [apply reads_only_need | intros _].
  apply (reads_only_query
           (fun db => List.filter (fun u => negb (existsb (owned_by u) (buckets db)))
                        (users db))).
Qed.

Lemma reads_only_select_entries_of u b : reads_only (select_entries_of u b).
Proof. intros db. cbn. auto. Qed.

Lemma reads_only_set_not_null : reads_only set_user_id_not_null.
Proof.
  apply reads_only_bind; [apply reads_only_need | intros _].
  intros db. destruct (existsb is_global (buckets db)); cbn; auto.
Qed.

Lemma reads_only_create_index : reads_only create_index_user_name_unique.
Proof.
  apply reads_only_bind; [apply reads_only_need | intros _].
  intros db. destruct (idx_user_name_unique db); [cbn; auto |].
  destruct (bool_decide (NoDup (user_name_keys (buckets db)))); cbn; auto.
Qed.

Lemma reads_only_drop_index : reads_only drop_index_name_unique.
Proof. intros db. cbn. auto. Qed.

Lemma reads_only_ret {A} (a : A) : reads_only (ret a).
Proof. intros db. cbn. auto. Qed.

Lemma reads_only_unless DRY_RUN c : reads_only c -> reads_only (unless DRY_RUN c).
Proof. intros Hc. unfold unless. destruct DRY_RUN; [apply reads_only_ret | exact Hc]. Qed.

Lemma unless_hoare DRY_RUN c (P E : DB -> Prop) (Q : unit -> DB -> Prop) :
  hoare P c Q E -> (forall s, P s -> Q tt s) -> hoare P (unless DRY_RUN c) Q E.
Proof.
  intros Hc HP. unfold unless. destruct DRY_RUN; [apply hoare_ret, HP | exact Hc].
Qed.

Lemma same_checkin_refl es : Forall2 same_checkin es es.
Proof. induction es; constructor; [repeat split | assumption]. Qed.

Lemma same_checkin_relinked es u old new :
  Forall2 same_checkin es
    (map (fun e => if (e_user e =? u) && (e_bucket e =? old)
                   then mkEntry (e_user e) new (e_date e) (e_checked e)
                   else e) es).
Proof.
  induction es as [| e es IH]; cbn [map]; constructor; [| exact IH].
  destruct ((e_user e =? u) && (e_bucket e =? old)); repeat split.
Qed.

Lemma same_checkin_trans es1 es2 es3 :
  Forall2 same_checkin es1 es2 -> Forall2 same_checkin es2 es3 ->
  Forall2 same_checkin es1 es3.
Proof.
  intros H12. revert es3. induction H12 as [| e1 e2 l1 l2 H _ IH]; intros es3 H23.
  - inversion H23. constructor.
  - inversion H23 as [| ? e3 ? l3 H' Hl]; subst. constructor; [| apply IH, Hl].
    destruct H as (? & ? & ?), H' as (? & ? & ?). repeat split; congruence.
Qed.

Lemma on_rows_entries_kept db0 : on_rows (entries_kept db0).
Proof. intros s s' Hu _ He [H1 H2]. split; [rewrite He; exact H1 | congruence]. Qed.

Lemma on_rows_buckets_kept db0 : on_rows (buckets_kept db0).
Proof. intros s s' _ Hb _ H b Hin. rewrite Hb. apply H, Hin. Qed.

Lemma on_rows_no_global : on_rows no_global.
Proof. intros s s' _ Hb _ H b Hin. rewrite Hb in Hin. apply H, Hin. Qed.

Lemma on_rows_and (P Q : DB -> Prop) :
  on_rows P -> on_rows Q -> on_rows (fun s => P s /\ Q s).
Proof. intros HP HQ s s' Hu Hb He [H1 H2]. split; [eapply HP | eapply HQ]; eauto. Qed.

Lemma on_rows_or (P Q : DB -> Prop) :
  on_rows P -> on_rows Q -> on_rows (fun s => P s \/ Q s).
Proof. intros HP HQ s s' Hu Hb He [H | H]; [left; eapply HP | right; eapply HQ]; eauto. Qed.

Lemma bucket_kept_app bs row b : bucket_kept bs b -> bucket_kept (bs ++ [row]) b.
Proof. intros (b' & Hin & H). exists b'. split; [apply in_or_app; left; exact Hin | exact H]. Qed.

(** What holds before the global buckets are deleted, and after. *)
Local Abbreviation before db0 := (fun s : DB => entries_kept db0 s /\ buckets_kept db0 s).
Local Abbreviation after db0 := (fun s : DB => entries_kept db0 s /\ no_global s).
Local Abbreviation either db0 :=
  (fun s : DB => entries_kept db0 s /\ (buckets_kept db0 s \/ no_global s)).

Lemma on_rows_before db0 : on_rows (before db0).
Proof. apply on_rows_and; [apply on_rows_entries_kept | apply on_rows_buckets_kept]. Qed.

Lemma on_rows_either db0 : on_rows (either db0).
Proof.
  apply on_rows_and; [apply on_rows_entries_kept |].
  apply on_rows_or; [apply on_rows_buckets_kept | apply on_rows_no_global].
Qed.

(** An INSERT into [buckets] deletes nothing and adds no global bucket. *)
Lemma insert_bucket_kept mode u nm sort db0 (P : DB -> Prop) :
  (P = before db0 \/ P = either db0) ->
  hoare P (insert_bucket mode u nm sort ;;; ret tt)%sql (fun _ => P) P.
Proof.
  intros HP. apply final_hoare. intros db Hdb.
  pose proof (insert_bucket_cases mode u nm sort db) as Hc. cbv zeta in Hc.
  assert (Hfin : final (bind (insert_bucket mode u nm sort) (fun _ => ret tt) db)
                 = final (insert_bucket mode u nm sort db)).
  { unfold bind. destruct (insert_bucket mode u nm sort db); reflexivity. }
  rewrite Hfin. set (s := final (insert_bucket mode u nm sort db)) in *. clearbody s.
  destruct Hc as ((_ & _ & _ & _ & Hu) & He & Hb).
  assert (Hek : entries_kept db0 db -> entries_kept db0 s).
  { intros [H1 H2]. split; [rewrite He; exact H1 | congruence]. }
  assert (Hbk : buckets_kept db0 db -> buckets_kept db0 s).
  { intros H b Hin. destruct Hb as [[-> _] | [-> _]]; [apply H, Hin |].
    apply bucket_kept_app, H, Hin. }
  assert (Hng : no_global db -> no_global s).
  { intros H b Hin. destruct Hb as [[Hb _] | [Hb _]]; rewrite Hb in Hin; [apply H, Hin |].
    apply in_app_or in Hin as [Hin | [<- | []]]; [apply H, Hin | reflexivity]. }
  destruct HP as [-> | ->]; destruct Hdb as [H1 H2]; (split; [apply Hek, H1 |]).
  - apply Hbk, H2.
  - destruct H2 as [H2 | H2]; [left; apply Hbk, H2 | right; apply Hng, H2].
Qed.

Lemma relink_keeps u old new db0 :
  hoare (before db0) (relink_entries u old new) (fun _ => before db0) (before db0).
Proof.
  apply final_hoare. intros db [[H1 H2] H3]. unfold relink_entries.
  match goal with |- context [negb ?c] => destruct c end; cbn; proj_db.
  - repeat split; try assumption.
    eapply same_checkin_trans; [exact H1 | apply same_checkin_relinked].
  - repeat split; assumption.
Qed.

Lemma add_column_keeps db0 :
  hoare (before db0) (add_user_id_column ;;; drop_index_name_unique)%sql
        (fun _ => before db0) (before db0).
Proof.
  intros db [[H1 H2] H3]. cbn. proj_db. repeat split; try assumption.
  intros b Hin. destruct (H3 b Hin) as (b' & Hin' & Hid & Hn & Hs).
  exists (mkBucket (b_id b') None (b_name b') (b_sort b')). split; [| auto].
  apply in_map_iff. exists b'. auto.
Qed.

Lemma cascade_unreferenced bs es :
  List.filter (MigrateDryRun.references_global bs) es = [] ->
  cascade (List.filter is_global bs) es = es.
Proof.
  intros H. unfold cascade. apply filter_all. intros e He.
  apply negb_true_iff, not_true_is_false. intros Hex.
  apply existsb_exists in Hex as (b & Hb & Hid).
  apply filter_In in Hb as [Hb Hg].
  assert (Hin : In e (List.filter (references_global bs) es)).
  { apply filter_In. split; [exact He |]. unfold references_global.
    apply existsb_exists. exists b. split; [exact Hb |]. rewrite Hid, Hg. reflexivity. }
  rewrite H in Hin. exact Hin.
Qed.

Lemma filtered_no_global bs b :
  In b (List.filter (fun b => negb (is_global b)) bs) -> is_global b = false.
Proof. intros H. apply filter_In in H as [_ H]. apply negb_true_iff, H. Qed.

(** The scan and what follows it, from any store. *)
Lemma safety_check_cases s :
  col_user_id s = true ->
  (List.filter (references_global (buckets s)) (entries s) <> []
   /\ safety_check s = Raised (JsError ABORT_MESSAGE) s)
  \/ (List.filter (references_global (buckets s)) (entries s) = []
      /\ safety_check s
         = Done tt (with_entries (entries s)
                      (with_buckets (List.filter (fun b => negb (is_global b)) (buckets s)) s))).
Proof.
  intros Hcol. unfold safety_check, select_orphaned_entries, delete_global_buckets.
  assert (Hneed : need_user_id s = Done tt s) by (unfold need_user_id; rewrite Hcol; reflexivity).
  unfold bind. rewrite Hneed.
  destruct (List.filter (references_global (buckets s)) (entries s)) as [| e l] eqn:Hscan.
  - right. split; [reflexivity |]. cbn [Migrate.nonempty]. rewrite Hneed.
    rewrite (cascade_unreferenced _ _ Hscan). reflexivity.
  - left. split; [discriminate | reflexivity].
Qed.

Lemma safety_check_keeps db0 :
  hoare (before db0) safety_check (fun _ => after db0) (before db0).
Proof.
  intros s [[H1 H2] H3]. destruct (col_user_id s) eqn:Hcol.
  - destruct (safety_check_cases s Hcol) as [[_ ->] | [_ ->]]; [repeat split; assumption |].
    proj_db. repeat split; try assumption. intros b. apply filtered_no_global.
  - unfold safety_check, select_orphaned_entries, bind, need_user_id. rewrite Hcol.
    repeat split; assumption.
Qed.

(** Without users there is no entry, and the DELETE has nothing to
    cascade to. *)
Lemma delete_without_users_keeps db0 :
  (forall e, In e (entries db0) -> In (e_user e) (users db0)) ->
  users db0 = [] ->
  hoare (before db0) delete_global_buckets (fun _ => after db0) (before db0).
Proof.
  intros FK Hnone s [[H1 H2] H3].
  assert (He0 : entries db0 = []).
  { destruct (entries db0) as [| e l]; [reflexivity |].
    specialize (FK e (or_introl eq_refl)). rewrite Hnone in FK. destruct FK. }
  assert (Hes : entries s = []) by (rewrite He0 in H1; inversion H1; reflexivity).
  unfold delete_global_buckets, bind.
  destruct (need_user_id_cases s) as [[_ ->] | [_ ->]]; [| repeat split; assumption].
  proj_db. rewrite Hes. cbn [cascade List.filter]. rewrite <- Hes. 
  repeat split; try assumption. intros b. apply filtered_no_global.
Qed.

Lemma before_either db0 s : before db0 s -> either db0 s.
Proof. intros [H1 H2]. split; [exact H1 | left; exact H2]. Qed.

Lemma after_either db0 s : after db0 s -> either db0 s.
Proof. intros [H1 H2]. split; [exact H1 | right; exact H2]. Qed.

Lemma raise_either {A} db0 (c : M A) (Q : A -> DB -> Prop) :
  hoare (before db0) c Q (before db0) -> hoare (before db0) c Q (either db0).
Proof.
  intros H. eapply hoare_weaken; [exact H | auto | auto | apply before_either].
Qed.

(** The branch taken when [buckets.user_id] is missing. *)
Lemma migrate_branch_keeps DRY_RUN db0 (globalBuckets : list BucketRow) :
  (forall e, In e (entries db0) -> In (e_user e) (users db0)) ->
  hoare (before db0)
    (bind select_users (fun allUsers =>
       bind
         (if Migrate.nonempty globalBuckets && Migrate.nonempty allUsers then
            bind (for_each allUsers (fun user =>
                    for_each globalBuckets (fun bucket =>
                      unless DRY_RUN
                        (bind (insert_bucket Fail user (b_name bucket) (b_sort bucket))
                              (fun _ => ret tt)))))
              (fun _ =>
            bind (for_each allUsers (fun user =>
                    for_each globalBuckets (fun globalBucket =>
                      bind (select_entries_of user (b_id globalBucket)) (fun _ => ret tt))))
              (fun _ =>
            bind (unless DRY_RUN
                    (for_each allUsers (fun user =>
                       for_each globalBuckets (fun globalBucket =>
                         bind (select_user_bucket user (b_name globalBucket))
                           (fun userBucket =>
                              match userBucket with
                              | Some ub => relink_entries user (b_id globalBucket) (b_id ub)
                              | None => ret tt
                              end)))))
              (fun _ => unless DRY_RUN safety_check)))
          else if Migrate.nonempty globalBuckets then unless DRY_RUN delete_global_buckets
          else ret tt)
         (fun _ => unless DRY_RUN
                     (bind set_user_id_not_null (fun _ => create_index_user_name_unique)))))
    (fun _ => either db0) (either db0).
Proof.
  intros FK.
  eapply hoare_bind with (Q := fun allUsers s => before db0 s /\ allUsers = users s).
  { intros s Hs. cbn. auto. }
  intros allUsers.
  eapply hoare_bind with (Q := fun _ => either db0).
  2:{ intros _. apply reads_only_hoare; [| apply on_rows_either].
      apply reads_only_unless, reads_only_bind;
        [apply reads_only_set_not_null | intros _; apply reads_only_create_index]. }
  destruct (Migrate.nonempty globalBuckets && Migrate.nonempty allUsers) eqn:Hboth.
  - eapply hoare_weaken with (P' := before db0) (Q' := fun _ => either db0) (E' := either db0);
      [| intros s [Hs _]; exact Hs | auto | auto].
    eapply hoare_bind with (Q := fun _ => before db0).
    { apply raise_either.
      apply hoare_for_each. intros u _. apply hoare_for_each. intros g _.
      apply unless_hoare; [| auto].
      apply (insert_bucket_kept Fail u (b_name g) (b_sort g) db0). left. reflexivity. }
    intros _. eapply hoare_bind with (Q := fun _ => before db0).
    { apply raise_either.
      apply hoare_for_each. intros u _. apply hoare_for_each. intros g _.
      apply reads_only_hoare; [| apply on_rows_before].
      apply reads_only_bind; [apply reads_only_select_entries_of | intros _; apply reads_only_ret]. }
    intros _. eapply hoare_bind with (Q := fun _ => before db0).
    { apply raise_either.
      apply unless_hoare; [| auto].
      apply hoare_for_each. intros u _. apply hoare_for_each. intros g _.
      eapply hoare_bind with (Q := fun _ => before db0).
      - apply reads_only_hoare; [apply reads_only_select_user_bucket | apply on_rows_before].
      - intros [ub |]; [apply relink_keeps | apply hoare_ret; auto]. }
    intros _. apply unless_hoare; [| apply before_either].
    eapply hoare_weaken;
      [apply safety_check_keeps | intros s Hs; exact Hs | intros ? s; apply after_either
      | apply before_either].
  - destruct (Migrate.nonempty globalBuckets) eqn:HG.
    + destruct allUsers as [| u us]; [| destruct globalBuckets; discriminate].
      apply unless_hoare; [| intros s [Hs _]; apply before_either, Hs].
      intros s [Hs Hu]. pose proof Hs as [[_ Husers] _].
      assert (Hnone : users db0 = []) by congruence.
      pose proof (delete_without_users_keeps db0 FK Hnone s Hs) as H.
      destruct (delete_global_buckets s); [apply after_either | apply before_either]; exact H.
    + apply hoare_ret. intros s [Hs _]. apply before_either, Hs.
Qed.

Lemma migrate_keeps DRY_RUN db0 :
  (forall e, In e (entries db0) -> In (e_user e) (users db0)) ->
  hoare (before db0) (migrate DRY_RUN) (fun _ => either db0) (either db0).
Proof.
  intros FK. unfold migrate.
  eapply hoare_bind with (Q := fun _ => before db0).
  { intros s Hs. cbn. exact Hs. }
  intros colCheck.
  eapply hoare_bind with (Q := fun _ => either db0).
  2:{ intros _. apply reads_only_hoare; [| apply on_rows_either].
      apply reads_only_unless, reads_only_create_index. }
  destruct colCheck; cbn [negb].
  - apply hoare_ret. apply before_either.
  - eapply hoare_bind with (Q := fun _ => before db0).
    { apply raise_either.
      apply unless_hoare; [apply add_column_keeps | auto]. }
    intros _.
    eapply hoare_bind with (Q := fun _ => before db0).
    { apply raise_either.
      apply reads_only_hoare; [apply reads_only_select_global | apply on_rows_before]. }
    intros globalBuckets. apply migrate_branch_keeps, FK.
Qed.

Lemma script_keeps DRY_RUN db0 :
  (forall e, In e (entries db0) -> In (e_user e) (users db0)) ->
  hoare (before db0) (script DRY_RUN) (fun _ => either db0) (either db0).
Proof.
  intros FK. unfold script.
  eapply hoare_bind; [apply migrate_keeps, FK |]. intros ?. unfold seedDefaultBuckets.
  eapply hoare_bind with (Q := fun _ => either db0).
  { apply reads_only_hoare; [apply reads_only_users_without | apply on_rows_either]. }
  intros us. apply hoare_for_each. intros u _. apply unless_hoare; [| auto].
  apply hoare_for_each. intros b _.
  apply (insert_bucket_kept DoNothingUserName u (fst b) (snd b) db0). right. reflexivity.
Qed.

Lemma before_start db : before db db.
Proof.
  split; [split; [apply same_checkin_refl | reflexivity] |].
  intros b Hin. exists b. auto.
Qed.

End MigrateDryRunFacts.

Section MigrateEndsClean.
Import Store Sql MigrationSql MigrateDryRun.

Local Abbreviation anything := (fun _ : DB => True).

Lemma insert_bucket_no_global mode u nm sort :
  hoare no_global (bind (insert_bucket mode u nm sort) (fun _ => ret tt))
        (fun _ => no_global) anything.
Proof.
  intros db Hdb.
  pose proof (insert_bucket_cases mode u nm sort db) as Hc. cbv zeta in Hc.
  unfold bind. destruct (insert_bucket mode u nm sort db) as [row s | e s]; [| exact I].
  cbn [final] in Hc. cbn. destruct Hc as (_ & _ & [[Hb _] | [Hb _]]); intros b Hin;
    rewrite Hb in Hin; [apply Hdb, Hin |].
  apply in_app_or in Hin as [Hin | [<- | []]]; [apply Hdb, Hin | reflexivity].
Qed.

Lemma safety_check_done :
  hoare anything safety_check (fun _ => no_global) anything.
Proof.
  intros s _. destruct (col_user_id s) eqn:Hcol.
  - destruct (safety_check_cases s Hcol) as [[_ ->] | [_ ->]]; [exact I |].
    intros b. proj_db. apply filtered_no_global.
  - unfold safety_check, select_orphaned_entries, bind, need_user_id. rewrite Hcol. exact I.
Qed.

Lemma delete_global_done :
  hoare anything delete_global_buckets (fun _ => no_global) anything.
Proof.
  intros s _. unfold delete_global_buckets, bind.
  destruct (need_user_id_cases s) as [[_ ->] | [_ ->]]; [| exact I].
  intros b. proj_db. apply filtered_no_global.
Qed.

Lemma anything_hoare {A} (c : M A) : hoare anything c (fun _ => anything) anything.
Proof. intros s _. destruct (c s); exact I. Qed.

Lemma no_filtered_global bs : List.filter is_global bs = [] -> forall b, In b bs -> is_global b = false.
Proof.
  intros H b Hin. destruct (is_global b) eqn:Hg; [| reflexivity].
  assert (Hf : In b (List.filter is_global bs)) by (apply filter_In; auto).
  rewrite H in Hf. destruct Hf.
Qed.

(** From a store without [buckets.user_id], a run that ends normally
    leaves no global bucket; a dry run does not end normally. *)
Lemma script_done_clean DRY_RUN :
  hoare (fun s => col_user_id s = false) (script DRY_RUN) (fun _ => no_global) anything.
Proof.
  unfold script. eapply hoare_bind with (Q := fun _ => no_global).
  2:{ intros ?. unfold seedDefaultBuckets.
      eapply hoare_bind with (Q := fun _ => no_global).
      { eapply hoare_weaken;
          [apply (reads_only_hoare _ no_global reads_only_users_without on_rows_no_global)
          | auto | auto | auto]. }
      intros us. apply hoare_for_each. intros u _. apply unless_hoare; [| auto].
      apply hoare_for_each. intros b _. apply insert_bucket_no_global. }
  unfold migrate. intros db Hcol.
  unfold column_user_id_exists. unfold bind at 1 2. rewrite Hcol. cbn [negb].
  assert (Hclean : forall c : M unit,
             reads_only c -> hoare no_global c (fun _ => no_global) anything).
  { intros c Hc. eapply hoare_weaken;
      [apply (reads_only_hoare _ no_global Hc on_rows_no_global) | auto | auto | auto]. }
  assert (Hrest : hoare (fun s => DRY_RUN = true -> col_user_id s = false)
            (bind
               (bind select_global_buckets (fun globalBuckets =>
                  bind select_users (fun allUsers =>
                    bind
                      (if Migrate.nonempty globalBuckets && Migrate.nonempty allUsers then
                         bind (for_each allUsers (fun user =>
                                 for_each globalBuckets (fun bucket =>
                                   unless DRY_RUN
                                     (bind (insert_bucket Fail user (b_name bucket)
                                              (b_sort bucket))
                                           (fun _ => ret tt)))))
                           (fun _ =>
                         bind (for_each allUsers (fun user =>
                                 for_each globalBuckets (fun globalBucket =>
                                   bind (select_entries_of user (b_id globalBucket))
                                        (fun _ => ret tt))))
                           (fun _ =>
                         bind (unless DRY_RUN
                                 (for_each allUsers (fun user =>
                                    for_each globalBuckets (fun globalBucket =>
                                      bind (select_user_bucket user (b_name globalBucket))
                                        (fun userBucket =>
                                           match userBucket with
                                           | Some ub =>
                                               relink_entries user (b_id globalBucket) (b_id ub)
                                           | None => ret tt
                                           end)))))
                           (fun _ => unless DRY_RUN safety_check)))
                       else if Migrate.nonempty globalBuckets
                            then unless DRY_RUN delete_global_buckets
                            else ret tt)
                      (fun _ => unless DRY_RUN
                                  (bind set_user_id_not_null
                                        (fun _ => create_index_user_name_unique))))))
               (fun _ => unless DRY_RUN create_index_user_name_unique))
            (fun _ => no_global) anything).
  { eapply hoare_bind with (Q := fun _ => no_global).
    2:{ intros ?. apply Hclean, reads_only_unless, reads_only_create_index. }
    eapply hoare_bind
      with (Q := fun G s => DRY_RUN = false /\ G = List.filter is_global (buckets s)).
    { intros s Hs. unfold select_global_buckets, bind.
      destruct (need_user_id_cases s) as [[Hc ->] | [_ ->]]; [| exact I].
      split; [| reflexivity]. destruct DRY_RUN; [| reflexivity].
      rewrite (Hs eq_refl) in Hc. discriminate. }
    intros G. eapply hoare_bind
      with (Q := fun U s => DRY_RUN = false /\ G = List.filter is_global (buckets s)).
    { intros s Hs. exact Hs. }
    intros U. eapply hoare_bind with (Q := fun _ => no_global).
    2:{ intros ?. apply Hclean, reads_only_unless, reads_only_bind;
          [apply reads_only_set_not_null | intros ?; apply reads_only_create_index]. }
    destruct (Migrate.nonempty G && Migrate.nonempty U).
    - intros s [HD _]. subst DRY_RUN.
      match goal with
      | |- match ?c s with _ => _ end =>
          assert (Hc : hoare anything c (fun _ => no_global) anything); [| exact (Hc s I)]
      end.
      eapply hoare_bind; [apply anything_hoare | intros ?].
      eapply hoare_bind; [apply anything_hoare | intros ?].
      eapply hoare_bind; [apply anything_hoare | intros ?].
      apply safety_check_done.
    - destruct (Migrate.nonempty G) eqn:HG.
      + intros s [HD _]. subst DRY_RUN. apply (delete_global_done s I).
      + apply hoare_ret. intros s [_ Hs]. destruct G; [| discriminate HG].
        intros b. apply no_filtered_global. symmetry. exact Hs. }
  destruct DRY_RUN.
  - apply (Hrest db). intros _. exact Hcol.
  - refine (Hrest (with_idx_name false
                     (with_col_user_id true
                        (with_buckets
                           (map (fun b => mkBucket (b_id b) None (b_name b) (b_sort b))
                                (buckets db)) db))) _).
    discriminate.
Qed.

End MigrateEndsClean.


Section MigrationSafety.
Import Store Sql MigrationSql MigrateDryRun.

Lemma references_global_witness bs e :
  references_global bs e = true ->
  exists b, In b bs /\ b_id b = e_bucket e /\ is_global b = true.
Proof.
  intros H. apply existsb_exists in H as (b & Hb & H).
  apply andb_true_iff in H as [Hid Hg]. exists b. split; [exact Hb |].
  split; [apply Z.eqb_eq, Hid | exact Hg].
Qed.



(** On that store the script gives user 1 a copy of each bucket, moves the
    two entries to the copies, finds nothing left on a global bucket,
    deletes the three global buckets and completes the schema; a dry run
    stops at the first statement that names the column it did not add. *)
Example migration_of_legacy_store :
  let legacy :=
    mkDB [1]
         [mkBucket 1 None "10 min calisthenics" 1; mkBucket 2 None "25 min cardio" 2;
          mkBucket 3 None "Stretching / mobility" 3]
         [mkEntry 1 1 (IsoDate.mk 2024 4 12) true;
          mkEntry 1 2 (IsoDate.mk 2024 4 12) true]
         4 false false true false in
  script false legacy
  = Done tt (mkDB [1]
               [mkBucket 4 (Some 1) "10 min calisthenics" 1;
                mkBucket 5 (Some 1) "25 min cardio" 2;
                mkBucket 6 (Some 1) "Stretching / mobility" 3]
               [mkEntry 1 4 (IsoDate.mk 2024 4 12) true;
                mkEntry 1 5 (IsoDate.mk 2024 4 12) true]
               7 true true false true)
  /\ script true legacy = Raised UndefinedColumn legacy.
Proof. split; vm_compute; reflexivity. Qed.

(** A run that stops half-way: two global buckets of one name, and an
    entry of user 1 on each for the same day.  Both would be moved to the
    first copy; the second UPDATE meets UNIQUE(user_id, bucket_id, date)
    and the script ends there, with both entries and every bucket in
    place. *)
Example migration_stops_on_colliding_names :
  let legacy :=
    mkDB [1]
         [mkBucket 1 None "Run" 1; mkBucket 2 None "Run" 2]
         [mkEntry 1 1 (IsoDate.mk 2024 4 12) true;
          mkEntry 1 2 (IsoDate.mk 2024 4 12) false]
         3 false false false false in
  script false legacy
  = Raised UniqueViolation
      (mkDB [1]
            [mkBucket 1 None "Run" 1; mkBucket 2 None "Run" 2;
             mkBucket 3 (Some 1) "Run" 1; mkBucket 4 (Some 1) "Run" 2]
            [mkEntry 1 3 (IsoDate.mk 2024 4 12) true;
             mkEntry 1 2 (IsoDate.mk 2024 4 12) false]
            5 true false false false).
Proof. vm_compute. reflexivity. Qed.

(** The scan is what stands between an entry and the cascade: on a store
    where an entry is still linked to a global bucket the block throws, and
    the DELETE it guards would have removed that entry. *)
Example safety_check_stops_the_cascade :
  let s0 :=
    mkDB [1]
         [mkBucket 1 None "Reading" 1; mkBucket 2 (Some 1) "Walking" 1]
         [mkEntry 1 1 (IsoDate.mk 2024 4 12) true]
         3 true false false false in
  safety_check s0 = Raised (JsError ABORT_MESSAGE) s0
  /\ entries (final (delete_global_buckets s0)) = [].
Proof. split; vm_compute; reflexivity. Qed.

End MigrationSafety.


Section MigrateWithoutUsers.
Import Store Sql MigrationSql MigrateDryRun.

Lemma all_global_after_add (bs : list BucketRow) :
  let bs' := map (fun b => mkBucket (b_id b) None (b_name b) (b_sort b)) bs in
  List.filter is_global bs' = bs'
  /\ List.filter (fun b => negb (is_global b)) bs' = []
  /\ existsb is_global (List.filter (fun b => negb (is_global b)) bs') = false.
Proof.
  cbv zeta. induction bs as [| b bs (IH1 & IH2 & IH3)]; [auto |].
  cbn [map List.filter is_global b_user negb]. rewrite IH1, IH2. auto.
Qed.

(** X12.  With [buckets.user_id] missing and no user in the store, the
    script (its later text, run without [--dry-run]) adds the column, drops
    the index on [name], deletes the global buckets, sets the column NOT
    NULL, creates the index on (user_id, name) and seeds nobody: it ends
    normally on an empty [buckets] table under the per-user schema. *)
Theorem migrate_without_users_completes db :
  col_user_id db = false ->
  users db = [] ->
  (forall e, In e (entries db) -> In (e_user e) (users db)) ->
  script false db = Done tt (mkDB [] [] [] (bucket_seq db) true true false true).
Proof.
  intros Hcol Hnone FK.
  assert (He : entries db = []).
  { destruct (entries db) as [| e l]; [reflexivity |].
    specialize (FK e (or_introl eq_refl)). rewrite Hnone in FK. destruct FK. }
  destruct db as [us bs es seq col nn i1 i2]. cbn in Hcol, Hnone, He. subst us es col.
  destruct (all_global_after_add bs) as (Hall & Hrest & Hex). cbv zeta in *.
  unfold script, migrate, seedDefaultBuckets, unless, column_user_id_exists,
    add_user_id_column, drop_index_name_unique, select_global_buckets, select_users,
    delete_global_buckets, set_user_id_not_null, create_index_user_name_unique,
    users_without_buckets, need_user_id, bind, ret.
  proj_db. cbn [negb]. proj_db. rewrite Hall.
  rewrite andb_false_r.
  destruct (Migrate.nonempty (map _ bs)) eqn:Hne; proj_db.
  - rewrite Hrest. cbn. destruct i2; reflexivity.
  - destruct bs; [| discriminate Hne]. cbn. destruct i2; reflexivity.
Qed.

Lemma migrate_without_users_completes_witness :
  let legacy :=
    mkDB []
         [mkBucket 1 None "10 min calisthenics" 1; mkBucket 2 None "25 min cardio" 2;
          mkBucket 3 None "Stretching / mobility" 3]
         [] 4 false false true false in
  script false legacy = Done tt (mkDB [] [] [] 4 true true false true).
Proof.
  intros legacy. apply (migrate_without_users_completes legacy); [reflexivity .. |].
  intros e [].
Defined.

(** On a store that has the column already, the only statement left is
    the CREATE UNIQUE INDEX IF NOT EXISTS after the branch: an index that an
    interrupted migration left out is created. *)
Lemma migrate_recreates_index db :
  col_user_id db = true ->
  idx_user_name_unique db = false ->
  NoDup (user_name_keys (buckets db)) ->
  migrate false db = Done tt (with_idx_user_name true db).
Proof.
  intros Hcol Hidx Hnd.
  unfold migrate, unless, column_user_id_exists, create_index_user_name_unique,
    need_user_id, bind, ret.
  rewrite Hcol. cbn [negb]. rewrite Hcol, Hidx.
  rewrite (bool_decide_eq_true_2 _ Hnd). reflexivity.
Qed.

End MigrateWithoutUsers.

(* ================================================================== *)
(** * The entry ledger on the raw [date] *)

Section CheckinsWireFacts.
Import Store Sql Http Js CheckinsWire.

(** The POST branch on a body that carries both fields. *)
Lemma wire_post_unfold pg_date today u month b v c db :
  b <> 0 -> falsy v = false ->
  handler pg_date today (Some u) POST month (Some (mkPayload (Some b) v c)) db
  = if lt v (toISODate (IsoDate.prevDay (IsoDate.prevDay today))) || gt v (toISODate today)
    then Done (mkResponse 400 (ErrorBody "Can only edit entries for today and past 2 days")) db
    else match pg_date v with
         | Some d =>
             match Sql.upsert_entry u b d (strict_neq_false c) db with
             | Done _ db' => Done (mkResponse 200 OkBody) db'
             | Raised e db' => Raised e db'
             end
         | None => Raised InvalidDate db
         end.
Proof.
  intros Hb Hv. unfold handler, missing_fields, Buckets.falsy_id.
  cbn [bucketId date checked]. apply Z.eqb_neq in Hb. rewrite Hb, Hv. cbn [orb].
  destruct (lt v _ || gt v _); [reflexivity |].
  unfold upsert_entry, bind, sendJson, ret, raise.
  destruct (pg_date v) as [d |]; [| reflexivity].
  change (default 0 (Some b)) with b.
  destruct (Sql.upsert_entry u b d _ db); reflexivity.
Qed.

(** An upsert into a store that has the user and the bucket ends
    normally. *)
Lemma upsert_entry_accepts u b d chk db :
  IsoDate.validb d = true ->
  In u (users db) -> (exists r, In r (buckets db) /\ b_id r = b) ->
  exists db', Sql.upsert_entry u b d chk db = Done tt db'
              /\ In (mkEntry u b d chk) (entries db').
Proof.
  intros Hv Hu (r & Hr & Hid). unfold Sql.upsert_entry. rewrite Hv. cbn [negb].
  destruct (existsb (same_slot u b d) (entries db)) eqn:Hex.
  - eexists. split; [reflexivity |]. proj_db.
    apply existsb_exists in Hex as (e & He & Hs).
    apply in_map_iff. exists e. rewrite Hs. split; [| exact He].
    unfold same_slot in Hs. apply andb_true_iff in Hs as [Hs Hd].
    apply andb_true_iff in Hs as [Hu' Hb'].
    apply Z.eqb_eq in Hu', Hb'. apply date_eqb_eq in Hd. congruence.
  - assert (H1 : existsb (Z.eqb u) (users db) = true).
    { apply existsb_exists. exists u. split; [exact Hu | apply Z.eqb_refl]. }
    assert (H2 : existsb (fun r => b_id r =? b) (buckets db) = true).
    { apply existsb_exists. exists r. split; [exact Hr | apply Z.eqb_eq, Hid]. }
    rewrite H1, H2. cbn [negb orb]. eexists. split; [reflexivity |]. proj_db.
    apply in_or_app. right. left. reflexivity.
Qed.

(** C5 (the code departs from the claim).  The window check compares the
    [date] of the body, as a string, with the texts of the two bounds, and
    the INSERT then lets Postgres read the same string.  On the server date
    2024-10-01 the window starts on 2024-09-29; the text "2024-1-05" is
    neither below "2024-09-29" (its sixth character is "1", the bound's
    "0") nor above "2024-10-01" (its seventh character is "-", the bound's
    "0"), so the check lets it through; Postgres reads it as 2024-01-05.
    For every store that has the user and the bucket, the request is
    answered 200 and the row is written -- for a day that lies before the
    window. *)
Theorem upsert_accepts_date_before_window pg_date u b c db :
  pg_date (Text "2024-1-05") = Some (IsoDate.mk 2024 1 5) ->
  b <> 0 ->
  In u (users db) -> (exists r, In r (buckets db) /\ b_id r = b) ->
  let today := IsoDate.mk 2024 10 1 in
  let d := IsoDate.mk 2024 1 5 in
  IsoDate.prevDay (IsoDate.prevDay today) = IsoDate.mk 2024 9 29
  /\ IsoDate.ltb d (IsoDate.prevDay (IsoDate.prevDay today)) = true
  /\ exists db',
       handler pg_date today (Some u) POST None
         (Some (mkPayload (Some b) (Text "2024-1-05") c)) db
       = Done (mkResponse 200 OkBody) db'
       /\ In (mkEntry u b d (strict_neq_false c)) (entries db').
Proof.
  intros Hpg Hb Hu Hr today d. split; [reflexivity |]. split; [reflexivity |].
  rewrite (wire_post_unfold pg_date today u None b (Text "2024-1-05") c db Hb eq_refl).
  change (lt (Text "2024-1-05") (toISODate (IsoDate.prevDay (IsoDate.prevDay today)))
          || gt (Text "2024-1-05") (toISODate today)) with false.
  cbv iota. rewrite Hpg.
  destruct (upsert_entry_accepts u b d (strict_neq_false c) db eq_refl Hu Hr)
    as (db' & Hrun & Hin).
  unfold d in *. rewrite Hrun. exists db'. split; [reflexivity | exact Hin].
Qed.

Lemma upsert_accepts_date_before_window_witness :
  let pg_date v :=
    match v with
    | Text s => if String.eqb s "2024-1-05" then Some (IsoDate.mk 2024 1 5) else None
    | _ => None
    end in
  let db := mkDB [1] [mkBucket 3 (Some 1) "Run" 1] [] 4 true true false true in
  exists db',
    handler pg_date (IsoDate.mk 2024 10 1) (Some 1) POST None
      (Some (mkPayload (Some 3) (Text "2024-1-05") (JBool true))) db
    = Done (mkResponse 200 OkBody) db'
    /\ In (mkEntry 1 3 (IsoDate.mk 2024 1 5) (strict_neq_false (JBool true))) (entries db').
Proof.
  intros pg_date db.
  apply (upsert_accepts_date_before_window pg_date 1 3 (JBool true) db).
  - reflexivity.
  - discriminate.
  - left. reflexivity.
  - exists (mkBucket 3 (Some 1) "Run" 1). split; [left |]; reflexivity.
Defined.

(** A [date] that is a number is compared with the two bounds as a number,
    and they are none: both comparisons are false whatever the server's
    date, and the day Postgres reads from the number is written. *)
Lemma upsert_accepts_any_number pg_date today u b num den c d db :
  pg_date (Number num den) = Some d ->
  num <> 0 -> b <> 0 -> IsoDate.validb d = true ->
  In u (users db) -> (exists r, In r (buckets db) /\ b_id r = b) ->
  exists db',
    handler pg_date today (Some u) POST None
      (Some (mkPayload (Some b) (Number num den) c)) db
    = Done (mkResponse 200 OkBody) db'
    /\ In (mkEntry u b d (strict_neq_false c)) (entries db').
Proof.
  intros Hpg Hn Hb Hv Hu Hr.
  assert (Hf : falsy (Number num den) = false) by (apply Z.eqb_neq, Hn).
  rewrite (wire_post_unfold pg_date today u None b _ c db Hb Hf).
  cbn [lt gt orb]. rewrite Hpg.
  destruct (upsert_entry_accepts u b d (strict_neq_false c) db Hv Hu Hr) as (db' & -> & Hin).
  exists db'. split; [reflexivity | exact Hin].
Qed.

End CheckinsWireFacts.


Section CheckinsWireRefinement.
Import Store Sql Http Js CheckinsWire.

Lemma digit_compare (x y : Z) :
  Ascii.compare (digit x) (digit y) = (x mod 10 ?= y mod 10).
Proof.
  unfold Ascii.compare, digit.
  pose proof (Z.mod_pos_bound x 10 ltac:(lia)) as Hx.
  pose proof (Z.mod_pos_bound y 10 ltac:(lia)) as Hy.
  rewrite !N_ascii_embedding by lia.
  rewrite Z2N.inj_compare by lia. apply Z.add_compare_mono_l.
Qed.

Ltac compare_digits :=
  repeat match goal with
         | |- context [(?x mod 10 ?= ?y mod 10)] =>
             destruct (Z.compare_spec (x mod 10) (y mod 10))
         end.

Ltac order_of x y :=
  first [ assert (x < y) by (Z.div_mod_to_equations; lia)
        | assert (x = y) by (Z.div_mod_to_equations; lia)
        | assert (y < x) by (Z.div_mod_to_equations; lia)
        | idtac ].

Ltac settle_order :=
  repeat match goal with
         | |- context [?x <? ?y] => destruct (Z.ltb_spec x y)
         | |- context [?x =? ?y] => destruct (Z.eqb_spec x y)
         end;
  cbn [orb andb]; first [reflexivity | lia].

(** On the texts [toISOString] writes, [<] is the order of the calendar. *)
Lemma toISODate_lt (a b : IsoDate.t) :
  four_digit_year a = true -> four_digit_year b = true ->
  String.ltb (toISODate a) (toISODate b) = IsoDate.ltb a b.
Proof.
  unfold four_digit_year. rewrite !andb_true_iff, !Z.leb_le.
  intros [[Ha0 Ha1] Hva] [[Hb0 Hb1] Hvb].
  destruct (valid_bounds a Hva) as [Hma Hda], (valid_bounds b Hvb) as [Hmb Hdb].
  clear Hva Hvb.
  destruct a as [ya ma da], b as [yb mb db]. cbn [IsoDate.year IsoDate.month IsoDate.day] in *.
  unfold String.ltb, toISODate, pad2, IsoDate.ltb.
  cbn [IsoDate.year IsoDate.month IsoDate.day]. cbv [String.append]. cbn [String.compare].
  rewrite !digit_compare.
  change (Ascii.compare "-" "-") with Eq. cbv iota.
  compare_digits; order_of ya yb; order_of ma mb; order_of da db; settle_order.
Qed.

Lemma toISODate_truthy d : falsy (Text (toISODate d)) = false.
Proof. reflexivity. Qed.

(** X24.  [Checkins.handler] is the code on well-formed requests: when the
    [date] of the body, if there is one, is the ISO text of a calendar date
    that Postgres reads back as that date, and the server's date and the
    start of its window are written with four-digit years, the handler run
    on the body as it arrives does what [Checkins.handler] does on the date
    -- the same answer, the same store, the same exception. *)
Theorem wire_agrees_on_iso_dates pg_date today auth method month payload db :
  four_digit_year today = true ->
  four_digit_year (IsoDate.prevDay (IsoDate.prevDay today)) = true ->
  (forall p d, payload = Some p -> Checkins.date p = Some d ->
               four_digit_year d = true /\ pg_date (Text (toISODate d)) = Some d) ->
  handler pg_date today auth method month (option_map on_the_wire payload) db
  = Checkins.handler today auth method month payload db.
Proof.
  intros Ht He Hd.
  destruct method; try reflexivity; try (destruct auth; reflexivity).
  destruct auth as [u |]; [| reflexivity].
  destruct payload as [[[b |] [d |] c] |]; unfold on_the_wire;
    cbn [option_map Checkins.bucketId Checkins.date Checkins.checked]; try reflexivity.
  - destruct (Hd _ d eq_refl eq_refl) as [Hfd Hpg].
    destruct (Z.eq_dec b 0) as [-> | Hb]; [reflexivity |].
    rewrite (wire_post_unfold pg_date today u month b _ c db Hb (toISODate_truthy d)).
    rewrite (checkins_post_unfold today u month b d c db Hb).
    unfold lt, gt. rewrite (toISODate_lt _ _ Hfd He), (toISODate_lt _ _ Ht Hfd), Hpg.
    reflexivity.
  - unfold handler, missing_fields, Checkins.handler, Checkins.missing_fields.
    cbn [bucketId date falsy Buckets.falsy_id Checkins.bucketId Checkins.date].
    rewrite orb_true_r. reflexivity.
Qed.

Lemma wire_agrees_on_iso_dates_witness :
  let pg_date v :=
    match v with
    | Text s => if String.eqb s "2024-04-13" then Some (IsoDate.mk 2024 4 13) else None
    | _ => None
    end in
  let db := mkDB [1] [mkBucket 3 (Some 1) "Run" 1] [] 4 true true false true in
  let p := Checkins.mkPayload (Some 3) (Some (IsoDate.mk 2024 4 13)) JUndefined in
  handler pg_date (IsoDate.mk 2024 4 15) (Some 1) POST None (option_map on_the_wire (Some p)) db
  = Checkins.handler (IsoDate.mk 2024 4 15) (Some 1) POST None (Some p) db.
Proof.
  intros pg_date db p.
  apply (wire_agrees_on_iso_dates pg_date (IsoDate.mk 2024 4 15) (Some 1) POST None (Some p) db).
  - reflexivity.
  - reflexivity.
  - intros p' d Hp Hd. injection Hp as <-. injection Hd as <-. split; reflexivity.
Defined.

End CheckinsWireRefinement.


(* ================================================================== *)
(** * Error answers, from the cookie on *)

Section EndpointFacts.
Import Store Sql Http Js.

Variable hashToken : string -> string.
Variable pg_date : CheckinsWire.Json -> option IsoDate.t.

Lemma wire_error_unwritten today auth method month payload db r db' :
  status r <> 200 ->
  CheckinsWire.handler pg_date today auth method month payload db = Done r db' ->
  db' = db.
Proof.
  intros Hst. unfold CheckinsWire.handler.
  assert (Hrest : Checkins.handler today auth method month None db = Done r db' -> db' = db)
    by apply (proj1 (proj2 (handler_error_unwritten db r db' Hst))).
  destruct method; try exact Hrest. destruct auth as [u |]; [| exact Hrest].
  destruct (CheckinsWire.missing_fields payload); [intros [= <- <-]; reflexivity |].
  destruct payload as [p |]; [| intros [= <- <-]; reflexivity].
  cbv zeta. destruct (_ || _); [intros [= <- <-]; reflexivity |].
  unfold bind, sendJson, ret.
  destruct (CheckinsWire.upsert_entry _ _ _ _ _ db); [| discriminate].
  intros [= <- <-]. cbn in Hst. congruence.
Qed.

(** [requireUser] on a cookie: the caller and an untouched session store,
    or nobody -- and then the session store is untouched, or has lost the
    expired session the cookie names. *)
Lemma requireUser_cases cookie now sessions :
  let r := Auth.requireUser hashToken cookie now sessions in
  (exists who, fst r = Some who /\ snd r = sessions)
  \/ (fst r = None
      /\ (snd r = sessions
          \/ Endpoint.expired_session_deleted hashToken cookie now sessions (snd r))).
Proof.
  cbv zeta. unfold Auth.requireUser.
  pose proof (getUser_cases hashToken cookie now sessions) as Hc. cbv zeta in Hc.
  destruct (Auth.getUserFromRequest hashToken cookie now sessions) as [info sessions1].
  cbn [fst snd] in Hc.
  destruct Hc as [[-> Hs] | (token & s & u & rest & _ & _ & _ & _ & Hr)].
  - right. cbn. split; [reflexivity |].
    destruct Hs as [-> | (token & s & u & rest & Hs)]; [left; reflexivity |].
    right. exists token, s, u, rest. exact Hs.
  - injection Hr as -> ->. left. cbn. eauto.
Qed.

(** X23.  An error answer means nothing was written to the buckets and the
    entries, and nothing to the sessions either, with one exception: when
    the bucket, check-in or reset endpoint answers with a status other than
    200, the relational store is exactly as it was before the request, and
    so is the session store -- unless the answer is the 401 of
    [requireUser], which before answering may have deleted the expired
    session that the cookie named. *)
Theorem error_answer_writes_nothing cookie now sessions db sessions' r db' :
  status r <> 200 ->
  let unwritten :=
    db' = db
    /\ (sessions' = sessions
        \/ (status r = 401
            /\ Endpoint.expired_session_deleted hashToken cookie now sessions sessions')) in
  (forall method payload,
      Endpoint.buckets hashToken cookie now method payload sessions db
      = (sessions', Done r db') -> unwritten)
  /\ (forall today method month payload,
        Endpoint.checkins hashToken pg_date cookie now today method month payload sessions db
        = (sessions', Done r db') -> unwritten)
  /\ (forall method,
        Endpoint.reset hashToken cookie now method sessions db
        = (sessions', Done r db') -> unwritten).
Proof.
  intros Hst unwritten.
  destruct (handler_error_unwritten db r db' Hst) as (Hb & _ & Ha).
  pose proof (fun today auth method month payload =>
                wire_error_unwritten today auth method month payload db r db' Hst) as Hc.
  assert (Hrefused : (sessions, methodNotAllowed db) = (sessions', Done r db') -> unwritten).
  { intros [= <- <- <-]. split; [reflexivity | left; reflexivity]. }
  assert (Hserved : forall (f : option (Auth.UserRow * bool * option Z) -> M Response),
             (forall auth, f auth db = Done r db' -> db' = db) ->
             f None db = Done (mkResponse 401 (ErrorBody "Unauthorized")) db ->
             (let '(auth, sessions1) := Auth.requireUser hashToken cookie now sessions in
              (sessions1, f auth db)) = (sessions', Done r db') ->
             unwritten).
  { intros f Hf Hnone.
    pose proof (requireUser_cases cookie now sessions) as Hcases. cbv zeta in Hcases.
    destruct (Auth.requireUser hashToken cookie now sessions) as [auth sessions1].
    cbn [fst snd] in Hcases. intros [= <- Hrun].
    split; [exact (Hf auth Hrun) |].
    destruct Hcases as [(who & _ & ->) | [-> [-> | Hdel]]]; [left; reflexivity .. |].
    right. split; [| exact Hdel]. rewrite Hnone in Hrun. injection Hrun as <- _. reflexivity. }
  split; [| split].
  - intros method payload. unfold Endpoint.buckets.
    destruct method; try exact Hrefused;
      apply (Hserved (fun auth => Buckets.handler (Endpoint.user_id auth) _ payload));
      first [intros auth; apply Hb | reflexivity].
  - intros today method month payload. unfold Endpoint.checkins.
    destruct method; try exact Hrefused;
      apply (Hserved (fun auth => CheckinsWire.handler pg_date today (Endpoint.user_id auth)
                                    _ month payload));
      first [intros auth; apply Hc | reflexivity].
  - intros method. unfold Endpoint.reset.
    destruct method; try exact Hrefused.
    apply (Hserved (fun auth => Admin.handler (Endpoint.user_and_admin auth) POST));
      first [intros auth; apply Ha | reflexivity].
Qed.

End EndpointFacts.

(** A request for the bucket list with the cookie of a session that
    expired a millisecond ago: the answer is 401, the buckets are as they
    were, and the session row is gone. *)
Lemma error_answer_writes_nothing_witness :
  let hash := fun s : string => s in
  let pg_date := fun _ : CheckinsWire.Json => @None IsoDate.t in
  let sky := Auth.mkUser 1 "sky@example.org" (Some "Sky") None in
  let sessions := Auth.mkDB [sky] [Auth.mkSession 1 1 "t0k3n" 1999] 2 in
  let db := Store.mkDB [1] [Store.mkBucket 1 (Some 1) "Run" 1] [] 2 true true false true in
  let r := Http.mkResponse 401 (Http.ErrorBody "Unauthorized") in
  db = db
  /\ (Auth.mkDB [sky] [] 2 = sessions
      \/ (Http.status r = 401
          /\ Endpoint.expired_session_deleted hash (Some "t0k3n") 2000 sessions
               (Auth.mkDB [sky] [] 2))).
Proof.
  intros hash pg_date sky sessions db r.
  apply (proj1 (error_answer_writes_nothing hash pg_date (Some "t0k3n") 2000 sessions db
                  (Auth.mkDB [sky] [] 2) r db ltac:(discriminate))
           Http.GET None).
  reflexivity.
Defined.
